(** * Exercise tracker: a shallow embedding of [index.js]

    The server is an Express application over one PostgreSQL connection.
    The development models, in this order,

    - the JavaScript built-ins the handlers call ([substr], [toString(16)],
      [parseInt], numbers and their decimal text, truthiness, [Date] and
      [toDateString]);
    - the two tables of the schema with their column types and constraints;
    - the SQL statements sent through [client.query], as functions on the
      tables that also record the statement text;
    - the route handlers, as functions from a request and a store to a
      response and a store;

    and then states and proves the properties of the handlers. *)

From Stdlib Require Import ZArith NArith List String Ascii Bool Lia.
From Stdlib Require Import Sorted Permutation.
Import ListNotations.
Open Scope string_scope.
Open Scope Z_scope.

(* ================================================================= *)
(** ** JavaScript strings and numbers *)

Module JS.

(** A string is a sequence of characters with codes from 0 to 255 (U+0000 to
    U+00FF), each held in one [ascii]. *)

(** [String.prototype.substr(start, length)] for a non-negative [start]:
    the characters from index [start], at most [length] of them. *)
Definition substr (s : string) (start len : nat) : string :=
  String.substring start len s.

(** The digit characters of [Number.prototype.toString(radix)]. *)
Definition digit_char (d : N) : ascii :=
  match d with
  | 0 => "0" | 1 => "1" | 2 => "2" | 3 => "3" | 4 => "4" | 5 => "5"
  | 6 => "6" | 7 => "7" | 8 => "8" | 9 => "9" | 10 => "a" | 11 => "b"
  | 12 => "c" | 13 => "d" | 14 => "e" | _ => "f"
  end%N%char.

(** Digits of a natural number, most significant first; [acc] collects the
    digits already produced.  One unit of fuel per digit. *)
Fixpoint int_digits (fuel : nat) (radix n : N) (acc : string) : string :=
  match fuel with
  | O => acc
  | S fuel' =>
      let acc' := String (digit_char (n mod radix)) acc in
      if (n / radix =? 0)%N then acc' else int_digits fuel' radix (n / radix) acc'
  end.

Definition nat_toString (radix n : N) : string :=
  int_digits (S (N.to_nat (N.size n))) radix n "".

(** [n.toString(radix)] for an integer-valued number [n]. *)
Definition int_toString (radix : N) (n : Z) : string :=
  if n <? 0 then "-" ++ nat_toString radix (Z.to_N (- n))
  else nat_toString radix (Z.to_N n).

(** A non-negative double is a dyadic rational [mant / 2^bexp].  Every value
    [Math.random()] can return has this form with [mant < 2^bexp]. *)
Record dyadic : Type := Dyadic { mant : N; bexp : nat }.

Definition in_unit_interval (x : dyadic) : Prop :=
  (mant x < 2 ^ N.of_nat (bexp x))%N.

(** The digits after the radix point.  [toString] multiplies the remaining
    fraction by the radix, emits the integer part and goes on while a
    fraction remains; for radix 16 the expansion of a double is finite and
    exact.  [r] is the numerator of the fraction over [den]. *)
Fixpoint frac_digits (fuel : nat) (radix r den : N) : string :=
  match fuel with
  | O => ""
  | S fuel' =>
      if (r =? 0)%N then ""
      else String (digit_char ((r * radix) / den))
                  (frac_digits fuel' radix ((r * radix) mod den) den)
  end.

(** [x.toString(16)] for a non-negative double [x]. *)
Definition dyadic_toString16 (x : dyadic) : string :=
  let den := (2 ^ N.of_nat (bexp x))%N in
  let ip := (mant x / den)%N in
  let fp := (mant x mod den)%N in
  nat_toString 16 ip ++
  (if (fp =? 0)%N then "" else "." ++ frac_digits (bexp x) 16 fp den).

(** The characters of lowercase hexadecimal notation. *)
Definition is_hex_digit (c : ascii) : bool :=
  let n := N_of_ascii c in
  ((48 <=? n) && (n <=? 57) || (97 <=? n) && (n <=? 102))%N.

Fixpoint all_chars (p : ascii -> bool) (s : string) : bool :=
  match s with
  | String c s' => p c && all_chars p s'
  | EmptyString => true
  end.

Definition is_decimal_digit (c : ascii) : bool :=
  let n := N_of_ascii c in ((48 <=? n) && (n <=? 57))%N.

(** *** Numbers

    The numbers that [parseInt] returns and that a JSON integer denotes:
    NaN, the infinities and the integer-valued doubles.  [Finite z] holds
    the value [z]. *)
Inductive number : Type :=
  | NaN
  | Infinity (negative : bool)
  | Finite (z : Z).

(** The double nearest to an integer [z >= 0], ties to the even mantissa: a
    double has 53 bits of mantissa. *)
Definition round53 (z : Z) : Z :=
  let b := Z.log2 z in
  if b <? 53 then z
  else
    let sh := b - 52 in
    let q := Z.shiftr z sh in
    let r := z - Z.shiftl q sh in
    let half := Z.shiftl 1 (sh - 1) in
    let q' := if (half <? r) || ((r =? half) && Z.odd q) then q + 1 else q in
    Z.shiftl q' sh.

(** The number an integer is read as; from [2^1024] on the rounded value is
    an infinity. *)
Definition double_of_int (z : Z) : number :=
  let m := round53 (Z.abs z) in
  if 2 ^ 1024 <=? m then Infinity (z <? 0)
  else Finite (if z <? 0 then - m else m).

Definition decimal_digits (d : Z) : nat :=
  String.length (nat_toString 10 (Z.to_N d)).

(** [Number::toString] prints the decimal with the fewest significant
    digits that is read back as the same double, the closest one if there
    are several.  [shortest_from j d] looks for it among the multiples of
    [10^j] next to [d], then with more digits; the result is the integer the
    digits denote. *)
Fixpoint shortest_from (j : nat) (d : Z) : Z :=
  let p := 10 ^ Z.of_nat j in
  let lo := d / p * p in
  let hi := lo + p in
  let ok_lo := round53 lo =? d in
  let ok_hi := round53 hi =? d in
  if ok_lo && ok_hi then
    if d - lo <? hi - d then lo
    else if hi - d <? d - lo then hi
    else if Z.even (d / p) then lo else hi
  else if ok_lo then lo
  else if ok_hi then hi
  else match j with
       | O => d
       | S j' => shortest_from j' d
       end.

Definition shortest (d : Z) : Z := shortest_from (decimal_digits d) d.

Fixpoint drop_zeros (fuel : nat) (c : Z) : Z :=
  match fuel with
  | O => c
  | S fuel' =>
      if (c mod 10 =? 0) && negb (c =? 0) then drop_zeros fuel' (c / 10) else c
  end.

(** The notation with an exponent, used from [10^21] on: the significant
    digits, a point after the first one, and the power of ten. *)
Definition exponent_text (c : Z) : string :=
  let n := decimal_digits c in
  let e := "e+" ++ int_toString 10 (Z.of_nat (n - 1)) in
  match int_toString 10 (drop_zeros n c) with
  | String a EmptyString => String a e
  | String a rest => String a ("." ++ rest ++ e)
  | EmptyString => e
  end.

(** [Number::toString(x)] in radix 10. *)
Definition Number_toString (x : number) : string :=
  match x with
  | NaN => "NaN"
  | Infinity negative => (if negative then "-" else "") ++ "Infinity"
  | Finite z =>
      let c := shortest (Z.abs z) in
      (if z <? 0 then "-" else "") ++
      (if c <? 10 ^ 21 then nat_toString 10 (Z.to_N c) else exponent_text c)
  end.

(** *** Values of request fields

    A field of [req.body] after [express.json()] or [express.urlencoded()]:
    absent, [null], a boolean, a number or a string.  [JNum z] is the
    number that the JSON integer [z] denotes, [double_of_int z].  Numbers
    with a fraction, objects and arrays are not modelled. *)
Inductive value : Type :=
  | JUndefined
  | JNull
  | JBool (b : bool)
  | JNum (z : Z)
  | JStr (s : string).

(** [ToBoolean]: what [!v] and [v ? a : b] test. *)
Definition truthy (v : value) : bool :=
  match v with
  | JUndefined | JNull => false
  | JBool b => b
  | JNum z => negb (z =? 0)
  | JStr s => negb (String.eqb s "")
  end.

Definition ToString (v : value) : string :=
  match v with
  | JUndefined => "undefined"
  | JNull => "null"
  | JBool true => "true"
  | JBool false => "false"
  | JNum z => Number_toString (double_of_int z)
  | JStr s => s
  end.

(** *** [parseInt(string)] with no radix argument *)

(** The white space and the line terminators among the characters of a
    string here: tab, line feed, vertical tab, form feed, carriage return,
    space and no-break space (U+00A0). *)
Definition is_white_space (c : ascii) : bool :=
  let n := N_of_ascii c in
  ((9 <=? n) && (n <=? 13) || (n =? 32) || (n =? 160))%N.

Fixpoint trim_start (s : string) : string :=
  match s with
  | String c s' => if is_white_space c then trim_start s' else s
  | EmptyString => s
  end.

Definition digit_value (radix : N) (c : ascii) : option N :=
  let n := N_of_ascii c in
  let d := if ((48 <=? n) && (n <=? 57))%N then Some (n - 48)%N
           else if ((97 <=? n) && (n <=? 122))%N then Some (n - 87)%N
           else if ((65 <=? n) && (n <=? 90))%N then Some (n - 55)%N
           else None in
  match d with
  | Some k => if (k <? radix)%N then Some k else None
  | None => None
  end.

(** The value of the longest prefix of radix digits; [None] when the prefix
    is empty. *)
Fixpoint leading_digits (radix : N) (s : string) (acc : option N) : option N :=
  match s with
  | String c s' =>
      match digit_value radix c with
      | Some d =>
          leading_digits radix s'
            (Some (match acc with Some a => a * radix + d | None => d end)%N)
      | None => acc
      end
  | EmptyString => acc
  end.

Definition strip_sign (s : string) : bool * string :=
  match s with
  | String "-" s' => (true, s')
  | String "+" s' => (false, s')
  | _ => (false, s)
  end.

Definition strip_hex_prefix (s : string) : N * string :=
  match s with
  | String "0" (String "x" s') => (16%N, s')
  | String "0" (String "X" s') => (16%N, s')
  | _ => (10%N, s)
  end.

(** [parseInt(v)]: the number nearest to the integer that the leading
    digits denote, NaN when there are none.  (Beyond 20 significant decimal
    digits an engine may round in another way; such a number is at least
    [10^20] in any case.) *)
Definition parseInt (v : value) : number :=
  let '(neg, s1) := strip_sign (trim_start (ToString v)) in
  let '(radix, s2) := strip_hex_prefix s1 in
  match leading_digits radix s2 None with
  | Some n => double_of_int (if neg then - Z.of_N n else Z.of_N n)
  | None => NaN
  end.

(** *** [Date]

    A [Date] object holds a time value, milliseconds since the epoch in UTC,
    or is an Invalid Date ([None]). *)
Definition date : Type := option Z.

Definition msPerDay : Z := 86400000.
Definition msPerMinute : Z := 60000.

Definition TimeClip (t : Z) : date :=
  if Z.abs t <=? 8640000000000000 then Some t else None.

(** Year, month (1-12) and day of month of a day number (days since
    1970-01-01) in the proleptic Gregorian calendar, computed by eras of 400
    years; this is the calendar of [YearFromTime], [MonthFromTime] and
    [DateFromTime]. *)
Definition civil_from_days (day : Z) : Z * Z * Z :=
  let z := day + 719468 in
  let era := z / 146097 in
  let doe := z - era * 146097 in
  let yoe := (doe - doe / 1460 + doe / 36524 - doe / 146096) / 365 in
  let doy := doe - (365 * yoe + yoe / 4 - yoe / 100) in
  let mp := (5 * doy + 2) / 153 in
  let d := doy - (153 * mp + 2) / 5 + 1 in
  let m := if mp <? 10 then mp + 3 else mp - 9 in
  let y := yoe + era * 400 in
  ((if m <=? 2 then y + 1 else y), m, d).

(** The inverse direction ([MakeDay]). *)
Definition days_from_civil (y m d : Z) : Z :=
  let y' := if m <=? 2 then y - 1 else y in
  let era := y' / 400 in
  let yoe := y' - era * 400 in
  let doy := (153 * (if 2 <? m then m - 3 else m + 9) + 2) / 5 + d - 1 in
  let doe := yoe * 365 + yoe / 4 - yoe / 100 + doy in
  era * 146097 + doe - 719468.

(** [WeekDay]: 0 is Sunday; 1970-01-01 was a Thursday. *)
Definition week_day (day : Z) : Z := (day + 4) mod 7.

Definition week_day_name (w : Z) : string :=
  match w with
  | 0 => "Sun" | 1 => "Mon" | 2 => "Tue" | 3 => "Wed"
  | 4 => "Thu" | 5 => "Fri" | _ => "Sat"
  end.

Definition month_name (m : Z) : string :=
  match m with
  | 1 => "Jan" | 2 => "Feb" | 3 => "Mar" | 4 => "Apr" | 5 => "May"
  | 6 => "Jun" | 7 => "Jul" | 8 => "Aug" | 9 => "Sep" | 10 => "Oct"
  | 11 => "Nov" | _ => "Dec"
  end.

(** [ToZeroPaddedDecimalString(n, width)] for [n >= 0]. *)
Definition zero_padded (width : nat) (n : Z) : string :=
  let s := int_toString 10 n in
  String.concat "" (List.repeat "0" (width - String.length s)) ++ s.

(** [DateString] of a local day: weekday, month, day of month, year. *)
Definition date_string_of_day (day : Z) : string :=
  let '(y, m, d) := civil_from_days day in
  week_day_name (week_day day) ++ " " ++ month_name m ++ " " ++
  zero_padded 2 d ++ " " ++
  (if y <? 0 then "-" else "") ++ zero_padded 4 (Z.abs y).

Section LocalTime.

(** The offset of the server's time zone from UTC, in minutes east of
    Greenwich; a zone with a fixed offset. *)
Variable utc_offset : Z.

Definition LocalTime (t : Z) : Z := t + utc_offset * msPerMinute.

(** The local calendar day, as a day number, of a time value. *)
Definition local_day (t : Z) : Z := LocalTime t / msPerDay.

(** [d.toDateString()]. *)
Definition toDateString (d : date) : string :=
  match d with
  | Some t => date_string_of_day (local_day t)
  | None => "Invalid Date"
  end.

(** [new Date(year, month, day)]: local midnight of a calendar day. *)
Definition local_midnight (day : Z) : date :=
  TimeClip (day * msPerDay - utc_offset * msPerMinute).

End LocalTime.

(** The date-only form [YYYY-MM-DD] of the Date Time String Format, which
    [Date.parse] reads as midnight UTC.  This is the one input format whose
    meaning the language fixes; how an engine reads any other string enters
    the handlers as a parameter. *)
Definition two_digits (a b : ascii) : option Z :=
  match digit_value 10 a, digit_value 10 b with
  | Some x, Some y => Some (Z.of_N (x * 10 + y))
  | _, _ => None
  end.

Definition days_in_month (y m : Z) : Z :=
  days_from_civil (if m =? 12 then y + 1 else y) (if m =? 12 then 1 else m + 1) 1
  - days_from_civil y m 1.

Definition iso_date_parse (s : string) : option Z :=
  match s with
  | String y1 (String y2 (String y3 (String y4 (String "-"
      (String m1 (String m2 (String "-" (String d1 (String d2 EmptyString))))))))) =>
      match two_digits y1 y2, two_digits y3 y4, two_digits m1 m2, two_digits d1 d2 with
      | Some yh, Some yl, Some m, Some d =>
          let y := yh * 100 + yl in
          if (1 <=? m) && (m <=? 12) && (1 <=? d) && (d <=? days_in_month y m)
          then Some (days_from_civil y m d * msPerDay)
          else None
      | _, _, _, _ => None
      end
  | _ => None
  end.

End JS.

(* ================================================================= *)
(** ** The identifier generator (index.js, lines 54-58) *)

(** What one call of [generateObjectId] reads from its environment:
    [Date.now()] in milliseconds and the value of [Math.random()]. *)
Record entropy : Type := Entropy { id_now : Z; id_rnd : JS.dyadic }.

Definition generateObjectId (e : entropy) : string :=
  let timestamp := JS.int_toString 16 (id_now e / 1000) in
  let randomValue := JS.substr (JS.dyadic_toString16 (id_rnd e)) 2 16 in
  JS.substr (timestamp ++ randomValue) 0 24.

Definition one_half : JS.dyadic := JS.Dyadic 1 1.
Definition jan_1_2024_ms : Z := 1704067200000.

(* ================================================================= *)
(** ** PostgreSQL: the schema of lines 19-36 and its column types *)

(** [ORDER BY]: rows in ascending order of a key.  Rows with equal keys
    keep their table order here; the server may return them in any order,
    and the properties below rest only on the result being sorted and being
    a rearrangement of the rows selected. *)
Section OrderBy.
Context {A : Type} (leb : A -> A -> bool).

Fixpoint insert_row (x : A) (l : list A) : list A :=
  match l with
  | [] => [x]
  | y :: l' => if leb x y then x :: l else y :: insert_row x l'
  end.

Fixpoint order_by (l : list A) : list A :=
  match l with
  | [] => []
  | x :: l' => insert_row x (order_by l')
  end.
End OrderBy.

(** [LIMIT k]: the first [k] rows; [k] may exceed every list. *)
Fixpoint take {A} (k : N) (l : list A) : list A :=
  match l with
  | [] => []
  | x :: l' => if (k =? 0)%N then [] else x :: take (N.pred k) l'
  end.

Module PG.

Record user_row : Type := UserRow { u_id : string; u_username : string }.

Record exercise_row : Type := ExerciseRow {
  e_id : string;
  e_user_id : string;
  e_description : string;
  e_duration : Z;
  (** a [DATE] is a calendar day, held as a day number since 1970-01-01 *)
  e_date : Z
}.

(** Both tables exist (as after [initDatabase]); rows are in table order. *)
Record tables : Type := Tables {
  users : list user_row;
  exercises : list exercise_row
}.

(** A text value the server accepts holds no NUL character; a statement
    with another text parameter fails. *)
Fixpoint valid_text (s : string) : bool :=
  match s with
  | String c s' => negb (Ascii.eqb c zero) && valid_text s'
  | EmptyString => true
  end.

Fixpoint all_spaces (s : string) : bool :=
  match s with
  | String c s' => Ascii.eqb c " " && all_spaces s'
  | EmptyString => true
  end.

(** Assignment to a [VARCHAR(255)] column: a longer value is an error,
    unless all characters beyond the limit are spaces, which are cut off.
    A character is one [ascii] here. *)
Definition varchar255 (s : string) : option string :=
  if (String.length s <=? 255)%nat then Some s
  else if all_spaces (String.substring 255 (String.length s - 255) s)
       then Some (String.substring 0 255 s)
       else None.

(** Assignment to an [INTEGER] column: a 32-bit signed integer. *)
Definition integer (z : Z) : option Z :=
  if (- 2 ^ 31 <=? z) && (z <? 2 ^ 31) then Some z else None.

(** The earliest [DATE], 24 November 4714 BC (Julian day 0), as a day number.
    The latest one lies beyond every [Date] of JavaScript. *)
Definition min_date : Z := -2440588.

Definition has_user_id (id : string) (t : tables) : bool :=
  existsb (fun r => String.eqb (u_id r) id) (users t).

Definition has_username (name : string) (t : tables) : bool :=
  existsb (fun r => String.eqb (u_username r) name) (users t).

Definition has_exercise_id (id : string) (t : tables) : bool :=
  existsb (fun r => String.eqb (e_id r) id) (exercises t).

(** [SELECT ... FROM users WHERE username = $1]; [None] is a statement
    that fails. *)
Definition select_users_by_username (name : string) (t : tables)
  : option (list user_row) :=
  if valid_text name
  then Some (filter (fun r => String.eqb (u_username r) name) (users t))
  else None.

(** [SELECT ... FROM users WHERE _id = $1] *)
Definition select_users_by_id (id : string) (t : tables)
  : option (list user_row) :=
  if valid_text id
  then Some (filter (fun r => String.eqb (u_id r) id) (users t))
  else None.

(** [SELECT username, _id FROM users ORDER BY username]: the order is that
    of the collation of the database, [collate a b] when [a] is not after
    [b]. *)
Definition select_users_ordered (collate : string -> string -> bool)
    (t : tables) : list user_row :=
  order_by (fun a b => collate (u_username a) (u_username b)) (users t).

(** [INSERT INTO users (_id, username) VALUES ($1, $2) RETURNING ...]:
    [_id] is the primary key, [username] is [UNIQUE NOT NULL]; [None] is a
    statement that fails.  The result is the returned row and the new
    tables. *)
Definition insert_user (id : string) (name : option string) (t : tables)
  : option (list user_row * tables) :=
  match name with
  | Some name' =>
      if valid_text id && valid_text name' then
        match varchar255 id, varchar255 name' with
        | Some i, Some n =>
            if has_user_id i t || has_username n t then None
            else let r := UserRow i n in
                 Some ([r], Tables (users t ++ [r])%list (exercises t))
        | _, _ => None
        end
      else None
  | None => None
  end.

(** [INSERT INTO exercises (_id, user_id, description, duration, date)
    VALUES ($1, $2, $3, $4, $5) RETURNING *]: [_id] is the primary key,
    [user_id] references [users(_id)], every column is [NOT NULL]. *)
Definition insert_exercise (id user_id : string) (description : option string)
    (duration date : option Z) (t : tables)
  : option (list exercise_row * tables) :=
  match varchar255 id, varchar255 user_id, description, duration, date with
  | Some i, Some u, Some d, Some n, Some day =>
      if valid_text id && valid_text user_id && valid_text d then
        if has_exercise_id i t || negb (has_user_id u t) then None
        else let r := ExerciseRow i u d n day in
             Some ([r], Tables (users t) (exercises t ++ [r])%list)
      else None
  | _, _, _, _, _ => None
  end.

End PG.

(* ================================================================= *)
(** ** node-postgres: parameters and results of [client.query] *)

(** A parameter value as the handlers pass it. *)
Inductive param : Type :=
  | PString (s : string)
  | PDate (d : JS.date)
  | PNumber (n : JS.number).

Section Driver.

(** The server's offset from UTC in minutes; the client is created with
    its defaults (lines 7-13), so dates travel in local time. *)
Variable utc_offset : Z.

(** A request value as a text parameter; [null] and [undefined] are sent
    as SQL NULL ([None]), any other value as its string. *)
Definition text_param (v : JS.value) : option string :=
  match v with
  | JS.JUndefined | JS.JNull => None
  | _ => Some (JS.ToString v)
  end.

(** The integer the server reads from the text of a number parameter: the
    digits that [Number::toString] prints.  The texts of NaN and of the
    infinities, and the notation with an exponent, are no integers. *)
Definition integer_text (x : JS.number) : option Z :=
  match x with
  | JS.Finite z =>
      let c := JS.shortest (Z.abs z) in
      if c <? 10 ^ 21 then Some (if z <? 0 then - c else c) else None
  | _ => None
  end.

(** A number for an [INTEGER] column. *)
Definition integer_param (x : JS.number) : option Z :=
  match integer_text x with
  | Some z => PG.integer z
  | None => None
  end.

(** A [Date] for a [DATE] column or a comparison with one.  The driver
    writes the local date and time of the [Date] with the zone offset;
    the server keeps the calendar date written there.  An Invalid Date
    gives a text that is no date. *)
Definition date_param (d : JS.date) : option Z :=
  match d with
  | Some t =>
      let day := JS.local_day utc_offset t in
      if PG.min_date <=? day then Some day else None
  | None => None
  end.

(** A [DATE] in a result row: the [Date] of local midnight of that day. *)
Definition date_result (day : Z) : JS.date :=
  JS.local_midnight utc_offset day.

(** The count of [LIMIT $n], a [bigint]: a text that is no integer, a
    negative count and a count from [2^63] on are errors. *)
Definition limit_param (x : JS.number) : option N :=
  match integer_text x with
  | Some z => if (0 <=? z) && (z <? 2 ^ 63) then Some (Z.to_N z) else None
  | None => None
  end.

(** *** The statement of the log route (lines 180-201)

    The handler appends clauses to the text and pushes their parameters;
    [clauses] is the same text read as SQL, each placeholder [$n] with
    its number. *)
Inductive clause : Type :=
  | DateGe (n : nat)      (* [ AND date >= $n] *)
  | DateLe (n : nat)      (* [ AND date <= $n] *)
  | OrderByDate           (* [ ORDER BY date] *)
  | Limit (n : nat).      (* [ LIMIT $n] *)

Record statement : Type := Statement {
  text : string;
  clauses : list clause;
  params : list param
}.

Definition placeholder (n : nat) : string :=
  "$" ++ JS.int_toString 10 (Z.of_nat n).

Definition clause_text (c : clause) : string :=
  match c with
  | DateGe n => " AND date >= " ++ placeholder n
  | DateLe n => " AND date <= " ++ placeholder n
  | OrderByDate => " ORDER BY date"
  | Limit n => " LIMIT " ++ placeholder n
  end.

(** [query += ...] *)
Definition append_clause (c : clause) (q : statement) : statement :=
  Statement (text q ++ clause_text c) (clauses q ++ [c])%list (params q).

(** [params.push(...)] *)
Definition push_param (p : param) (q : statement) : statement :=
  Statement (text q) (clauses q) (params q ++ [p])%list.

(** The parameter bound to [$n]. *)
Definition bound (q : statement) (n : nat) : option param :=
  match n with
  | O => None
  | S k => nth_error (params q) k
  end.

Definition by_date (a b : PG.exercise_row) : bool :=
  PG.e_date a <=? PG.e_date b.

(** One clause applied to the rows selected so far.  The handler binds a
    [Date] to a date comparison and a number to [LIMIT]; a placeholder
    without a parameter, or with one of another kind, fails. *)
Definition apply_clause (q : statement) (c : clause)
    (rows : list PG.exercise_row) : option (list PG.exercise_row) :=
  match c with
  | DateGe n =>
      match bound q n with
      | Some (PDate d) =>
          option_map (fun day => filter (fun r => day <=? PG.e_date r) rows)
                     (date_param d)
      | _ => None
      end
  | DateLe n =>
      match bound q n with
      | Some (PDate d) =>
          option_map (fun day => filter (fun r => PG.e_date r <=? day) rows)
                     (date_param d)
      | _ => None
      end
  | OrderByDate => Some (order_by by_date rows)
  | Limit n =>
      match bound q n with
      | Some (PNumber k) =>
          option_map (fun k' => take k' rows) (limit_param k)
      | _ => None
      end
  end.

Fixpoint apply_clauses (q : statement) (cs : list clause)
    (rows : list PG.exercise_row) : option (list PG.exercise_row) :=
  match cs with
  | [] => Some rows
  | c :: cs' =>
      match apply_clause q c rows with
      | Some rows' => apply_clauses q cs' rows'
      | None => None
      end
  end.

(** [SELECT description, duration, date FROM exercises WHERE user_id = $1]
    followed by the clauses of [q]. *)
Definition select_exercises (q : statement) (t : PG.tables)
  : option (list PG.exercise_row) :=
  match bound q 1 with
  | Some (PString uid) =>
      if PG.valid_text uid then
        apply_clauses q (clauses q)
          (filter (fun r => String.eqb (PG.e_user_id r) uid) (PG.exercises t))
      else None
  | _ => None
  end.

End Driver.

(* ================================================================= *)
(** ** The server: store, queries and responses *)

(** The store: the tables, and the text of every statement the server has
    sent, oldest first. *)
Record store : Type := Store {
  db : PG.tables;
  sent : list string
}.

(** A computation that awaits queries: it ends with a value or throws
    ([None]), and leaves a store either way. *)
Definition Q (A : Type) : Type := store -> option A * store.

Definition ret {A} (a : A) : Q A := fun s => (Some a, s).

Definition throw {A} : Q A := fun s => (None, s).

Definition bind {A B} (m : Q A) (k : A -> Q B) : Q B :=
  fun s =>
    match m s with
    | (Some a, s') => k a s'
    | (None, s') => (None, s')
    end.

Notation "x <- m ;; k" := (bind m (fun x => k))
  (at level 61, m at next level, right associativity).

(** [await client.query(text, ...)] for a statement that changes the tables:
    the promise is rejected when the statement fails. *)
Definition client_query {A} (text : string)
    (run : PG.tables -> option (A * PG.tables)) : Q A :=
  fun s =>
    let sent' := (sent s ++ [text])%list in
    match run (db s) with
    | Some (a, t') => (Some a, Store t' sent')
    | None => (None, Store (db s) sent')
    end.

(** The same for a [SELECT]. *)
Definition client_select {A} (text : string)
    (run : PG.tables -> option A) : Q A :=
  client_query text (fun t => option_map (fun a => (a, t)) (run t)).

(** [rows[0]] followed by a property access, which throws on [undefined]. *)
Definition first_row {A} (rows : list A) : Q A :=
  match rows with
  | r :: _ => ret r
  | [] => throw
  end.

(** JSON bodies; an object lists its fields in the order they are written. *)
Unset Elimination Schemes.
Inductive json : Type :=
  | jstring (s : string)
  | jnumber (z : Z)
  | jarray (l : list json)
  | jobject (fields : list (string * json)).
Set Elimination Schemes.

Record response : Type := Response { status : Z; body : json }.

(** [res.json(b)] and [res.status(c).json(b)]. *)
Definition res_json (b : json) : response := Response 200 b.
Definition res_status_json (c : Z) (b : json) : response := Response c b.

Definition error_body (msg : string) : json := jobject [("error", jstring msg)].

(** [try { ... } catch (err) { res.status(500).json({ error: 'Server error' }) }] *)
Definition try_catch (m : Q response) : store -> response * store :=
  fun s =>
    match m s with
    | (Some r, s') => (r, s')
    | (None, s') => (res_status_json 500 (error_body "Server error"), s')
    end.

(** The value of a field of a JSON object. *)
Fixpoint assoc (k : string) (fields : list (string * json)) : option json :=
  match fields with
  | (k', v) :: rest => if String.eqb k k' then Some v else assoc k rest
  | [] => None
  end.

Definition field (k : string) (j : json) : option json :=
  match j with
  | jobject fields => assoc k fields
  | _ => None
  end.

Definition field_names (j : json) : list string :=
  match j with
  | jobject fields => map fst fields
  | _ => []
  end.

(* ================================================================= *)
(** ** The route handlers *)

Section Handlers.

(** The server's time zone, as an offset from UTC in minutes. *)
Variable utc_offset : Z.

(** [Date.parse] of the engine: the time value a string denotes, [None]
    for NaN.  Only the Date Time String Format is fixed by the language
    ([JS.iso_date_parse] implements its date-only form). *)
Variable Date_parse : string -> option Z.

(** The collation of the database, which orders the user names:
    [collate a b] when [a] is not after [b]. *)
Variable collate : string -> string -> bool.

(** [new Date(v)] for a request value. *)
Definition new_Date (v : JS.value) : JS.date :=
  match v with
  | JS.JStr s =>
      match Date_parse s with
      | Some t => JS.TimeClip t
      | None => None
      end
  | JS.JNum z =>
      match JS.double_of_int z with
      | JS.Finite d => JS.TimeClip d
      | _ => None
      end
  | JS.JBool b => JS.TimeClip (if b then 1 else 0)
  | JS.JNull => JS.TimeClip 0
  | JS.JUndefined => None
  end.

(** [new Date(d)] for a [Date] object [d]. *)
Definition copy_Date (d : JS.date) : JS.date :=
  match d with
  | Some t => JS.TimeClip t
  | None => None
  end.

(** A row of [users] as the driver returns it for [SELECT username, _id]. *)
Definition user_json (r : PG.user_row) : json :=
  jobject [("username", jstring (PG.u_username r));
           ("_id", jstring (PG.u_id r))].

(** [POST /api/users] (lines 72-111). *)
Definition post_users (username : JS.value) (e : entropy)
  : store -> response * store :=
  if negb (JS.truthy username) then
    fun s => (res_status_json 400 (error_body "Username is required"), s)
  else
    try_catch (
      existingUser <-
        client_select "SELECT username, _id FROM users WHERE username = $1"
          (fun t => match text_param username with
                    | Some n => PG.select_users_by_username n t
                    | None => Some []
                    end) ;;
      match existingUser with
      | r :: _ => ret (res_json (user_json r))
      | [] =>
          let userId := generateObjectId e in
          result <-
            client_query
              "INSERT INTO users (_id, username) VALUES ($1, $2) RETURNING username, _id"
              (PG.insert_user userId (text_param username)) ;;
          user <- first_row result ;;
          ret (res_json (user_json user))
      end).

(** [GET /api/users] (lines 114-122). *)
Definition get_users : store -> response * store :=
  try_catch (
    result <-
      client_select "SELECT username, _id FROM users ORDER BY username"
        (fun t => Some (PG.select_users_ordered collate t)) ;;
    ret (res_json (jarray (map user_json result)))).

(** The rendering of a [DATE] column of a result row:
    [new Date(exercise.date).toDateString()]. *)
Definition render_date (day : Z) : string :=
  JS.toDateString utc_offset (copy_Date (date_result utc_offset day)).

(** [POST /api/users/:_id/exercises] (lines 125-164).  [now] is the clock
    read by [new Date()], which holds a time value; [e] is what
    [generateObjectId] reads. *)
Definition post_exercise (userId : string)
    (description duration date : JS.value) (now : Z) (e : entropy)
  : store -> response * store :=
  if negb (JS.truthy description) || negb (JS.truthy duration) then
    fun s => (res_status_json 400
                (error_body "Description and duration are required"), s)
  else
    let exerciseDate :=
      if JS.truthy date then new_Date date else JS.TimeClip now in
    try_catch (
      userResult <-
        client_select "SELECT * FROM users WHERE _id = $1"
          (PG.select_users_by_id userId) ;;
      match userResult with
      | [] => ret (res_status_json 404 (error_body "User not found"))
      | user :: _ =>
          let exerciseId := generateObjectId e in
          exerciseResult <-
            client_query
              "INSERT INTO exercises (_id, user_id, description, duration, date) VALUES ($1, $2, $3, $4, $5) RETURNING *"
              (PG.insert_exercise exerciseId userId (text_param description)
                 (integer_param (JS.parseInt duration))
                 (date_param utc_offset exerciseDate)) ;;
          exercise <- first_row exerciseResult ;;
          ret (res_json (jobject
                 [("_id", jstring (PG.u_id user));
                  ("username", jstring (PG.u_username user));
                  ("date", jstring (render_date (PG.e_date exercise)));
                  ("duration", jnumber (PG.e_duration exercise));
                  ("description", jstring (PG.e_description exercise))]))
      end).

(** The statement of the log route with its parameters (lines 180-201);
    the second component of each step is [paramIndex]. *)
Definition logs_statement (userId : string) (from to limit : JS.value)
  : statement :=
  let query :=
    Statement
      "SELECT description, duration, date FROM exercises WHERE user_id = $1"
      [] [PString userId] in
  let paramIndex := 2%nat in
  let '(query, paramIndex) :=
    if JS.truthy from
    then (push_param (PDate (new_Date from))
            (append_clause (DateGe paramIndex) query), S paramIndex)
    else (query, paramIndex) in
  let '(query, paramIndex) :=
    if JS.truthy to
    then (push_param (PDate (new_Date to))
            (append_clause (DateLe paramIndex) query), S paramIndex)
    else (query, paramIndex) in
  let query := append_clause OrderByDate query in
  if JS.truthy limit
  then push_param (PNumber (JS.parseInt limit))
         (append_clause (Limit paramIndex) query)
  else query.

(** An entry of the log (lines 205-209). *)
Definition log_entry (exercise : PG.exercise_row) : json :=
  jobject [("description", jstring (PG.e_description exercise));
           ("duration", jnumber (PG.e_duration exercise));
           ("date", jstring (render_date (PG.e_date exercise)))].

(** The body of a successful log response (lines 212-217). *)
Definition log_body (user : PG.user_row) (rows : list PG.exercise_row) : json :=
  let log := map log_entry rows in
  jobject [("_id", jstring (PG.u_id user));
           ("username", jstring (PG.u_username user));
           ("count", jnumber (Z.of_nat (List.length log)));
           ("log", jarray log)].

(** [GET /api/users/:_id/logs] (lines 167-222); [from], [to] and [limit]
    are the fields of [req.query]. *)
Definition get_logs (userId : string) (from to limit : JS.value)
  : store -> response * store :=
  try_catch (
    userResult <-
      client_select "SELECT _id, username FROM users WHERE _id = $1"
        (PG.select_users_by_id userId) ;;
    match userResult with
    | [] => ret (res_status_json 404 (error_body "User not found"))
    | user :: _ =>
        let query := logs_statement userId from to limit in
        exercisesResult <-
          client_select (text query) (select_exercises utc_offset query) ;;
        ret (res_json (log_body user exercisesResult))
    end).

(** [initDatabase] (lines 39-49): the two [CREATE TABLE IF NOT EXISTS]
    statements; an error is logged and not thrown again.  In this model a
    table always exists, possibly empty, so the statements change nothing. *)
Definition initDatabase : Q unit :=
  fun s =>
    match (_ <- client_query "CREATE TABLE IF NOT EXISTS users"
                  (fun t => Some (tt, t)) ;;
           client_query "CREATE TABLE IF NOT EXISTS exercises"
             (fun t => Some (tt, t))) s with
    | (_, s') => (Some tt, s')
    end.

(** [GET /api/reset] (lines 225-235): both tables are dropped and created
    again by [initDatabase]. *)
Definition get_reset : store -> response * store :=
  try_catch (
    _ <- client_query "DROP TABLE IF EXISTS exercises CASCADE"
           (fun t => Some (tt, PG.Tables (PG.users t) [])) ;;
    _ <- client_query "DROP TABLE IF EXISTS users CASCADE"
           (fun t => Some (tt, PG.Tables [] (PG.exercises t))) ;;
    _ <- initDatabase ;;
    ret (res_json (jobject [("message", jstring "Database reset successfully")]))).

End Handlers.

(* ================================================================= *)
(** ** The log query as a data access operation

    [listExercises(userId, from?, to?, limit?)]: the exercises of a user
    between two inclusive date bounds, in ascending order of date, at most
    [limit] of them.  The statement the log route builds is compared with
    this function below. *)

Definition exercises_of (userId : string) (t : PG.tables) : list PG.exercise_row :=
  filter (fun r => String.eqb (PG.e_user_id r) userId) (PG.exercises t).

Definition in_range (lo hi : option Z) (r : PG.exercise_row) : bool :=
  match lo with Some d => d <=? PG.e_date r | None => true end &&
  match hi with Some d => PG.e_date r <=? d | None => true end.

Definition cap {A} (limit : option N) (l : list A) : list A :=
  match limit with
  | Some k => take k l
  | None => l
  end.

Definition listExercises (userId : string) (from to : option Z)
    (limit : option N) (t : PG.tables) : list PG.exercise_row :=
  cap limit (order_by by_date (filter (in_range from to) (exercises_of userId t))).

Definition date_le (a b : PG.exercise_row) : Prop := PG.e_date a <= PG.e_date b.

Section QueryFields.
Variable utc_offset : Z.
Variable Date_parse : string -> option Z.

(** What a [from] or [to] field of the query string asks for: no bound
    when the field is absent or empty ([Some None]), the calendar day its
    [Date] is sent as ([Some (Some day)]), or a statement that fails
    ([None]). *)
Definition date_bound (v : JS.value) : option (option Z) :=
  if JS.truthy v
  then option_map Some (date_param utc_offset (new_Date Date_parse v))
  else Some None.

(** The same for [limit]. *)
Definition row_limit (v : JS.value) : option (option N) :=
  if JS.truthy v
  then option_map Some (limit_param (JS.parseInt v))
  else Some None.
End QueryFields.

(* ================================================================= *)
(** ** Table states and sample data *)

(** A user with this [_id] is in the table. *)
Definition registered (userId : string) (t : PG.tables) : Prop :=
  exists u, In u (PG.users t) /\ PG.u_id u = userId.

(** A day the server can have stored in a [DATE] column: not before the
    earliest date, and local midnight of it is a time value. *)
Definition storable_day (utc_offset day : Z) : Prop :=
  PG.min_date <= day /\
  day * JS.msPerDay - utc_offset * JS.msPerMinute <= 8640000000000000.

Definition empty_store : store := Store (PG.Tables [] []) [].

Definition alice : PG.user_row := PG.UserRow "659200808" "alice".

Definition run_jan_01 : PG.exercise_row :=
  PG.ExerciseRow "6592008001" "659200808" "run" 30 (JS.days_from_civil 2024 1 1).
Definition swim_jan_15 : PG.exercise_row :=
  PG.ExerciseRow "6592008002" "659200808" "swim" 45 (JS.days_from_civil 2024 1 15).
Definition walk_feb_01 : PG.exercise_row :=
  PG.ExerciseRow "6592008003" "659200808" "walk" 20 (JS.days_from_civil 2024 2 1).

(** One user with three exercises, inserted out of date order. *)
Definition sample_store : store :=
  Store (PG.Tables [alice] [walk_feb_01; run_jan_01; swim_jan_15]) [].

(** A server five hours west of Greenwich. *)
Definition utc_minus_5 : Z := -300.

(** Powers of two, for counting the bits of a fraction. *)
Definition pow2 (j : nat) : N := 2 ^ N.of_nat j.

(** The two statements of create-user. *)
Definition select_by_username_text : string :=
  "SELECT username, _id FROM users WHERE username = $1".
Definition insert_user_text : string :=
  "INSERT INTO users (_id, username) VALUES ($1, $2) RETURNING username, _id".

(** A user name of 256 characters. *)
Definition long_name : string := String.concat "" (List.repeat "a" 256).

(** A random value with all 53 bits of a double set. *)
Definition all_bits : JS.dyadic := JS.Dyadic (2 ^ 53 - 1) 53.

(** A later reading of the clock and of the random source. *)
Definition later : entropy := Entropy 1704067260000 (JS.Dyadic 3 2).

(** On that server, a user adds an exercise without a date at noon local
    time on 9 January 2024 (17:00 UTC). *)
Definition jan_9_noon_west_ms : Z := 1704819600000.

Definition west_store : store :=
  snd (post_exercise utc_minus_5 JS.iso_date_parse "659200808"
         (JS.JStr "walk") (JS.JNum 20) JS.JUndefined jan_9_noon_west_ms
         (Entropy jan_9_noon_west_ms one_half)
         (Store (PG.Tables [alice] []) [])).

(* ================================================================= *)
(** ** Requests, routing and the constraints of the schema *)

(** A request to one of the five API routes (lines 72, 114, 125, 167 and
    225), together with what its handler reads from the clock and from the
    random source. *)
Inductive request : Type :=
  | PostUsers (username : JS.value) (e : entropy)
  | GetUsers
  | PostExercise (userId : string) (description duration date : JS.value)
      (now : Z) (e : entropy)
  | GetLogs (userId : string) (from to limit : JS.value)
  | GetReset.

(** The handler a request is routed to. *)
Definition handle (utc_offset : Z) (Date_parse : string -> option Z)
    (collate : string -> string -> bool) (r : request)
  : store -> response * store :=
  match r with
  | PostUsers username e => post_users username e
  | GetUsers => get_users collate
  | PostExercise userId description duration date now e =>
      post_exercise utc_offset Date_parse userId description duration date now e
  | GetLogs userId from to limit =>
      get_logs utc_offset Date_parse userId from to limit
  | GetReset => get_reset
  end.

(** The states the server reaches from empty tables, request by request. *)
Inductive reachable (utc_offset : Z) (Date_parse : string -> option Z)
    (collate : string -> string -> bool) : store -> Prop :=
  | reachable_start : reachable utc_offset Date_parse collate empty_store
  | reachable_step (s : store) (r : request) :
      reachable utc_offset Date_parse collate s ->
      reachable utc_offset Date_parse collate
        (snd (handle utc_offset Date_parse collate r s)).

(** The constraints declared in lines 19-36: the two primary keys, the
    unique user names, the reference from an exercise to its user, and the
    types of the columns; a text column holds no NUL character. *)
Record schema_ok (t : PG.tables) : Prop := SchemaOk {
  users_pk : NoDup (map PG.u_id (PG.users t));
  users_unique : NoDup (map PG.u_username (PG.users t));
  exercises_pk : NoDup (map PG.e_id (PG.exercises t));
  users_columns :
    Forall (fun u => (String.length (PG.u_id u) <= 255)%nat /\
                     (String.length (PG.u_username u) <= 255)%nat)
           (PG.users t);
  exercises_fk :
    Forall (fun x => PG.has_user_id (PG.e_user_id x) t = true) (PG.exercises t);
  exercises_columns :
    Forall (fun x => (String.length (PG.e_id x) <= 255)%nat /\
                     - 2 ^ 31 <= PG.e_duration x < 2 ^ 31 /\
                     PG.min_date <= PG.e_date x)
           (PG.exercises t);
  users_text :
    Forall (fun u => PG.valid_text (PG.u_id u) = true /\
                     PG.valid_text (PG.u_username u) = true)
           (PG.users t);
  exercises_text :
    Forall (fun x => PG.valid_text (PG.e_id x) = true /\
                     PG.valid_text (PG.e_user_id x) = true /\
                     PG.valid_text (PG.e_description x) = true)
           (PG.exercises t)
}.

(** The order of [ORDER BY username] under a collation. *)
Definition by_username (collate : string -> string -> bool)
    (a b : PG.user_row) : Prop :=
  collate (PG.u_username a) (PG.u_username b) = true.

(** The number of the placeholder a clause of the log statement holds. *)
Definition clause_placeholder (c : clause) : option nat :=
  match c with
  | DateGe n | DateLe n | Limit n => Some n
  | OrderByDate => None
  end.

Fixpoint placeholders (cs : list clause) : list nat :=
  match cs with
  | [] => []
  | c :: cs' =>
      match clause_placeholder c with
      | Some n => n :: placeholders cs'
      | None => placeholders cs'
      end
  end.

(** The fields of the query string that are supplied, counted. *)
Definition supplied (v : JS.value) : nat := if JS.truthy v then 1%nat else 0%nat.

(* ================================================================= *)
(** ** Properties of the built-ins *)

Lemma substring_length_le (n m : nat) (s : string) :
  (String.length (String.substring n m s) <= m)%nat.
Proof.
  revert n m; induction s as [|c s IH]; intros [|n] [|m]; simpl; try lia.
  - specialize (IH 0%nat m). lia.
  - apply (IH n 0%nat).
  - apply (IH n (S m)).
Qed.

(** An identifier never has more than 24 characters. *)
Lemma generateObjectId_length (e : entropy) :
  (String.length (generateObjectId e) <= 24)%nat.
Proof. apply substring_length_le. Qed.

Lemma varchar255_short (s : string) :
  (String.length s <= 255)%nat -> PG.varchar255 s = Some s.
Proof.
  intros H. unfold PG.varchar255.
  destruct (Nat.leb_spec (String.length s) 255); [reflexivity | lia].
Qed.

Lemma varchar255_generateObjectId (e : entropy) :
  PG.varchar255 (generateObjectId e) = Some (generateObjectId e).
Proof.
  apply varchar255_short. pose proof (generateObjectId_length e). lia.
Qed.

Lemma digit_char_hex (d : N) : JS.is_hex_digit (JS.digit_char d) = true.
Proof.
  unfold JS.digit_char.
  repeat match goal with
         | |- context [match ?x with _ => _ end] => destruct x
         end; reflexivity.
Qed.

Lemma all_chars_app p (a b : string) :
  JS.all_chars p (a ++ b) = JS.all_chars p a && JS.all_chars p b.
Proof.
  induction a as [|c a IH]; simpl; [reflexivity|].
  now rewrite IH, andb_assoc.
Qed.

Lemma all_chars_substring p (n m : nat) (s : string) :
  JS.all_chars p s = true -> JS.all_chars p (String.substring n m s) = true.
Proof.
  revert n m; induction s as [|c s IH]; intros [|n] [|m]; simpl; auto.
  - intros H. apply andb_prop in H. destruct H as [-> H]. now apply IH.
  - intros H. apply andb_prop in H. destruct H as [_ H]. now apply IH.
  - intros H. apply andb_prop in H. destruct H as [_ H]. now apply IH.
Qed.

Lemma int_digits_hex fuel radix n acc :
  JS.all_chars JS.is_hex_digit acc = true ->
  JS.all_chars JS.is_hex_digit (JS.int_digits fuel radix n acc) = true.
Proof.
  revert n acc; induction fuel as [|fuel IH]; intros n acc Hacc; simpl;
    [exact Hacc|].
  destruct (n / radix =? 0)%N.
  - simpl. now rewrite digit_char_hex.
  - apply IH. simpl. now rewrite digit_char_hex.
Qed.

Lemma frac_digits_hex fuel radix r den :
  JS.all_chars JS.is_hex_digit (JS.frac_digits fuel radix r den) = true.
Proof.
  revert r; induction fuel as [|fuel IH]; intros r; simpl; [reflexivity|].
  destruct (r =? 0)%N; [reflexivity|].
  simpl. now rewrite digit_char_hex, IH.
Qed.

(** The part of the contract of the generator that the code keeps: at a time
    not before the epoch, with a random value in the unit interval, the
    identifier consists of lowercase hexadecimal characters only. *)
Lemma generateObjectId_hex (e : entropy) :
  0 <= id_now e ->
  JS.in_unit_interval (id_rnd e) ->
  JS.all_chars JS.is_hex_digit (generateObjectId e) = true.
Proof.
  intros Hnow Hrnd. unfold generateObjectId, JS.substr.
  apply all_chars_substring. rewrite all_chars_app.
  apply andb_true_intro. split.
  - unfold JS.int_toString.
    destruct (Z.ltb_spec (id_now e / 1000) 0) as [Hneg|_].
    + pose proof (Z.div_pos (id_now e) 1000 Hnow ltac:(lia)). lia.
    + now apply int_digits_hex.
  - unfold JS.dyadic_toString16. unfold JS.in_unit_interval in Hrnd.
    rewrite (N.div_small _ _ Hrnd), (N.mod_small _ _ Hrnd).
    change (JS.nat_toString 16 0) with "0".
    destruct (JS.mant (id_rnd e) =? 0)%N; [reflexivity|].
    cbn [append String.substring].
    apply all_chars_substring, frac_digits_hex.
Qed.

Lemma substring_length_le_string (n m : nat) (s : string) :
  (String.length (String.substring n m s) <= String.length s - n)%nat.
Proof.
  revert n m; induction s as [|c s IH]; intros [|n] [|m]; simpl; try lia.
  - specialize (IH 0%nat m). lia.
  - apply (IH n 0%nat).
  - apply (IH n (S m)).
Qed.

Lemma append_length (a b : string) :
  String.length (a ++ b) = (String.length a + String.length b)%nat.
Proof. induction a as [|c a IH]; simpl; [reflexivity | now rewrite IH]. Qed.

(** A number below [16^k] has at most [k] hexadecimal digits. *)
Lemma int_digits_length fuel n acc (k : nat) :
  (1 <= k)%nat ->
  (n < 16 ^ N.of_nat k)%N ->
  (String.length (JS.int_digits fuel 16 n acc) <= String.length acc + k)%nat.
Proof.
  revert n acc k; induction fuel as [|fuel IH]; intros n acc k Hk Hn; simpl;
    [lia|].
  destruct (N.eqb_spec (n / 16) 0) as [Hq|Hq]; simpl; [lia|].
  destruct k as [|[|k]]; [lia| |].
  - exfalso. apply Hq. apply N.div_small. exact Hn.
  - specialize (IH (n / 16)%N (String (JS.digit_char (n mod 16)) acc) (S k)).
    simpl in IH. etransitivity; [apply IH|]; try lia.
    apply N.Div0.div_lt_upper_bound.
    replace (N.of_nat (S (S k))) with (N.succ (N.of_nat (S k))) in Hn by lia.
    now rewrite N.pow_succ_r' in Hn.
Qed.

Lemma pow2_add a b : pow2 (a + b) = (pow2 a * pow2 b)%N.
Proof. unfold pow2. now rewrite Nat2N.inj_add, N.pow_add_r. Qed.

Lemma pow2_divide a b : (a <= b)%nat -> N.divide (pow2 a) (pow2 b).
Proof.
  intros H. replace b with ((b - a) + a)%nat by lia.
  rewrite pow2_add. now exists (pow2 (b - a)).
Qed.

Lemma frac_digits_zero fuel radix den :
  JS.frac_digits fuel radix 0 den = "".
Proof. destruct fuel; reflexivity. Qed.

(** A fraction [r / 2^b] whose numerator is a multiple of [2^(b - 4n)] has
    at most [n] hexadecimal digits. *)
Lemma frac_digits_length fuel (b n : nat) r :
  N.divide (pow2 (b - 4 * n)) r ->
  (r < pow2 b)%N ->
  (String.length (JS.frac_digits fuel 16 r (pow2 b)) <= n)%nat.
Proof.
  revert fuel r; induction n as [|n IH]; intros fuel r Hdiv Hlt.
  - replace (b - 4 * 0)%nat with b in Hdiv by lia.
    destruct Hdiv as [c ->].
    assert (c = 0%N) by (destruct c; [reflexivity | nia]).
    subst c. now rewrite N.mul_0_l, frac_digits_zero.
  - destruct fuel as [|fuel]; simpl; [lia|].
    destruct (r =? 0)%N; simpl; [lia|].
    apply le_n_S, IH.
    + assert (Hp : pow2 b <> 0%N) by (unfold pow2; apply N.pow_nonzero; lia).
      rewrite (N.Div0.mod_eq (r * 16) (pow2 b)).
      apply N.divide_sub_r.
      * apply (N.divide_trans _ (pow2 (b - 4 * S n) * 16)).
        -- change 16%N with (pow2 4). rewrite <- pow2_add.
           apply pow2_divide. lia.
        -- now apply N.mul_divide_mono_r.
      * apply N.divide_mul_l, pow2_divide. lia.
    + apply N.mod_lt. unfold pow2. apply N.pow_nonzero. lia.
Qed.

(** With a random value that is a multiple of [2^-53], as a generator that
    draws 53 random bits returns, the identifier is shorter than 24
    characters at every time from the epoch on for more than two thousand
    years. *)
Lemma generateObjectId_too_short (e : entropy) :
  0 <= id_now e / 1000 < 16 ^ 9 ->
  JS.in_unit_interval (id_rnd e) ->
  (JS.bexp (id_rnd e) <= 53)%nat ->
  (String.length (generateObjectId e) < 24)%nat.
Proof.
  intros Hnow Hrnd Hb. unfold generateObjectId, JS.substr.
  pose proof (substring_length_le_string 0 24
    (JS.int_toString 16 (id_now e / 1000) ++
     String.substring 2 16 (JS.dyadic_toString16 (id_rnd e)))) as Hlen.
  rewrite append_length in Hlen.
  assert (Ht : (String.length (JS.int_toString 16 (id_now e / 1000)) <= 9)%nat).
  { unfold JS.int_toString.
    destruct (Z.ltb_spec (id_now e / 1000) 0); [lia|].
    unfold JS.nat_toString.
    apply (int_digits_length _ _ "" 9); [lia|].
    change (16 ^ N.of_nat 9)%N with (Z.to_N (16 ^ 9)). lia. }
  assert (Hr : (String.length
                  (String.substring 2 16 (JS.dyadic_toString16 (id_rnd e)))
                <= 14)%nat).
  { unfold JS.dyadic_toString16. unfold JS.in_unit_interval in Hrnd.
    rewrite (N.div_small _ _ Hrnd), (N.mod_small _ _ Hrnd).
    change (JS.nat_toString 16 0) with "0".
    destruct (JS.mant (id_rnd e) =? 0)%N; [simpl; lia|].
    cbn [append String.substring].
    etransitivity; [apply substring_length_le_string|].
    pose proof (frac_digits_length (JS.bexp (id_rnd e)) (JS.bexp (id_rnd e)) 14
                  (JS.mant (id_rnd e))) as H.
    unfold pow2 at 2 3 in H.
    replace (JS.bexp (id_rnd e) - 4 * 14)%nat with 0%nat in H by lia.
    specialize (H (N.divide_1_l _) Hrnd). lia. }
  lia.
Qed.

(* ================================================================= *)
(* ================================================================= *)
(** ** Numbers: rounding to a double and printing *)

Lemma round53_small (z : Z) : z < 2 ^ 53 -> JS.round53 z = z.
Proof.
  intros H. unfold JS.round53.
  destruct (Z.ltb_spec (Z.log2 z) 53) as [|Hb]; [reflexivity|].
  exfalso.
  destruct (Z.le_gt_cases z 0) as [Hz|Hz].
  - rewrite (Z.log2_nonpos z Hz) in Hb. lia.
  - apply (Z.log2_lt_pow2 z 53 Hz) in H. lia.
Qed.

Lemma round53_bounds (z : Z) :
  0 < z -> 2 ^ Z.log2 z <= JS.round53 z <= 2 ^ (Z.log2 z + 1).
Proof.
  intros Hz.
  destruct (Z.log2_spec z Hz) as [Hlo Hhi].
  replace (Z.succ (Z.log2 z)) with (Z.log2 z + 1) in Hhi by lia.
  unfold JS.round53.
  destruct (Z.ltb_spec (Z.log2 z) 53) as [|Hb]; [lia|].
  set (b := Z.log2 z) in *. set (sh := b - 52).
  assert (Hsh : 0 < sh) by (unfold sh; lia).
  cbv zeta.
  set (q := Z.shiftr z sh).
  set (r := z - Z.shiftl q sh).
  set (half := Z.shiftl 1 (sh - 1)).
  set (q' := if (half <? r) || ((r =? half) && Z.odd q) then q + 1 else q).
  assert (Hp : 0 < 2 ^ sh) by (apply Z.pow_pos_nonneg; lia).
  assert (Hb2 : 2 ^ b = 2 ^ 52 * 2 ^ sh).
  { rewrite <- Z.pow_add_r by lia. f_equal. unfold sh. lia. }
  assert (Hb3 : 2 ^ (b + 1) = 2 ^ 53 * 2 ^ sh).
  { rewrite <- Z.pow_add_r by lia. f_equal. unfold sh. lia. }
  assert (Hq : 2 ^ 52 <= q < 2 ^ 53).
  { unfold q. rewrite Z.shiftr_div_pow2 by lia. split.
    - apply Z.div_le_lower_bound; [exact Hp|]. rewrite Z.mul_comm. lia.
    - apply Z.div_lt_upper_bound; [exact Hp|]. rewrite Z.mul_comm. lia. }
  assert (Hq' : q <= q' <= q + 1).
  { unfold q'. destruct ((half <? r) || ((r =? half) && Z.odd q)); lia. }
  rewrite Z.shiftl_mul_pow2 by lia. rewrite Hb2, Hb3. split.
  - apply Z.mul_le_mono_nonneg_r; lia.
  - apply Z.mul_le_mono_nonneg_r; lia.
Qed.

Lemma round53_large (z : Z) : 2 ^ 53 <= z -> 2 ^ 53 <= JS.round53 z.
Proof.
  intros H. assert (Hz : 0 < z) by lia.
  pose proof (round53_bounds z Hz) as [Hlo _].
  apply (Z.log2_le_pow2 z 53 Hz) in H.
  eapply Z.le_trans; [|exact Hlo].
  apply Z.pow_le_mono_r; lia.
Qed.

Lemma round53_below (z : Z) (b : Z) :
  0 <= b -> z < 2 ^ b -> JS.round53 z <= 2 ^ b.
Proof.
  intros Hb H.
  destruct (Z.le_gt_cases z 0) as [Hz|Hz].
  - rewrite round53_small; [lia|]. lia.
  - pose proof (round53_bounds z Hz) as [_ Hhi].
    apply (Z.log2_lt_pow2 z b Hz) in H.
    eapply Z.le_trans; [exact Hhi|].
    apply Z.pow_le_mono_r; lia.
Qed.

Lemma shortest_from_cases (j : nat) (d : Z) :
  let p := 10 ^ Z.of_nat j in
  let lo := d / p * p in
  (JS.shortest_from j d = lo /\ JS.round53 lo = d) \/
  (JS.shortest_from j d = lo + p /\ JS.round53 (lo + p) = d) \/
  JS.shortest_from j d = match j with
                         | O => d
                         | S j' => JS.shortest_from j' d
                         end.
Proof.
  cbv zeta. destruct j as [|j]; cbn [JS.shortest_from]; cbv zeta.
  all: match goal with
       | |- context [JS.round53 ?lo =? ?x] =>
           destruct (Z.eqb_spec (JS.round53 lo) x) as [Hlo|Hlo]
       end.
  all: match goal with
       | |- context [JS.round53 (?lo + ?p) =? ?x] =>
           destruct (Z.eqb_spec (JS.round53 (lo + p)) x) as [Hhi|Hhi]
       end.
  all: cbn [andb].
  all: repeat match goal with
       | |- context [if ?c then _ else _] => destruct c
       end.
  all: tauto.
Qed.

Lemma shortest_from_round (j : nat) (d : Z) :
  JS.shortest_from j d = d \/ JS.round53 (JS.shortest_from j d) = d.
Proof.
  induction j as [|j IH].
  - pose proof (shortest_from_cases O d) as H. cbv zeta in H.
    destruct H as [[-> H]|[[-> H]|H]]; [right; exact H .. | left; exact H].
  - pose proof (shortest_from_cases (S j) d) as H. cbv zeta in H.
    destruct H as [[-> H]|[[-> H]|H]]; [right; exact H .. |].
    rewrite H. exact IH.
Qed.

Lemma shortest_from_nonneg (j : nat) (d : Z) :
  0 <= d -> 0 <= JS.shortest_from j d.
Proof.
  intros Hd.
  assert (Hp : forall k : nat, 0 < 10 ^ Z.of_nat k)
    by (intros k; apply Z.pow_pos_nonneg; lia).
  assert (Hlo : forall k : nat, 0 <= d / 10 ^ Z.of_nat k * 10 ^ Z.of_nat k).
  { intros k. apply Z.mul_nonneg_nonneg; [|specialize (Hp k); lia].
    apply Z.div_pos; [lia | apply Hp]. }
  induction j as [|j IH].
  - pose proof (shortest_from_cases O d) as H. cbv zeta in H.
    destruct H as [[-> _]|[[-> _]|H]].
    + apply Hlo.
    + specialize (Hlo O). specialize (Hp O). lia.
    + rewrite H. exact Hd.
  - pose proof (shortest_from_cases (S j) d) as H. cbv zeta in H.
    destruct H as [[-> _]|[[-> _]|H]].
    + apply Hlo.
    + specialize (Hlo (S j)). specialize (Hp (S j)). lia.
    + rewrite H. exact IH.
Qed.

Lemma shortest_round (d : Z) :
  JS.shortest d = d \/ JS.round53 (JS.shortest d) = d.
Proof. apply shortest_from_round. Qed.

Lemma shortest_nonneg (d : Z) : 0 <= d -> 0 <= JS.shortest d.
Proof. apply shortest_from_nonneg. Qed.

(** Below [2^53] every integer is a double and prints as itself. *)
Lemma shortest_small (d : Z) : d < 2 ^ 53 -> JS.shortest d = d.
Proof.
  intros H. destruct (shortest_round d) as [E|E]; [exact E|].
  destruct (Z.lt_ge_cases (JS.shortest d) (2 ^ 53)) as [Hc|Hc].
  - now rewrite round53_small in E.
  - apply round53_large in Hc. lia.
Qed.

Lemma shortest_below (d : Z) : JS.shortest d < 2 ^ 53 -> JS.shortest d = d.
Proof.
  intros H. destruct (shortest_round d) as [E|E]; [exact E|].
  now rewrite round53_small in E.
Qed.

Lemma shortest_positive (d : Z) : 0 < d -> 0 < JS.shortest d.
Proof.
  intros H. pose proof (shortest_nonneg d ltac:(lia)) as Hn.
  destruct (Z.eq_dec (JS.shortest d) 0) as [E|]; [|lia].
  rewrite (shortest_below d) in E; [lia|]. rewrite E. reflexivity.
Qed.

(** From [2^63] on a number prints as an integer of at least [2^63]. *)
Lemma shortest_bigint (d : Z) : 2 ^ 63 <= d -> 2 ^ 63 <= JS.shortest d.
Proof.
  intros H.
  destruct (Z.lt_ge_cases (JS.shortest d) (2 ^ 63)) as [Hc|Hc]; [|exact Hc].
  exfalso. destruct (shortest_round d) as [E|E]; [lia|].
  pose proof (round53_below _ 63 ltac:(lia) Hc) as Hr.
  assert (Hd : d = 2 ^ 63) by lia.
  subst d. vm_compute in Hc. discriminate Hc.
Qed.

Lemma pow2_53_lt_1024 : 2 ^ 53 < 2 ^ 1024.
Proof. apply Z.pow_lt_mono_r; lia. Qed.

Lemma double_of_int_small (z : Z) :
  - 2 ^ 53 < z < 2 ^ 53 -> JS.double_of_int z = JS.Finite z.
Proof.
  intros H. unfold JS.double_of_int.
  rewrite round53_small by lia.
  pose proof pow2_53_lt_1024 as Hp.
  destruct (Z.leb_spec (2 ^ 1024) (Z.abs z)) as [Hbig|_]; [lia|].
  destruct (Z.ltb_spec z 0); f_equal; lia.
Qed.

Lemma integer_text_small (z : Z) :
  - 2 ^ 53 < z < 2 ^ 53 -> integer_text (JS.Finite z) = Some z.
Proof.
  intros H. unfold integer_text.
  rewrite shortest_small by lia.
  destruct (Z.ltb_spec (Z.abs z) (10 ^ 21)) as [_|Hbig].
  - destruct (Z.ltb_spec z 0); f_equal; lia.
  - exfalso. assert (2 ^ 53 < 10 ^ 21) by reflexivity. lia.
Qed.

(** The integer read from the text of a number is the number whenever it
    lies below [2^53]. *)
Lemma integer_text_below (z m : Z) :
  integer_text (JS.Finite z) = Some m -> - 2 ^ 53 < m < 2 ^ 53 -> m = z.
Proof.
  unfold integer_text.
  destruct (JS.shortest (Z.abs z) <? 10 ^ 21); [|discriminate].
  intros [= <-] Hm.
  assert (Hc : JS.shortest (Z.abs z) < 2 ^ 53)
    by (destruct (z <? 0); lia).
  rewrite (shortest_below _ Hc) in *.
  destruct (Z.ltb_spec z 0); lia.
Qed.

Lemma integer_param_finite (z m : Z) :
  integer_param (JS.Finite z) = Some m -> m = z /\ - 2 ^ 31 <= m < 2 ^ 31.
Proof.
  unfold integer_param, PG.integer.
  destruct (integer_text (JS.Finite z)) as [c|] eqn:E; [|discriminate].
  destruct (Z.leb_spec (- 2 ^ 31) c); [|discriminate].
  destruct (Z.ltb_spec c (2 ^ 31)); [|discriminate].
  cbn [andb]. intros [= <-].
  split; [|lia]. apply (integer_text_below _ _ E).
  assert (2 ^ 31 < 2 ^ 53) by reflexivity. lia.
Qed.

Lemma integer_param_in_range (z : Z) :
  - 2 ^ 31 <= z < 2 ^ 31 -> integer_param (JS.Finite z) = Some z.
Proof.
  intros H. unfold integer_param.
  assert (2 ^ 31 < 2 ^ 53) by reflexivity.
  rewrite integer_text_small by lia.
  unfold PG.integer.
  destruct (Z.leb_spec (- 2 ^ 31) z); [|lia].
  destruct (Z.ltb_spec z (2 ^ 31)); [reflexivity|lia].
Qed.

(** A number outside the range of [INTEGER], NaN and the infinities are
    refused by an [INTEGER] column. *)
Lemma integer_param_rejects (x : JS.number) :
  (forall n, x = JS.Finite n -> n < - 2 ^ 31 \/ 2 ^ 31 <= n) ->
  integer_param x = None.
Proof.
  intros H. destruct x as [| |z]; try reflexivity.
  destruct (integer_param (JS.Finite z)) as [m|] eqn:E; [|reflexivity].
  apply integer_param_finite in E. destruct E as [-> Hr].
  specialize (H _ eq_refl). lia.
Qed.

Lemma limit_param_small (k : Z) :
  0 <= k < 2 ^ 53 -> limit_param (JS.Finite k) = Some (Z.to_N k).
Proof.
  intros H. unfold limit_param.
  rewrite integer_text_small by lia.
  assert (2 ^ 53 < 2 ^ 63) by reflexivity.
  destruct (Z.leb_spec 0 k); [|lia].
  destruct (Z.ltb_spec k (2 ^ 63)); [reflexivity|lia].
Qed.

(** A negative count, a count from [2^63] on, NaN and the infinities are
    refused by [LIMIT]. *)
Lemma limit_param_rejects (x : JS.number) :
  (forall k, x = JS.Finite k -> k < 0 \/ 2 ^ 63 <= k) ->
  limit_param x = None.
Proof.
  intros H. destruct x as [| |z]; try reflexivity.
  specialize (H _ eq_refl).
  unfold limit_param, integer_text.
  destruct (JS.shortest (Z.abs z) <? 10 ^ 21); [|reflexivity].
  destruct H as [H|H].
  - pose proof (shortest_positive (Z.abs z) ltac:(lia)) as Hc.
    destruct (Z.ltb_spec z 0); [|lia].
    destruct (Z.leb_spec 0 (- JS.shortest (Z.abs z))); [lia|reflexivity].
  - pose proof (shortest_bigint (Z.abs z) ltac:(lia)) as Hc.
    destruct (Z.ltb_spec z 0); [lia|].
    destruct (Z.leb_spec 0 (JS.shortest (Z.abs z))); [|reflexivity].
    destruct (Z.ltb_spec (JS.shortest (Z.abs z)) (2 ^ 63)); [lia|reflexivity].
Qed.

(** *** Identifiers are valid text *)

Section DigitChars.
Variable p : ascii -> bool.
Hypothesis digits : forall d, p (JS.digit_char d) = true.

Lemma int_digits_all fuel radix n acc :
  JS.all_chars p acc = true ->
  JS.all_chars p (JS.int_digits fuel radix n acc) = true.
Proof.
  revert n acc; induction fuel as [|fuel IH]; intros n acc Hacc; simpl;
    [exact Hacc|].
  destruct (n / radix =? 0)%N.
  - simpl. now rewrite digits.
  - apply IH. simpl. now rewrite digits.
Qed.

Lemma frac_digits_all fuel radix r den :
  JS.all_chars p (JS.frac_digits fuel radix r den) = true.
Proof.
  revert r; induction fuel as [|fuel IH]; intros r; simpl; [reflexivity|].
  destruct (r =? 0)%N; [reflexivity|].
  simpl. now rewrite digits, IH.
Qed.

End DigitChars.

Lemma valid_text_all_chars (s : string) :
  PG.valid_text s = JS.all_chars (fun c => negb (Ascii.eqb c zero)) s.
Proof. induction s as [|c s IH]; simpl; [reflexivity | now rewrite IH]. Qed.

Lemma digit_char_not_nul (d : N) :
  negb (Ascii.eqb (JS.digit_char d) zero) = true.
Proof.
  unfold JS.digit_char.
  repeat match goal with
         | |- context [match ?x with _ => _ end] => destruct x
         end; reflexivity.
Qed.

(** Whatever the clock and the random source return, an identifier holds
    no NUL character. *)
Lemma generateObjectId_valid_text (e : entropy) :
  PG.valid_text (generateObjectId e) = true.
Proof.
  rewrite valid_text_all_chars. unfold generateObjectId, JS.substr.
  apply all_chars_substring. rewrite all_chars_app.
  apply andb_true_intro. split.
  - unfold JS.int_toString.
    destruct (id_now e / 1000 <? 0); [cbn [append JS.all_chars]|];
      now apply int_digits_all; [apply digit_char_not_nul|].
  - apply all_chars_substring. unfold JS.dyadic_toString16. cbv zeta.
    rewrite all_chars_app. apply andb_true_intro. split.
    + now apply int_digits_all; [apply digit_char_not_nul|].
    + destruct (_ =? 0)%N; [reflexivity|].
      cbn [append JS.all_chars].
      apply frac_digits_all, digit_char_not_nul.
Qed.

Lemma valid_text_app (a b : string) :
  PG.valid_text (a ++ b) = PG.valid_text a && PG.valid_text b.
Proof. rewrite !valid_text_all_chars. apply all_chars_app. Qed.

Lemma substring_app_prefix (a b : string) (m : nat) :
  (String.length a <= m)%nat ->
  String.substring 0 m (a ++ b)
  = a ++ String.substring 0 (m - String.length a) b.
Proof.
  revert m; induction a as [|c a IH]; intros m H; simpl in *.
  - now rewrite Nat.sub_0_r.
  - destruct m as [|m]; [lia|]. simpl. f_equal. apply IH. lia.
Qed.

Lemma nat_toString_16_length (n : N) (k : nat) :
  (1 <= k)%nat -> (n < 16 ^ N.of_nat k)%N ->
  (String.length (JS.nat_toString 16 n) <= k)%nat.
Proof.
  intros Hk Hn. unfold JS.nat_toString.
  now apply (int_digits_length _ n "" k).
Qed.

(** At a time from the epoch on whose seconds have at most 24 hexadecimal
    digits, an identifier is the seconds of the clock in hexadecimal
    followed by at most 16 further characters. *)
Lemma generateObjectId_prefix (e : entropy) :
  0 <= id_now e / 1000 < 16 ^ 24 ->
  exists rest,
    generateObjectId e = JS.int_toString 16 (id_now e / 1000) ++ rest /\
    (String.length rest <= 16)%nat.
Proof.
  intros Hnow. unfold generateObjectId, JS.substr.
  assert (Hlen : (String.length (JS.int_toString 16 (id_now e / 1000)) <= 24)%nat).
  { unfold JS.int_toString.
    destruct (Z.ltb_spec (id_now e / 1000) 0); [lia|].
    apply nat_toString_16_length; [lia|].
    change (16 ^ N.of_nat 24)%N with (Z.to_N (16 ^ 24)). lia. }
  rewrite (substring_app_prefix _ _ 24 Hlen).
  eexists. split; [reflexivity|].
  etransitivity; [apply substring_length_le_string|].
  rewrite Nat.sub_0_r. apply substring_length_le.
Qed.
(** ** Properties of [ORDER BY], filters and [LIMIT] *)

Section OrderByFacts.
Context {A : Type} (leb : A -> A -> bool).

Let le (a b : A) : Prop := leb a b = true.

Hypothesis leb_total : forall a b, leb a b = true \/ leb b a = true.
Hypothesis leb_trans : forall a b c, leb a b = true -> leb b c = true -> leb a c = true.

Lemma insert_row_perm (x : A) (l : list A) :
  Permutation (insert_row leb x l) (x :: l).
Proof.
  induction l as [|y l IH]; simpl.
  - reflexivity.
  - destruct (leb x y).
    + reflexivity.
    + rewrite IH. apply perm_swap.
Qed.

Lemma order_by_perm (l : list A) : Permutation (order_by leb l) l.
Proof.
  induction l as [|x l IH]; simpl.
  - reflexivity.
  - rewrite insert_row_perm. now constructor.
Qed.

Lemma insert_row_sorted (x : A) (l : list A) :
  StronglySorted le l -> StronglySorted le (insert_row leb x l).
Proof.
  induction 1 as [|y l Hs IH Hall]; simpl.
  - repeat constructor.
  - destruct (leb x y) eqn:Hxy.
    + constructor; [now constructor|].
      constructor; [exact Hxy|].
      eapply Forall_impl; [|exact Hall].
      intros z Hz. exact (leb_trans _ _ _ Hxy Hz).
    + constructor; [exact IH|].
      assert (Hyx : le y x) by (destruct (leb_total x y); [congruence | assumption]).
      eapply Permutation_Forall.
      * symmetry. apply insert_row_perm.
      * now constructor.
Qed.

Lemma order_by_sorted (l : list A) : StronglySorted le (order_by leb l).
Proof.
  induction l as [|x l IH]; simpl.
  - constructor.
  - now apply insert_row_sorted.
Qed.

End OrderByFacts.

Lemma In_firstn {A} (k : nat) (l : list A) (x : A) :
  In x (firstn k l) -> In x l.
Proof.
  intros H. rewrite <- (firstn_skipn k l). apply in_or_app. now left.
Qed.

Lemma StronglySorted_firstn {A} (R : A -> A -> Prop) (k : nat) (l : list A) :
  StronglySorted R l -> StronglySorted R (firstn k l).
Proof.
  intros H; revert k; induction H as [|x l Hs IH Hall]; intros [|k]; simpl;
    try constructor.
  - apply IH.
  - rewrite Forall_forall in *. intros y Hy. apply Hall.
    eapply In_firstn; eauto.
Qed.

(** In a sorted list every row of a prefix comes before every row of the
    rest. *)
Lemma StronglySorted_firstn_skipn {A} (R : A -> A -> Prop) (k : nat) (l : list A) :
  StronglySorted R l ->
  forall a b, In a (firstn k l) -> In b (skipn k l) -> R a b.
Proof.
  intros H; revert k; induction H as [|x l Hs IH Hall]; intros [|k] a b; simpl;
    try tauto.
  intros [<- | Ha] Hb.
  - rewrite Forall_forall in Hall. apply Hall.
    rewrite <- (firstn_skipn k l). apply in_or_app. now right.
  - eapply IH; eauto.
Qed.

Lemma take_firstn {A} (k : N) (l : list A) :
  take k l = firstn (N.to_nat k) l.
Proof.
  revert k; induction l as [|x l IH]; intros k; cbn [take].
  - now rewrite firstn_nil.
  - destruct (N.eqb_spec k 0) as [->|Hk]; [reflexivity|].
    replace (N.to_nat k) with (S (N.to_nat (N.pred k))) by lia.
    cbn [firstn]. now rewrite IH.
Qed.

Lemma filter_filter_andb {A} (f g : A -> bool) (l : list A) :
  filter g (filter f l) = filter (fun x => f x && g x) l.
Proof.
  induction l as [|x l IH]; simpl; [reflexivity|].
  destruct (f x); simpl; [destruct (g x)|]; now rewrite IH.
Qed.

Lemma filter_true {A} (l : list A) : filter (fun _ => true) l = l.
Proof. induction l; simpl; congruence. Qed.

(* ================================================================= *)
(** ** The statement of the log route computes [listExercises] *)

Lemma by_date_total (a b : PG.exercise_row) :
  by_date a b = true \/ by_date b a = true.
Proof. unfold by_date. lia. Qed.

Lemma by_date_trans (a b c : PG.exercise_row) :
  by_date a b = true -> by_date b c = true -> by_date a c = true.
Proof. unfold by_date. lia. Qed.

Lemma order_by_date_sorted (l : list PG.exercise_row) :
  StronglySorted date_le (order_by by_date l).
Proof.
  pose proof (order_by_sorted by_date by_date_total by_date_trans l) as H.
  induction H as [|x l' Hs IH Hall]; constructor; [exact IH|].
  eapply Forall_impl; [|exact Hall].
  intros y Hy. unfold by_date in Hy. unfold date_le. lia.
Qed.

Lemma listExercises_sorted userId from to limit t :
  StronglySorted date_le (listExercises userId from to limit t).
Proof.
  unfold listExercises, cap. destruct limit.
  - rewrite take_firstn. apply StronglySorted_firstn, order_by_date_sorted.
  - apply order_by_date_sorted.
Qed.

Lemma listExercises_incl userId from to limit t r :
  In r (listExercises userId from to limit t) ->
  In r (exercises_of userId t) /\ in_range from to r = true.
Proof.
  unfold listExercises, cap. intros H.
  assert (H' : In r (order_by by_date (filter (in_range from to) (exercises_of userId t)))).
  { destruct limit; [rewrite take_firstn in H; eapply In_firstn; eauto
                    | assumption]. }
  apply (Permutation_in _ (order_by_perm by_date _)) in H'.
  now apply filter_In in H'.
Qed.

Lemma listExercises_no_limit userId from to t :
  Permutation (listExercises userId from to None t)
              (filter (in_range from to) (exercises_of userId t)).
Proof. apply order_by_perm. Qed.

Lemma filter_in_range lo hi (l : list PG.exercise_row) :
  filter (in_range lo hi) l =
  match hi with
  | Some d => filter (fun r => PG.e_date r <=? d)
  | None => fun l' => l'
  end (match lo with
       | Some d => filter (fun r => d <=? PG.e_date r) l
       | None => l
       end).
Proof.
  destruct lo as [lo|], hi as [hi|]; unfold in_range.
  - now rewrite filter_filter_andb.
  - apply filter_ext. intros r. apply andb_true_r.
  - reflexivity.
  - apply filter_true.
Qed.

Section Refinement.
Variable utc_offset : Z.
Variable Date_parse : string -> option Z.

Lemma select_exercises_logs_statement userId from to limit t :
  select_exercises utc_offset (logs_statement Date_parse userId from to limit) t =
  if PG.valid_text userId then
    match date_bound utc_offset Date_parse from,
          date_bound utc_offset Date_parse to,
          row_limit limit with
    | Some lo, Some hi, Some lim => Some (listExercises userId lo hi lim t)
    | _, _, _ => None
    end
  else None.
Proof.
  unfold logs_statement, date_bound, row_limit, listExercises, exercises_of.
  destruct (JS.truthy from), (JS.truthy to), (JS.truthy limit);
    cbn [select_exercises bound params clauses push_param append_clause
         nth_error app apply_clauses apply_clause option_map cap];
    destruct (PG.valid_text userId); try reflexivity;
    repeat match goal with
    | |- context [date_param ?o ?d] => destruct (date_param o d); cbn [option_map]
    | |- context [limit_param ?n] => destruct (limit_param n); cbn [option_map]
    end;
    rewrite ?filter_in_range; reflexivity.
Qed.

End Refinement.

(* ================================================================= *)
(** ** The handlers, case by case *)

Ltac run_handler :=
  unfold try_catch, bind, client_select, client_query, ret, throw, first_row;
  cbn [option_map fst snd db sent].

Lemma select_users_by_id_In userId t u rest :
  PG.select_users_by_id userId t = Some (u :: rest) ->
  In u (PG.users t) /\ PG.u_id u = userId /\ PG.valid_text userId = true.
Proof.
  unfold PG.select_users_by_id.
  destruct (PG.valid_text userId); [|discriminate]. intros [= H].
  assert (Hin : In u (filter (fun r => String.eqb (PG.u_id r) userId)
                        (PG.users t))) by (rewrite H; now left).
  apply filter_In in Hin. destruct Hin as [Hin Heq].
  repeat split; [exact Hin | now apply String.eqb_eq].
Qed.

(** A user id that is no valid text makes the look-up fail. *)
Lemma select_users_by_id_invalid userId t :
  PG.valid_text userId = false -> PG.select_users_by_id userId t = None.
Proof. unfold PG.select_users_by_id. now intros ->. Qed.

Lemma select_users_by_id_none userId t :
  PG.valid_text userId = true ->
  ~ registered userId t -> PG.select_users_by_id userId t = Some [].
Proof.
  intros Hv H.
  destruct (PG.select_users_by_id userId t) as [[|u rest]|] eqn:E.
  - reflexivity.
  - exfalso. apply H. exists u.
    destruct (select_users_by_id_In _ _ _ _ E) as (Hin & Heq & _). now split.
  - unfold PG.select_users_by_id in E. now rewrite Hv in E.
Qed.

Lemma select_users_by_id_some userId t :
  PG.valid_text userId = true ->
  registered userId t ->
  exists u rest, PG.select_users_by_id userId t = Some (u :: rest).
Proof.
  intros Hv (u & Hin & Heq). unfold PG.select_users_by_id. rewrite Hv.
  destruct (filter _ (PG.users t)) as [|u' rest] eqn:E; [|eauto].
  exfalso.
  assert (Hf : In u (filter (fun r => String.eqb (PG.u_id r) userId)
                       (PG.users t))).
  { apply filter_In. split; [exact Hin | now apply String.eqb_eq]. }
  now rewrite E in Hf.
Qed.

(** The id of a user in tables that keep the schema is a valid text. *)
Lemma registered_valid_text userId t :
  schema_ok t -> registered userId t -> PG.valid_text userId = true.
Proof.
  intros Hok (u & Hin & <-).
  pose proof (users_text t Hok) as H. rewrite Forall_forall in H.
  now apply H.
Qed.

(** The log route for a registered user: one look-up of the user, then the
    statement, whose result is [listExercises] for the bounds and the limit
    the query string asks for. *)
Lemma get_logs_found utc_offset Date_parse userId from to limit s user rest :
  PG.select_users_by_id userId (db s) = Some (user :: rest) ->
  fst (get_logs utc_offset Date_parse userId from to limit s) =
  match date_bound utc_offset Date_parse from,
        date_bound utc_offset Date_parse to,
        row_limit limit with
  | Some lo, Some hi, Some lim =>
      Response 200
        (log_body utc_offset user (listExercises userId lo hi lim (db s)))
  | _, _, _ => Response 500 (error_body "Server error")
  end.
Proof.
  intros Hsel. unfold get_logs. run_handler. rewrite Hsel. run_handler.
  rewrite select_exercises_logs_statement.
  destruct (select_users_by_id_In _ _ _ _ Hsel) as (_ & _ & ->).
  destruct (date_bound utc_offset Date_parse from) as [lo|];
    [destruct (date_bound utc_offset Date_parse to) as [hi|];
      [destruct (row_limit limit) as [lim|]|]|]; reflexivity.
Qed.

(** The log route reads only: the tables stay as they were. *)
Lemma get_logs_db utc_offset Date_parse userId from to limit s :
  db (snd (get_logs utc_offset Date_parse userId from to limit s)) = db s.
Proof.
  unfold get_logs. run_handler.
  destruct (PG.select_users_by_id userId (db s)) as [[|user rest]|];
    run_handler; try reflexivity.
  destruct (select_exercises _ _ _); reflexivity.
Qed.

(** ** The log: order, range and limit *)

Lemma Permutation_filter {A} (f : A -> bool) (l l' : list A) :
  Permutation l l' -> Permutation (filter f l) (filter f l').
Proof.
  induction 1 as [|x l l' _ IH|x y l|l l' l'' _ IH1 _ IH2]; simpl.
  - constructor.
  - destruct (f x); [now constructor | exact IH].
  - destruct (f x), (f y); try reflexivity. apply perm_swap.
  - now transitivity (filter f l').
Qed.

(** A sorted list of numbers is determined by its elements. *)
Lemma sorted_permutation_eq (l1 l2 : list Z) :
  StronglySorted Z.le l1 -> StronglySorted Z.le l2 ->
  Permutation l1 l2 -> l1 = l2.
Proof.
  intros H1; revert l2; induction H1 as [|a l1 Hs1 IH Ha]; intros l2 H2 Hp.
  - apply Permutation_nil in Hp. now subst.
  - destruct H2 as [|b l2 Hs2 Hb].
    + symmetry in Hp. apply Permutation_nil in Hp. discriminate.
    + assert (a = b).
      { rewrite Forall_forall in Ha, Hb.
        assert (Hin_a : In a (b :: l2))
          by (eapply Permutation_in; [exact Hp | now left]).
        assert (Hin_b : In b (a :: l1))
          by (eapply Permutation_in; [symmetry; exact Hp | now left]).
        destruct Hin_a as [->|Hin_a]; [reflexivity|].
        destruct Hin_b as [->|Hin_b]; [reflexivity|].
        specialize (Ha _ Hin_b). specialize (Hb _ Hin_a). lia. }
      subst b. f_equal. apply IH; [exact Hs2|].
      now apply Permutation_cons_inv in Hp.
Qed.

Lemma sorted_dates (rows : list PG.exercise_row) :
  StronglySorted date_le rows -> StronglySorted Z.le (map PG.e_date rows).
Proof.
  induction 1 as [|r rows Hs IH Hall]; simpl; constructor; [exact IH|].
  rewrite Forall_forall in *. intros d Hd.
  apply in_map_iff in Hd. destruct Hd as (r' & <- & Hr'). now apply Hall.
Qed.

(** The [log] and [count] fields of the body of a log response. *)
Lemma log_body_log utc_offset user rows :
  field "log" (log_body utc_offset user rows) =
  Some (jarray (map (fun r => jobject
                       [("description", jstring (PG.e_description r));
                        ("duration", jnumber (PG.e_duration r));
                        ("date", jstring (render_date utc_offset (PG.e_date r)))])
                    rows)).
Proof. reflexivity. Qed.

Lemma log_body_count utc_offset user rows :
  field "count" (log_body utc_offset user rows) =
  Some (jnumber (Z.of_nat (List.length rows))).
Proof.
  unfold log_body. cbv zeta. rewrite length_map. reflexivity.
Qed.

(** C4: for every registered user and every state of the exercises table,
    the [log] array of a successful log response holds the entries of rows
    of that user in ascending order of their date, whatever the query
    string; without query fields the response is successful and the array
    holds all exercises of the user, sorted by date; and the dates come in
    the same sequence from any table that holds the same exercises in
    another order. *)
Theorem log_sorted_by_date utc_offset Date_parse userId s :
  schema_ok (db s) ->
  registered userId (db s) ->
  (forall from to limit,
     status (fst (get_logs utc_offset Date_parse userId from to limit s)) = 200 ->
     exists rows,
       field "log"
         (body (fst (get_logs utc_offset Date_parse userId from to limit s)))
       = Some (jarray (map (fun r => jobject
                 [("description", jstring (PG.e_description r));
                  ("duration", jnumber (PG.e_duration r));
                  ("date", jstring (render_date utc_offset (PG.e_date r)))])
               rows)) /\
       StronglySorted date_le rows /\
       incl rows (exercises_of userId (db s))) /\
  (exists rows,
     status (fst (get_logs utc_offset Date_parse userId
                    JS.JUndefined JS.JUndefined JS.JUndefined s)) = 200 /\
     field "log"
       (body (fst (get_logs utc_offset Date_parse userId
                     JS.JUndefined JS.JUndefined JS.JUndefined s)))
     = Some (jarray (map (fun r => jobject
               [("description", jstring (PG.e_description r));
                ("duration", jnumber (PG.e_duration r));
                ("date", jstring (render_date utc_offset (PG.e_date r)))])
             rows)) /\
     StronglySorted date_le rows /\
     Permutation rows (exercises_of userId (db s))) /\
  (forall s',
     PG.users (db s') = PG.users (db s) ->
     Permutation (PG.exercises (db s')) (PG.exercises (db s)) ->
     exists rows rows',
       field "log"
         (body (fst (get_logs utc_offset Date_parse userId
                       JS.JUndefined JS.JUndefined JS.JUndefined s)))
       = Some (jarray (map (fun r => jobject
                 [("description", jstring (PG.e_description r));
                  ("duration", jnumber (PG.e_duration r));
                  ("date", jstring (render_date utc_offset (PG.e_date r)))])
               rows)) /\
       field "log"
         (body (fst (get_logs utc_offset Date_parse userId
                       JS.JUndefined JS.JUndefined JS.JUndefined s')))
       = Some (jarray (map (fun r => jobject
                 [("description", jstring (PG.e_description r));
                  ("duration", jnumber (PG.e_duration r));
                  ("date", jstring (render_date utc_offset (PG.e_date r)))])
               rows')) /\
       map PG.e_date rows' = map PG.e_date rows).
Proof.
  intros Hok Hreg.
  pose proof (registered_valid_text _ _ Hok Hreg) as Hv.
  destruct (select_users_by_id_some _ _ Hv Hreg) as (user & rest & Hsel).
  split; [|split].
  - intros from to limit.
    rewrite (get_logs_found _ _ _ _ _ _ _ _ _ Hsel).
    destruct (date_bound utc_offset Date_parse from) as [lo|];
      [destruct (date_bound utc_offset Date_parse to) as [hi|];
        [destruct (row_limit limit) as [lim|]|]|];
      cbn [status body]; try discriminate.
    intros _. exists (listExercises userId lo hi lim (db s)).
    split; [apply log_body_log|]. split.
    + apply listExercises_sorted.
    + intros r Hr. now apply listExercises_incl in Hr.
  - rewrite (get_logs_found _ _ _ _ _ _ _ _ _ Hsel).
    cbn [date_bound row_limit JS.truthy status body].
    exists (listExercises userId None None None (db s)).
    split; [reflexivity|]. split; [apply log_body_log|]. split.
    + apply listExercises_sorted.
    + rewrite listExercises_no_limit. cbn [in_range andb].
      now rewrite filter_true.
  - intros s' Husers Hperm.
    assert (Hsel' : PG.select_users_by_id userId (db s') = Some (user :: rest)).
    { unfold PG.select_users_by_id in *. now rewrite Husers. }
    rewrite (get_logs_found _ _ _ _ _ _ _ _ _ Hsel).
    rewrite (get_logs_found _ _ _ _ _ _ _ _ _ Hsel').
    cbn [date_bound row_limit JS.truthy status body].
    exists (listExercises userId None None None (db s)),
      (listExercises userId None None None (db s')).
    split; [apply log_body_log|]. split; [apply log_body_log|].
    apply sorted_permutation_eq.
    + apply sorted_dates, listExercises_sorted.
    + apply sorted_dates, listExercises_sorted.
    + apply Permutation_map.
      rewrite !listExercises_no_limit.
      unfold exercises_of. now do 2 apply Permutation_filter.
Qed.

Lemma sample_registered : registered "659200808" (db sample_store).
Proof. exists alice. split; [now left | reflexivity]. Qed.

(** The constraints of the schema, checked on given tables. *)
Ltac concrete_schema :=
  constructor; cbn [db PG.users PG.exercises map];
  repeat first
    [ apply NoDup_nil
    | apply NoDup_cons; [cbn; intuition discriminate|]
    | apply Forall_nil
    | apply Forall_cons;
        [repeat split;
         first [reflexivity | vm_compute; lia | vm_compute; discriminate]|] ].

Lemma sample_schema_ok : schema_ok (db sample_store).
Proof. unfold sample_store. concrete_schema. Qed.

Lemma log_sorted_by_date_witness :
  exists rows,
    status (fst (get_logs 0 JS.iso_date_parse "659200808"
                   JS.JUndefined JS.JUndefined JS.JUndefined sample_store))
      = 200 /\
    field "log"
      (body (fst (get_logs 0 JS.iso_date_parse "659200808"
                    JS.JUndefined JS.JUndefined JS.JUndefined sample_store)))
    = Some (jarray (map (fun r => jobject
              [("description", jstring (PG.e_description r));
               ("duration", jnumber (PG.e_duration r));
               ("date", jstring (render_date 0 (PG.e_date r)))])
            rows)) /\
    StronglySorted date_le rows /\
    Permutation rows (exercises_of "659200808" (db sample_store)).
Proof.
  exact (proj1 (proj2 (log_sorted_by_date 0 JS.iso_date_parse "659200808"
                         sample_store sample_schema_ok sample_registered))).
Defined.

Lemma TimeClip_valid t :
  Z.abs t <= 8640000000000000 -> JS.TimeClip t = Some t.
Proof.
  intros H. unfold JS.TimeClip.
  destruct (Z.leb_spec (Z.abs t) 8640000000000000); [reflexivity | lia].
Qed.

(** East of Greenwich, midnight UTC of a day lies within that same local
    day. *)
Lemma local_day_utc_midnight utc_offset day :
  0 <= utc_offset < 1440 ->
  JS.local_day utc_offset (day * JS.msPerDay) = day.
Proof.
  intros H. unfold JS.local_day, JS.LocalTime, JS.msPerDay, JS.msPerMinute.
  symmetry. apply (Z.div_unique_pos _ _ _ (utc_offset * 60000)); lia.
Qed.

Lemma date_bound_utc_midnight utc_offset Date_parse (s : string) day :
  0 <= utc_offset < 1440 ->
  s <> "" ->
  Date_parse s = Some (day * JS.msPerDay) ->
  PG.min_date <= day <= 100000000 ->
  date_bound utc_offset Date_parse (JS.JStr s) = Some (Some day).
Proof.
  intros Htz Hne Hparse Hday. unfold date_bound.
  cbn [JS.truthy new_Date].
  apply String.eqb_neq in Hne. rewrite Hne. cbn [negb].
  rewrite Hparse, TimeClip_valid
    by (unfold PG.min_date, JS.msPerDay in *; lia).
  cbn [date_param]. rewrite local_day_utc_midnight by exact Htz.
  destruct (Z.leb_spec PG.min_date day); [reflexivity | lia].
Qed.

(** C5, as the code has it: on a server whose offset from UTC is not
    negative (and below one day), when [from] and [to] are both supplied as
    strings that denote midnight UTC of the days [F] and [T] (as every
    [YYYY-MM-DD] string does) and no limit is given, the log request of a
    registered user succeeds and its [log] array holds exactly the stored
    exercises of that user whose date [d] satisfies [F <= d <= T], in
    ascending order of date. *)
Theorem log_range_inclusive utc_offset Date_parse userId from to F T s :
  0 <= utc_offset < 1440 ->
  schema_ok (db s) ->
  registered userId (db s) ->
  from <> "" -> to <> "" ->
  Date_parse from = Some (F * JS.msPerDay) ->
  Date_parse to = Some (T * JS.msPerDay) ->
  PG.min_date <= F <= 100000000 ->
  PG.min_date <= T <= 100000000 ->
  exists rows,
    status (fst (get_logs utc_offset Date_parse userId
                   (JS.JStr from) (JS.JStr to) JS.JUndefined s)) = 200 /\
    field "log"
      (body (fst (get_logs utc_offset Date_parse userId
                    (JS.JStr from) (JS.JStr to) JS.JUndefined s)))
    = Some (jarray (map (fun r => jobject
              [("description", jstring (PG.e_description r));
               ("duration", jnumber (PG.e_duration r));
               ("date", jstring (render_date utc_offset (PG.e_date r)))])
            rows)) /\
    StronglySorted date_le rows /\
    Permutation rows
      (filter (fun r => (F <=? PG.e_date r) && (PG.e_date r <=? T))
              (exercises_of userId (db s))).
Proof.
  intros Htz Hok Hreg Hf Ht Hpf Hpt HF HT.
  pose proof (registered_valid_text _ _ Hok Hreg) as Hv.
  destruct (select_users_by_id_some _ _ Hv Hreg) as (user & rest & Hsel).
  rewrite (get_logs_found _ _ _ _ _ _ _ _ _ Hsel).
  rewrite (date_bound_utc_midnight _ _ _ _ Htz Hf Hpf HF).
  rewrite (date_bound_utc_midnight _ _ _ _ Htz Ht Hpt HT).
  cbn [row_limit JS.truthy status body].
  exists (listExercises userId (Some F) (Some T) None (db s)).
  split; [reflexivity|]. split; [apply log_body_log|]. split.
  - apply listExercises_sorted.
  - apply listExercises_no_limit.
Qed.

Lemma log_range_inclusive_witness :
  exists rows,
    status (fst (get_logs 0 JS.iso_date_parse "659200808"
                   (JS.JStr "2024-01-10") (JS.JStr "2024-01-31") JS.JUndefined
                   sample_store)) = 200 /\
    field "log"
      (body (fst (get_logs 0 JS.iso_date_parse "659200808"
                    (JS.JStr "2024-01-10") (JS.JStr "2024-01-31") JS.JUndefined
                    sample_store)))
    = Some (jarray (map (fun r => jobject
              [("description", jstring (PG.e_description r));
               ("duration", jnumber (PG.e_duration r));
               ("date", jstring (render_date 0 (PG.e_date r)))])
            rows)) /\
    StronglySorted date_le rows /\
    Permutation rows [swim_jan_15].
Proof.
  apply (log_range_inclusive 0 JS.iso_date_parse "659200808"
           "2024-01-10" "2024-01-31"
           (JS.days_from_civil 2024 1 10) (JS.days_from_civil 2024 1 31)
           sample_store).
  - lia.
  - exact sample_schema_ok.
  - exact sample_registered.
  - discriminate.
  - discriminate.
  - reflexivity.
  - reflexivity.
  - vm_compute. split; discriminate.
  - vm_compute. split; discriminate.
Defined.

(** C5 as stated fails west of Greenwich: at five hours behind UTC the log
    for [from=2024-01-10&to=2024-01-31] holds the exercise stored for
    9 January 2024, and shows it with that date, although the date lies
    before [from]. *)
Lemma log_range_west_counterexample :
  let from := JS.days_from_civil 2024 1 10 in
  JS.iso_date_parse "2024-01-10" = Some (from * JS.msPerDay) /\
  exists row,
    In row (exercises_of "659200808" (db west_store)) /\
    PG.e_date row < from /\
    PG.e_description row = "walk" /\
    fst (get_logs utc_minus_5 JS.iso_date_parse "659200808"
           (JS.JStr "2024-01-10") (JS.JStr "2024-01-31") JS.JUndefined
           west_store)
      = Response 200
          (jobject
             [("_id", jstring "659200808");
              ("username", jstring "alice");
              ("count", jnumber 1);
              ("log", jarray
                 [jobject [("description", jstring "walk");
                           ("duration", jnumber 20);
                           ("date", jstring "Tue Jan 09 2024")]])]).
Proof.
  split; [reflexivity|].
  exists (PG.ExerciseRow "659d7b908" "659200808" "walk" 20 19731).
  vm_compute. repeat split; auto.
Qed.

(** *** [parseInt] reads back the decimal digits of a number *)

Lemma digit_char_decimal (d : N) :
  (d < 10)%N ->
  JS.is_decimal_digit (JS.digit_char d) = true /\
  JS.digit_value 10 (JS.digit_char d) = Some d.
Proof.
  intros H.
  assert (Hd : (d = 0 \/ d = 1 \/ d = 2 \/ d = 3 \/ d = 4 \/ d = 5 \/ d = 6 \/
                d = 7 \/ d = 8 \/ d = 9)%N) by lia.
  repeat (destruct Hd as [-> | Hd]; [split; reflexivity|]).
  subst d. split; reflexivity.
Qed.

Lemma int_digits_S fuel radix n acc :
  JS.int_digits (S fuel) radix n acc
  = if (n / radix =? 0)%N
    then String (JS.digit_char (n mod radix)) acc
    else JS.int_digits fuel radix (n / radix)
           (String (JS.digit_char (n mod radix)) acc).
Proof. reflexivity. Qed.

Lemma int_digits_decimal fuel n acc :
  JS.all_chars JS.is_decimal_digit acc = true ->
  JS.all_chars JS.is_decimal_digit (JS.int_digits fuel 10 n acc) = true.
Proof.
  revert n acc; induction fuel as [|fuel IH]; intros n acc Hacc;
    [exact Hacc|].
  rewrite int_digits_S.
  destruct (digit_char_decimal (n mod 10)) as [Hd _];
    [apply N.mod_lt; lia|].
  destruct (n / 10 =? 0)%N.
  - simpl. now rewrite Hd.
  - apply IH. simpl. now rewrite Hd.
Qed.

Lemma leading_digits_cons (d : N) acc a :
  (d < 10)%N ->
  JS.leading_digits 10 (String (JS.digit_char d) acc) a
  = JS.leading_digits 10 acc
      (Some (match a with Some x => x * 10 + d | None => d end)%N).
Proof.
  intros H. cbn [JS.leading_digits].
  now rewrite (proj2 (digit_char_decimal d H)).
Qed.

Lemma leading_digits_int_digits fuel n acc :
  (n < 10 ^ N.of_nat (S fuel))%N ->
  JS.leading_digits 10 (JS.int_digits (S fuel) 10 n acc) None
  = JS.leading_digits 10 acc (Some n).
Proof.
  revert n acc; induction fuel as [|fuel IH]; intros n acc Hn;
    rewrite int_digits_S;
    assert (Hm : (n mod 10 < 10)%N) by (apply N.mod_lt; lia);
    pose proof (N.div_mod n 10 ltac:(lia)) as Hdm;
    destruct (N.eqb_spec (n / 10) 0) as [Hq|Hq].
  - rewrite leading_digits_cons by exact Hm. do 2 f_equal. lia.
  - exfalso. apply Hq. apply N.div_small. exact Hn.
  - rewrite leading_digits_cons by exact Hm. do 2 f_equal. lia.
  - rewrite IH.
    + rewrite leading_digits_cons by exact Hm. do 2 f_equal. lia.
    + apply N.Div0.div_lt_upper_bound.
      replace (N.of_nat (S (S fuel))) with (N.succ (N.of_nat (S fuel))) in Hn
        by lia.
      now rewrite N.pow_succ_r' in Hn.
Qed.

Lemma lt_pow10_size (n : N) : (n < 10 ^ N.of_nat (S (N.to_nat (N.size n))))%N.
Proof.
  rewrite Nat2N.inj_succ, N2Nat.id.
  apply N.lt_le_trans with (2 ^ N.size n)%N; [apply N.size_gt|].
  rewrite N.pow_succ_r'.
  apply N.le_trans with (10 ^ N.size n)%N.
  - apply N.pow_le_mono_l. lia.
  - pose proof (N.pow_nonzero 10 (N.size n) ltac:(lia)). lia.
Qed.

Lemma decimal_not_special c rest :
  JS.is_decimal_digit c = true ->
  JS.all_chars JS.is_decimal_digit rest = true ->
  JS.strip_hex_prefix (snd (JS.strip_sign (JS.trim_start (String c rest))))
    = (10%N, String c rest) /\
  fst (JS.strip_sign (JS.trim_start (String c rest))) = false.
Proof.
  intros Hc Hrest.
  destruct c as [[] [] [] [] [] [] [] []]; try discriminate Hc;
    cbn [JS.trim_start JS.is_white_space]; split; try reflexivity.
  destruct rest as [|c' rest']; [reflexivity|].
  simpl in Hrest. apply andb_prop in Hrest. destruct Hrest as [Hc' _].
  destruct c' as [[] [] [] [] [] [] [] []]; try discriminate Hc'; reflexivity.
Qed.

Lemma ToString_small (z : Z) :
  - 2 ^ 53 < z < 2 ^ 53 -> JS.ToString (JS.JNum z) = JS.int_toString 10 z.
Proof.
  intros H. cbn [JS.ToString]. rewrite double_of_int_small by exact H.
  unfold JS.Number_toString, JS.int_toString.
  rewrite shortest_small by lia.
  assert (Hp : 2 ^ 53 < 10 ^ 21) by reflexivity.
  destruct (Z.ltb_spec (Z.abs z) (10 ^ 21)) as [_|Hbig]; [|lia].
  destruct (Z.ltb_spec z 0) as [Hneg|Hpos].
  - now replace (Z.abs z) with (- z) by lia.
  - now replace (Z.abs z) with z by lia.
Qed.

(** X25: [parseInt] reads back decimal digits.  An integer not below zero
    and below [2^53], written in decimal digits, is read as itself, whether
    the field holds the digits as a string or the number. *)
Theorem parseInt_decimal (k : Z) :
  0 <= k < 2 ^ 53 ->
  JS.parseInt (JS.JStr (JS.int_toString 10 k)) = JS.Finite k /\
  JS.parseInt (JS.JNum k) = JS.Finite k.
Proof.
  intros Hk.
  assert (H : JS.parseInt (JS.JStr (JS.int_toString 10 k)) = JS.Finite k).
  2:{ split; [exact H|]. unfold JS.parseInt in *.
      rewrite ToString_small by lia. exact H. }
  unfold JS.parseInt. cbn [JS.ToString]. unfold JS.int_toString.
  destruct (Z.ltb_spec k 0); [lia|].
  unfold JS.nat_toString.
  pose proof (leading_digits_int_digits _ _ "" (lt_pow10_size (Z.to_N k))) as Hl.
  pose proof (int_digits_decimal (S (N.to_nat (N.size (Z.to_N k))))
                (Z.to_N k) "" eq_refl) as Hall.
  destruct (JS.int_digits _ 10 (Z.to_N k) "") as [|c rest];
    [discriminate Hl|].
  simpl in Hall. apply andb_prop in Hall. destruct Hall as [Hc Hrest].
  destruct (decimal_not_special c rest Hc Hrest) as [Hhex Hsign].
  destruct (JS.strip_sign (JS.trim_start (String c rest))) as [neg s1].
  cbn [fst snd] in Hhex, Hsign. subst neg. rewrite Hhex, Hl.
  cbn [JS.leading_digits]. rewrite Z2N.id by lia.
  apply double_of_int_small. lia.
Qed.

Lemma parseInt_decimal_witness :
  JS.parseInt (JS.JStr (JS.int_toString 10 45)) = JS.Finite 45 /\
  JS.parseInt (JS.JNum 45) = JS.Finite 45.
Proof. apply parseInt_decimal. split; reflexivity || discriminate. Defined.



Lemma parseInt_truthy v k :
  JS.parseInt v = JS.Finite k -> 0 < k -> JS.truthy v = true.
Proof.
  intros H Hk. destruct v as [| |[|]|z|s].
  - vm_compute in H. discriminate.
  - vm_compute in H. discriminate.
  - reflexivity.
  - vm_compute in H. discriminate.
  - cbn [JS.truthy]. destruct (Z.eqb_spec z 0) as [->|]; [|reflexivity].
    vm_compute in H. injection H as <-. lia.
  - destruct s; [vm_compute in H; discriminate | reflexivity].
Qed.

Lemma row_limit_positive v k :
  JS.parseInt v = JS.Finite k -> 0 < k < 2 ^ 53 ->
  row_limit v = Some (Some (Z.to_N k)).
Proof.
  intros H Hk. unfold row_limit.
  rewrite (parseInt_truthy _ _ H) by lia. rewrite H.
  rewrite limit_param_small by lia. reflexivity.
Qed.

(** C6, as the code has it: for a registered user, date bounds that are
    absent or valid, [m] exercises of the user within the bounds and a
    [limit] field that reads as a positive integer [k < m] (below [2^53]),
    the log request succeeds, its [count] is [k] and its [log] array holds
    exactly [k] entries, the [k] earliest by date of those within the
    bounds: together with the rows left out they are all of them, and none
    of them is dated after a row left out.  Without a limit the array holds
    every exercise within the bounds. *)
Theorem log_limit utc_offset Date_parse userId from to lo hi s :
  schema_ok (db s) ->
  registered userId (db s) ->
  date_bound utc_offset Date_parse from = Some lo ->
  date_bound utc_offset Date_parse to = Some hi ->
  (forall limit k,
     JS.parseInt limit = JS.Finite k ->
     0 < k < Z.of_nat (List.length (filter (in_range lo hi)
                                      (exercises_of userId (db s)))) ->
     k < 2 ^ 53 ->
     exists rows rest,
       status (fst (get_logs utc_offset Date_parse userId from to limit s))
         = 200 /\
       field "count"
         (body (fst (get_logs utc_offset Date_parse userId from to limit s)))
       = Some (jnumber k) /\
       field "log"
         (body (fst (get_logs utc_offset Date_parse userId from to limit s)))
       = Some (jarray (map (fun r => jobject
                 [("description", jstring (PG.e_description r));
                  ("duration", jnumber (PG.e_duration r));
                  ("date", jstring (render_date utc_offset (PG.e_date r)))])
               rows)) /\
       List.length rows = Z.to_nat k /\
       Permutation (rows ++ rest)
         (filter (in_range lo hi) (exercises_of userId (db s))) /\
       StronglySorted date_le rows /\
       (forall a b, In a rows -> In b rest -> date_le a b)) /\
  (exists rows,
     status (fst (get_logs utc_offset Date_parse userId from to
                    JS.JUndefined s)) = 200 /\
     field "log"
       (body (fst (get_logs utc_offset Date_parse userId from to
                     JS.JUndefined s)))
     = Some (jarray (map (fun r => jobject
               [("description", jstring (PG.e_description r));
                ("duration", jnumber (PG.e_duration r));
                ("date", jstring (render_date utc_offset (PG.e_date r)))])
             rows)) /\
     Permutation rows (filter (in_range lo hi) (exercises_of userId (db s)))).
Proof.
  intros Hok Hreg Hlo Hhi.
  pose proof (registered_valid_text _ _ Hok Hreg) as Hv.
  destruct (select_users_by_id_some _ _ Hv Hreg) as (user & rest & Hsel).
  split.
  - intros limit k Hparse Hk Hk53.
    rewrite (get_logs_found _ _ _ _ _ _ _ _ _ Hsel), Hlo, Hhi.
    rewrite (row_limit_positive _ _ Hparse) by lia.
    cbn [status body]. unfold listExercises, cap. rewrite take_firstn.
    set (all := order_by by_date
                  (filter (in_range lo hi) (exercises_of userId (db s)))).
    assert (Hall : Permutation all
                     (filter (in_range lo hi) (exercises_of userId (db s))))
      by apply order_by_perm.
    assert (Hlen : List.length (firstn (N.to_nat (Z.to_N k)) all)
                   = Z.to_nat k).
    { rewrite length_firstn. apply Permutation_length in Hall. lia. }
    exists (firstn (N.to_nat (Z.to_N k)) all), (skipn (N.to_nat (Z.to_N k)) all).
    split; [reflexivity|]. split; [|split; [|split; [|split; [|split]]]].
    + rewrite log_body_count, Hlen. do 2 f_equal. lia.
    + apply log_body_log.
    + exact Hlen.
    + now rewrite firstn_skipn.
    + apply StronglySorted_firstn, order_by_date_sorted.
    + apply StronglySorted_firstn_skipn, order_by_date_sorted.
  - rewrite (get_logs_found _ _ _ _ _ _ _ _ _ Hsel), Hlo, Hhi.
    cbn [row_limit JS.truthy status body].
    exists (listExercises userId lo hi None (db s)).
    split; [reflexivity|]. split; [apply log_body_log|].
    apply listExercises_no_limit.
Qed.

Lemma log_limit_witness :
  exists rows rest,
    status (fst (get_logs 0 JS.iso_date_parse "659200808"
                   JS.JUndefined (JS.JStr "2024-01-31") (JS.JStr "1")
                   sample_store)) = 200 /\
    field "count"
      (body (fst (get_logs 0 JS.iso_date_parse "659200808"
                    JS.JUndefined (JS.JStr "2024-01-31") (JS.JStr "1")
                    sample_store)))
    = Some (jnumber 1) /\
    field "log"
      (body (fst (get_logs 0 JS.iso_date_parse "659200808"
                    JS.JUndefined (JS.JStr "2024-01-31") (JS.JStr "1")
                    sample_store)))
    = Some (jarray (map (fun r => jobject
              [("description", jstring (PG.e_description r));
               ("duration", jnumber (PG.e_duration r));
               ("date", jstring (render_date 0 (PG.e_date r)))])
            rows)) /\
    List.length rows = 1%nat /\
    Permutation (rows ++ rest) [run_jan_01; swim_jan_15] /\
    StronglySorted date_le rows /\
    (forall a b, In a rows -> In b rest -> date_le a b).
Proof.
  apply (proj1 (log_limit 0 JS.iso_date_parse "659200808"
                  JS.JUndefined (JS.JStr "2024-01-31")
                  None (Some (JS.days_from_civil 2024 1 31)) sample_store
                  sample_schema_ok sample_registered eq_refl eq_refl)
               (JS.JStr "1") 1).
  - reflexivity.
  - vm_compute. split; reflexivity.
  - reflexivity.
Defined.

(** C6 as stated fails when date bounds are supplied as well: the user has
    three stored exercises and [limit=2], yet the log for
    [from=2024-01-10&to=2024-01-31] has one entry, the only exercise within
    the bounds. *)
Lemma log_limit_range_counterexample :
  List.length (exercises_of "659200808" (db sample_store)) = 3%nat /\
  JS.parseInt (JS.JStr "2") = JS.Finite 2 /\
  fst (get_logs 0 JS.iso_date_parse "659200808"
         (JS.JStr "2024-01-10") (JS.JStr "2024-01-31") (JS.JStr "2")
         sample_store)
    = Response 200
        (jobject
           [("_id", jstring "659200808");
            ("username", jstring "alice");
            ("count", jnumber 1);
            ("log", jarray
               [jobject [("description", jstring "swim");
                         ("duration", jnumber 45);
                         ("date", jstring "Mon Jan 15 2024")]])]).
Proof. vm_compute. repeat split. Qed.

(* ================================================================= *)
(** ** What the statements check *)

Lemma text_param_truthy v :
  JS.truthy v = true -> text_param v = Some (JS.ToString v).
Proof. destruct v; cbn; congruence. Qed.

Lemma filter_nil_existsb {A} (f : A -> bool) (l : list A) :
  filter f l = [] -> existsb f l = false.
Proof.
  induction l as [|x l IH]; simpl; [reflexivity|].
  destruct (f x); [discriminate | exact IH].
Qed.

Lemma existsb_filter_cons {A} (f : A -> bool) (l : list A) :
  existsb f l = true -> exists x rest, filter f l = x :: rest.
Proof.
  intros H. destruct (filter f l) as [|x rest] eqn:E; [|eauto].
  apply filter_nil_existsb in E. congruence.
Qed.

Lemma varchar255_length s s' :
  PG.varchar255 s = Some s' -> (String.length s' <= 255)%nat.
Proof.
  unfold PG.varchar255.
  destruct (Nat.leb_spec (String.length s) 255).
  - now intros [= <-].
  - destruct (PG.all_spaces _); [|discriminate].
    intros [= <-]. apply substring_length_le.
Qed.


(** What a successful [INSERT INTO users] has checked and done. *)
Lemma insert_user_inv id name t rows t' :
  PG.insert_user id name t = Some (rows, t') ->
  exists i n0 n,
    PG.varchar255 id = Some i /\ name = Some n0 /\ PG.varchar255 n0 = Some n /\
    PG.valid_text id = true /\ PG.valid_text n0 = true /\
    PG.has_user_id i t = false /\ PG.has_username n t = false /\
    rows = [PG.UserRow i n] /\
    t' = PG.Tables (PG.users t ++ [PG.UserRow i n]) (PG.exercises t).
Proof.
  unfold PG.insert_user.
  destruct name as [n0|]; [|discriminate].
  destruct (PG.valid_text id) eqn:Hvi; cbn [andb]; [|discriminate].
  destruct (PG.valid_text n0) eqn:Hvn; [|discriminate].
  destruct (PG.varchar255 id) as [i|]; [|discriminate].
  destruct (PG.varchar255 n0) as [n|] eqn:Hn; [|discriminate].
  destruct (PG.has_user_id i t) eqn:Hi; cbn [orb]; [discriminate|].
  destruct (PG.has_username n t) eqn:Hu; [discriminate|].
  intros [= <- <-]. exists i, n0, n. repeat split; assumption.
Qed.

(** What a successful [INSERT INTO exercises] has checked and done. *)
Lemma insert_exercise_inv id user_id description duration date t rows t' :
  PG.insert_exercise id user_id description duration date t = Some (rows, t') ->
  exists i u d n day,
    PG.varchar255 id = Some i /\ PG.varchar255 user_id = Some u /\
    description = Some d /\ duration = Some n /\ date = Some day /\
    PG.valid_text id = true /\ PG.valid_text user_id = true /\
    PG.valid_text d = true /\
    PG.has_exercise_id i t = false /\ PG.has_user_id u t = true /\
    rows = [PG.ExerciseRow i u d n day] /\
    t' = PG.Tables (PG.users t) (PG.exercises t ++ [PG.ExerciseRow i u d n day]).
Proof.
  unfold PG.insert_exercise.
  destruct (PG.varchar255 id) as [i|]; [|discriminate].
  destruct (PG.varchar255 user_id) as [u|]; [|discriminate].
  destruct description as [d|]; [|discriminate].
  destruct duration as [n|]; [|discriminate].
  destruct date as [day|]; [|discriminate].
  destruct (PG.valid_text id) eqn:Hvi; cbn [andb]; [|discriminate].
  destruct (PG.valid_text user_id) eqn:Hvu; cbn [andb]; [|discriminate].
  destruct (PG.valid_text d) eqn:Hvd; [|discriminate].
  destruct (PG.has_exercise_id i t) eqn:Hi; cbn [orb]; [discriminate|].
  destruct (PG.has_user_id u t) eqn:Hu; cbn [negb]; [|discriminate].
  intros [= <- <-]. exists i, u, d, n, day. repeat split; assumption.
Qed.

Lemma existsb_false_not_in {A B} (f : A -> B) (eqb : B -> B -> bool)
    (Heqb : forall x y, eqb x y = true <-> x = y) (k : B) (l : list A) :
  existsb (fun r => eqb (f r) k) l = false -> ~ In k (map f l).
Proof.
  intros H Hin. apply in_map_iff in Hin. destruct Hin as (r & <- & Hr).
  assert (Ht : existsb (fun r0 => eqb (f r0) (f r)) l = true).
  { apply existsb_exists. exists r. split; [exact Hr | now apply Heqb]. }
  congruence.
Qed.

Lemma NoDup_map_snoc {A B} (f : A -> B) (l : list A) (x : A) :
  NoDup (map f l) -> ~ In (f x) (map f l) -> NoDup (map f (l ++ [x])).
Proof.
  intros Hnd Hx. rewrite map_app. cbn [map].
  apply NoDup_app; [exact Hnd | repeat constructor; intros [] |].
  intros y Hy [<- | []]. now apply Hx.
Qed.

Lemma has_user_id_more id us r ex ex' :
  PG.has_user_id id (PG.Tables us ex) = true ->
  PG.has_user_id id (PG.Tables (us ++ [r]) ex') = true.
Proof.
  unfold PG.has_user_id. cbn [PG.users]. rewrite existsb_app.
  now intros ->.
Qed.

Lemma integer_range z n : PG.integer z = Some n -> - 2 ^ 31 <= n < 2 ^ 31.
Proof.
  unfold PG.integer.
  destruct (Z.leb_spec (- 2 ^ 31) z), (Z.ltb_spec z (2 ^ 31));
    cbn [andb]; try discriminate.
  intros [= <-]. lia.
Qed.

Lemma date_param_min utc_offset d day :
  date_param utc_offset d = Some day -> PG.min_date <= day.
Proof.
  destruct d as [t|]; cbn [date_param]; [|discriminate].
  destruct (Z.leb_spec PG.min_date (JS.local_day utc_offset t)); [|discriminate].
  now intros [= <-].
Qed.

Lemma schema_ok_empty : schema_ok (PG.Tables [] []).
Proof. constructor; cbn; constructor. Qed.


(** The part of a text that a [VARCHAR(255)] column keeps is valid text
    when the text is. *)
Lemma valid_text_substring (n m : nat) (s : string) :
  PG.valid_text s = true -> PG.valid_text (String.substring n m s) = true.
Proof. rewrite !valid_text_all_chars. apply all_chars_substring. Qed.

Lemma varchar255_valid_text s s' :
  PG.varchar255 s = Some s' -> PG.valid_text s = true ->
  PG.valid_text s' = true.
Proof.
  unfold PG.varchar255.
  destruct (String.length s <=? 255)%nat; [now intros [= <-]|].
  destruct (PG.all_spaces _); [|discriminate].
  intros [= <-]. apply valid_text_substring.
Qed.

(** The user of a row that refers to it is in the table. *)
Lemma has_user_id_registered id t :
  PG.has_user_id id t = true <-> registered id t.
Proof.
  unfold PG.has_user_id, registered. rewrite existsb_exists.
  split; intros (u & Hin & Heq); exists u; split; try exact Hin;
    now apply String.eqb_eq.
Qed.

(* ================================================================= *)
(** ** Adding an exercise *)

(** Everything a successful add-exercise has checked, stored and
    returned. *)
Lemma post_exercise_inv utc_offset Date_parse userId description duration date
    now e s :
  status (fst (post_exercise utc_offset Date_parse userId description
                 duration date now e s)) = 200 ->
  exists user rest u n day,
    JS.truthy description = true /\ JS.truthy duration = true /\
    PG.select_users_by_id userId (db s) = Some (user :: rest) /\
    PG.varchar255 userId = Some u /\
    PG.valid_text (JS.ToString description) = true /\
    JS.parseInt duration = JS.Finite n /\ - 2 ^ 31 <= n < 2 ^ 31 /\
    date_param utc_offset
      (if JS.truthy date then new_Date Date_parse date else JS.TimeClip now)
      = Some day /\
    PG.has_exercise_id (generateObjectId e) (db s) = false /\
    post_exercise utc_offset Date_parse userId description duration date now e s
    = (Response 200
         (jobject [("_id", jstring (PG.u_id user));
                   ("username", jstring (PG.u_username user));
                   ("date", jstring (render_date utc_offset day));
                   ("duration", jnumber n);
                   ("description", jstring (JS.ToString description))]),
       Store (PG.Tables (PG.users (db s))
                (PG.exercises (db s)
                 ++ [PG.ExerciseRow (generateObjectId e) u
                       (JS.ToString description) n day]))
             (sent s
              ++ ["SELECT * FROM users WHERE _id = $1";
                  "INSERT INTO exercises (_id, user_id, description, duration, date) VALUES ($1, $2, $3, $4, $5) RETURNING *"])).
Proof.
  unfold post_exercise.
  destruct (JS.truthy description) eqn:Hd; cbn [negb orb]; [|discriminate].
  destruct (JS.truthy duration) eqn:Hn; cbn [negb]; [|discriminate].
  run_handler.
  destruct (PG.select_users_by_id userId (db s)) as [[|user rest]|] eqn:Hsel;
    try discriminate.
  run_handler.
  destruct (PG.insert_exercise _ _ _ _ _ _) as [[rows t']|] eqn:Hins;
    [|discriminate].
  destruct (insert_exercise_inv _ _ _ _ _ _ _ _ Hins)
    as (i & u & d & n & day & Hi & Hu & Htext & Hint & Hday & _ & _ & Hvd
        & Hfi & _ & -> & ->).
  rewrite varchar255_generateObjectId in Hi. injection Hi as <-.
  rewrite (text_param_truthy _ Hd) in Htext. injection Htext as <-.
  destruct (JS.parseInt duration) as [| |z] eqn:Hparse; try discriminate.
  apply integer_param_finite in Hint. destruct Hint as [-> Hrange].
  intros _. cbn [fst snd db sent].
  exists user, rest, u, z, day. rewrite <- app_assoc.
  repeat split; try assumption; try reflexivity; lia.
Qed.

(** The user found for a request is the one of the path, and the row
    inserted refers to it by that id. *)
Lemma post_exercise_user userId t user rest u :
  PG.select_users_by_id userId t = Some (user :: rest) ->
  PG.varchar255 userId = Some u ->
  (String.length userId <= 255)%nat \/ schema_ok t ->
  u = userId.
Proof.
  intros Hsel Hu Hlen.
  assert (H : (String.length userId <= 255)%nat).
  { destruct Hlen as [H|Hok]; [exact H|].
    destruct (select_users_by_id_In _ _ _ _ Hsel) as (Hin & <- & _).
    pose proof (users_columns t Hok) as Hc. rewrite Forall_forall in Hc.
    now apply Hc. }
  rewrite (varchar255_short _ H) in Hu. now injection Hu.
Qed.

(** C9: when [description] or [duration] is missing (or otherwise falsy),
    add-exercise answers 400 and the store is exactly as before: no statement
    was sent and no table changed, whether or not the user exists. *)
Theorem post_exercise_validates_first utc_offset Date_parse userId
    description duration date now e s :
  JS.truthy description = false \/ JS.truthy duration = false ->
  post_exercise utc_offset Date_parse userId description duration date now e s
  = (Response 400 (error_body "Description and duration are required"), s).
Proof.
  intros H. unfold post_exercise.
  destruct H as [-> | ->]; [reflexivity|].
  now rewrite orb_true_r.
Qed.

Lemma post_exercise_validates_first_witness :
  post_exercise 0 JS.iso_date_parse "no such user"
    (JS.JStr "run") JS.JUndefined (JS.JStr "2024-01-01") jan_1_2024_ms
    (Entropy jan_1_2024_ms one_half) sample_store
  = (Response 400 (error_body "Description and duration are required"),
     sample_store).
Proof.
  apply post_exercise_validates_first. right. reflexivity.
Defined.

(** C3, as the code has it: for a user id that is not in the users table,
    add-exercise with a description and a duration present leaves both
    tables unchanged; it answers 404 when the id is a valid text, and 500
    when the id holds a NUL character, which the database refuses in a
    parameter. *)
Theorem post_exercise_unknown_user utc_offset Date_parse userId
    description duration date now e s :
  ~ registered userId (db s) ->
  JS.truthy description = true ->
  JS.truthy duration = true ->
  fst (post_exercise utc_offset Date_parse userId description duration date now e s)
    = (if PG.valid_text userId
       then Response 404 (error_body "User not found")
       else Response 500 (error_body "Server error")) /\
  db (snd (post_exercise utc_offset Date_parse userId description duration date now e s))
    = db s.
Proof.
  intros Hno Hd Hn. unfold post_exercise. rewrite Hd, Hn. cbn [negb orb].
  run_handler. destruct (PG.valid_text userId) eqn:Hv.
  - rewrite (select_users_by_id_none _ _ Hv Hno). split; reflexivity.
  - rewrite (select_users_by_id_invalid _ _ Hv). split; reflexivity.
Qed.

Lemma post_exercise_unknown_user_witness :
  fst (post_exercise 0 JS.iso_date_parse "0123456789abcdef01234567"
         (JS.JStr "run") (JS.JNum 30) (JS.JStr "2024-01-01") jan_1_2024_ms
         (Entropy jan_1_2024_ms one_half) sample_store)
    = Response 404 (error_body "User not found") /\
  db (snd (post_exercise 0 JS.iso_date_parse "0123456789abcdef01234567"
             (JS.JStr "run") (JS.JNum 30) (JS.JStr "2024-01-01") jan_1_2024_ms
             (Entropy jan_1_2024_ms one_half) sample_store))
    = db sample_store.
Proof.
  apply (post_exercise_unknown_user 0 JS.iso_date_parse
           "0123456789abcdef01234567").
  - intros (u & [<- | []] & Heq). discriminate Heq.
  - reflexivity.
  - reflexivity.
Defined.

(** C3 as stated fails for an id with a NUL character: no user has the id
    [a], NUL, [b], and add-exercise answers 500, not 404. *)
Lemma post_exercise_nul_id_counterexample :
  let userId := String "a" (String zero "b") in
  ~ registered userId (db sample_store) /\
  JS.truthy (JS.JStr "run") = true /\
  JS.truthy (JS.JNum 30) = true /\
  fst (post_exercise 0 JS.iso_date_parse userId
         (JS.JStr "run") (JS.JNum 30) (JS.JStr "2024-01-01") jan_1_2024_ms
         (Entropy jan_1_2024_ms one_half) sample_store)
    = Response 500 (error_body "Server error").
Proof.
  cbv zeta. split; [|repeat split].
  intros (u & [<- | []] & Heq). discriminate Heq.
Qed.

(** C10, as the code has it: in a successful add-exercise response the
    [_id] field is the user id of the request path.  The row appended for
    the exercise refers to that user and carries the id the generator has
    returned, which starts with the seconds of the clock in hexadecimal and
    is the id of no earlier exercise; the response shows that id exactly
    when the generator has returned the very string that is the user's
    id. *)
Theorem post_exercise_returns_user_id utc_offset Date_parse userId
    description duration date now e s :
  status (fst (post_exercise utc_offset Date_parse userId
                 description duration date now e s)) = 200 ->
  field "_id" (body (fst (post_exercise utc_offset Date_parse userId
                            description duration date now e s)))
    = Some (jstring userId) /\
  exists row,
    PG.exercises (db (snd (post_exercise utc_offset Date_parse userId
                             description duration date now e s)))
      = (PG.exercises (db s) ++ [row])%list /\
    PG.e_id row = generateObjectId e /\
    PG.has_exercise_id (PG.e_id row) (db s) = false /\
    (0 <= id_now e / 1000 < 16 ^ 24 ->
     exists rest,
       PG.e_id row = JS.int_toString 16 (id_now e / 1000) ++ rest) /\
    (field "_id" (body (fst (post_exercise utc_offset Date_parse userId
                               description duration date now e s)))
       = Some (jstring (PG.e_id row))
     <-> generateObjectId e = userId).
Proof.
  intros H.
  destruct (post_exercise_inv _ _ _ _ _ _ _ _ _ H)
    as (user & rest & u & n & day & _ & _ & Hsel & _ & _ & _ & _ & _ & Hfresh
        & Heq).
  destruct (select_users_by_id_In _ _ _ _ Hsel) as (_ & Huser & _).
  rewrite Heq. cbn [fst snd db body PG.exercises]. rewrite Huser.
  split; [reflexivity|].
  eexists. split; [reflexivity|]. cbn [PG.e_id].
  split; [reflexivity|]. split; [exact Hfresh|]. split.
  - intros Hnow. destruct (generateObjectId_prefix e Hnow) as (r & Hr & _).
    now exists r.
  - cbn [field assoc String.eqb Ascii.eqb Bool.eqb]. split.
    + now intros [= ->].
    + now intros ->.
Qed.

Lemma post_exercise_returns_user_id_witness :
  field "_id" (body (fst (post_exercise 0 JS.iso_date_parse "659200808"
                            (JS.JStr "run") (JS.JNum 30) (JS.JStr "2024-01-01")
                            jan_1_2024_ms later sample_store)))
    = Some (jstring "659200808") /\
  exists row,
    PG.exercises (db (snd (post_exercise 0 JS.iso_date_parse "659200808"
                             (JS.JStr "run") (JS.JNum 30) (JS.JStr "2024-01-01")
                             jan_1_2024_ms later sample_store)))
      = (PG.exercises (db sample_store) ++ [row])%list /\
    PG.e_id row = generateObjectId later /\
    PG.has_exercise_id (PG.e_id row) (db sample_store) = false /\
    (0 <= id_now later / 1000 < 16 ^ 24 ->
     exists rest,
       PG.e_id row = JS.int_toString 16 (id_now later / 1000) ++ rest) /\
    (field "_id" (body (fst (post_exercise 0 JS.iso_date_parse "659200808"
                               (JS.JStr "run") (JS.JNum 30)
                               (JS.JStr "2024-01-01")
                               jan_1_2024_ms later sample_store)))
       = Some (jstring (PG.e_id row))
     <-> generateObjectId later = "659200808").
Proof.
  apply post_exercise_returns_user_id. reflexivity.
Defined.

(** C10 as stated fails when the generator returns the user's id: users
    and exercises draw their ids from the same generator, and with the clock
    and the random value that gave the user her id, the new exercise row
    gets that id too; the [_id] of the response is then the id of the new
    row. *)
Lemma post_exercise_id_collision_counterexample :
  let s := Store (PG.Tables [alice] []) [] in
  let r := post_exercise 0 JS.iso_date_parse "659200808"
             (JS.JStr "run") (JS.JNum 30) (JS.JStr "2024-01-01")
             jan_1_2024_ms (Entropy jan_1_2024_ms one_half) s in
  PG.u_id alice = generateObjectId (Entropy jan_1_2024_ms one_half) /\
  status (fst r) = 200 /\
  exists row,
    PG.exercises (db (snd r)) = [row] /\
    PG.e_id row = "659200808" /\
    field "_id" (body (fst r)) = Some (jstring (PG.e_id row)).
Proof.
  cbv zeta. split; [reflexivity|]. split; [reflexivity|].
  eexists. split; [reflexivity|]. split; reflexivity.
Qed.

(* ================================================================= *)
(** ** Dates in responses *)

Lemma TimeClip_some t t' :
  JS.TimeClip t = Some t' -> Z.abs t' <= 8640000000000000.
Proof.
  unfold JS.TimeClip.
  destruct (Z.leb_spec (Z.abs t) 8640000000000000); [|discriminate].
  now intros [= <-].
Qed.

Lemma new_Date_some Date_parse v t :
  new_Date Date_parse v = Some t -> Z.abs t <= 8640000000000000.
Proof.
  destruct v as [| |b|z|s]; cbn [new_Date]; try discriminate;
    try apply TimeClip_some.
  - destruct (JS.double_of_int z); try discriminate. apply TimeClip_some.
  - destruct (Date_parse s); [apply TimeClip_some | discriminate].
Qed.

Lemma date_param_storable utc_offset t day :
  Z.abs t <= 8640000000000000 ->
  date_param utc_offset (Some t) = Some day ->
  storable_day utc_offset day.
Proof.
  intros Ht. cbn [date_param].
  destruct (Z.leb_spec PG.min_date (JS.local_day utc_offset t)); [|discriminate].
  intros [= <-]. split; [assumption|].
  unfold JS.local_day, JS.LocalTime, JS.msPerDay, JS.msPerMinute.
  pose proof (Z.mul_div_le (t + utc_offset * 60000) 86400000 ltac:(lia)).
  lia.
Qed.

(** A stored day is rendered as that same day. *)
Lemma render_date_storable utc_offset day :
  -1440 < utc_offset < 1440 ->
  storable_day utc_offset day ->
  render_date utc_offset day = JS.date_string_of_day day.
Proof.
  intros Htz [Hlo Hhi]. unfold render_date, date_result, JS.local_midnight.
  unfold PG.min_date, JS.msPerDay, JS.msPerMinute in *.
  rewrite TimeClip_valid by lia. cbn [copy_Date].
  rewrite TimeClip_valid by lia. cbn [JS.toDateString].
  f_equal. unfold JS.local_day, JS.LocalTime, JS.msPerDay, JS.msPerMinute.
  replace (day * 86400000 - utc_offset * 60000 + utc_offset * 60000)
    with (day * 86400000) by lia.
  apply Z.div_mul. lia.
Qed.

Lemma post_exercise_stores_storable utc_offset Date_parse userId
    description duration date now e s :
  status (fst (post_exercise utc_offset Date_parse userId
                 description duration date now e s)) = 200 ->
  exists row,
    PG.exercises (db (snd (post_exercise utc_offset Date_parse userId
                             description duration date now e s)))
      = (PG.exercises (db s) ++ [row])%list /\
    storable_day utc_offset (PG.e_date row) /\
    field "date" (body (fst (post_exercise utc_offset Date_parse userId
                               description duration date now e s)))
      = Some (jstring (render_date utc_offset (PG.e_date row))).
Proof.
  intros H.
  destruct (post_exercise_inv _ _ _ _ _ _ _ _ _ H)
    as (user & rest & u & n & day & _ & _ & _ & _ & _ & _ & _ & Hdate & _
        & Heq).
  rewrite Heq. cbn [fst snd db body PG.exercises].
  eexists. split; [reflexivity|]. cbn [PG.e_date]. split; [|reflexivity].
  destruct (if JS.truthy date then new_Date Date_parse date else JS.TimeClip now)
    as [t|] eqn:Hd; [|discriminate].
  apply (date_param_storable _ t); [|exact Hdate].
  destruct (JS.truthy date);
    [eapply new_Date_some | eapply TimeClip_some]; eassumption.
Qed.

(** Add-exercise leaves the exercises as they are unless it succeeds. *)
Lemma post_exercise_failed utc_offset Date_parse userId description duration
    date now e s :
  status (fst (post_exercise utc_offset Date_parse userId
                 description duration date now e s)) <> 200 ->
  db (snd (post_exercise utc_offset Date_parse userId
             description duration date now e s)) = db s.
Proof.
  unfold post_exercise.
  destruct (negb (JS.truthy description) || negb (JS.truthy duration));
    [reflexivity|].
  run_handler.
  destruct (PG.select_users_by_id userId (db s)) as [[|user rest]|];
    try reflexivity.
  run_handler.
  destruct (PG.insert_exercise _ _ _ _ _ _) as [[rows t']|] eqn:Hins;
    [|reflexivity].
  destruct (insert_exercise_inv _ _ _ _ _ _ _ _ Hins)
    as (i & u & d & n & day & _ & _ & _ & _ & _ & _ & _ & _ & _ & _ & -> & ->).
  cbn [fst snd status res_json]. congruence.
Qed.

(** Every exercise the server adds keeps the dates of the table storable. *)
Lemma post_exercise_keeps_storable utc_offset Date_parse userId
    description duration date now e s :
  Forall (fun r => storable_day utc_offset (PG.e_date r)) (PG.exercises (db s)) ->
  Forall (fun r => storable_day utc_offset (PG.e_date r))
    (PG.exercises (db (snd (post_exercise utc_offset Date_parse userId
                              description duration date now e s)))).
Proof.
  intros Hall.
  destruct (Z.eq_dec (status (fst (post_exercise utc_offset Date_parse userId
                                     description duration date now e s))) 200)
    as [H|H].
  - destruct (post_exercise_stores_storable _ _ _ _ _ _ _ _ _ H)
      as (row & -> & Hrow & _).
    apply Forall_app. split; [exact Hall | now constructor].
  - now rewrite (post_exercise_failed _ _ _ _ _ _ _ _ _ H).
Qed.

(** C7, as the code has it: the date field of a successful add-exercise
    response is the [toDateString] text (weekday, month, day of month, year,
    with English names) of the day stored in the row the request has
    appended; every entry of the [log] array of a successful log response
    belongs to a stored exercise of the user and shows that text for the
    day stored for it; and on a server whose offset from UTC is not
    negative, posting the date ["2024-01-01"] is answered with the date
    ["Mon Jan 01 2024"], whatever the clock. *)
Theorem date_fields_rendered utc_offset Date_parse :
  -1440 < utc_offset < 1440 ->
  (forall userId description duration date now e s,
     status (fst (post_exercise utc_offset Date_parse userId
                    description duration date now e s)) = 200 ->
     exists row,
       PG.exercises (db (snd (post_exercise utc_offset Date_parse userId
                                description duration date now e s)))
         = (PG.exercises (db s) ++ [row])%list /\
       field "date" (body (fst (post_exercise utc_offset Date_parse userId
                                  description duration date now e s)))
         = Some (jstring (JS.date_string_of_day (PG.e_date row)))) /\
  (forall userId from to limit s,
     Forall (fun r => storable_day utc_offset (PG.e_date r))
            (PG.exercises (db s)) ->
     status (fst (get_logs utc_offset Date_parse userId from to limit s)) = 200 ->
     exists rows,
       incl rows (exercises_of userId (db s)) /\
       field "log"
         (body (fst (get_logs utc_offset Date_parse userId from to limit s)))
       = Some (jarray (map (fun r => jobject
                 [("description", jstring (PG.e_description r));
                  ("duration", jnumber (PG.e_duration r));
                  ("date", jstring (JS.date_string_of_day (PG.e_date r)))])
               rows))) /\
  (0 <= utc_offset ->
   Date_parse "2024-01-01" = Some jan_1_2024_ms ->
   forall userId description duration now e s,
     status (fst (post_exercise utc_offset Date_parse userId
                    description duration (JS.JStr "2024-01-01") now e s)) = 200 ->
     field "date" (body (fst (post_exercise utc_offset Date_parse userId
                                description duration (JS.JStr "2024-01-01")
                                now e s)))
       = Some (jstring "Mon Jan 01 2024")).
Proof.
  intros Htz. split; [|split].
  - intros userId description duration date now e s H.
    destruct (post_exercise_stores_storable _ _ _ _ _ _ _ _ _ H)
      as (row & Hdb & Hrow & Hfield).
    exists row. rewrite Hdb, Hfield. split; [reflexivity|].
    now rewrite render_date_storable.
  - intros userId from to limit s Hall H.
    destruct (PG.select_users_by_id userId (db s)) as [[|user rest]|] eqn:Hsel.
    + exfalso. revert H. unfold get_logs. run_handler. rewrite Hsel.
      discriminate.
    + revert H. rewrite (get_logs_found _ _ _ _ _ _ _ _ _ Hsel).
      destruct (date_bound utc_offset Date_parse from) as [lo|];
        [destruct (date_bound utc_offset Date_parse to) as [hi|];
          [destruct (row_limit limit) as [lim|]|]|];
        cbn [status body]; try discriminate.
      intros _. exists (listExercises userId lo hi lim (db s)).
      assert (Hincl : incl (listExercises userId lo hi lim (db s))
                        (exercises_of userId (db s))).
      { intros r Hr. now apply listExercises_incl in Hr. }
      split; [exact Hincl|].
      rewrite log_body_log. do 2 f_equal.
      apply map_ext_in. intros r Hr.
      apply Hincl, filter_In in Hr. destruct Hr as [Hr _].
      rewrite Forall_forall in Hall.
      now rewrite render_date_storable by auto.
    + exfalso. revert H. unfold get_logs. run_handler. rewrite Hsel.
      discriminate.
  - intros Hpos Hparse userId description duration now e s H.
    destruct (post_exercise_inv _ _ _ _ _ _ _ _ _ H)
      as (user & rest & u & n & day & _ & _ & _ & _ & _ & _ & _ & Hdate & _
          & Heq).
    rewrite Heq. cbn [fst body].
    cbn [JS.truthy String.eqb negb new_Date] in Hdate.
    rewrite Hparse in Hdate. unfold jan_1_2024_ms in Hdate.
    rewrite TimeClip_valid in Hdate by lia.
    change 1704067200000 with (19723 * JS.msPerDay) in Hdate.
    cbn [date_param] in Hdate.
    rewrite local_day_utc_midnight in Hdate by lia.
    injection Hdate as <-.
    cbn [field assoc String.eqb Ascii.eqb Bool.eqb].
    rewrite render_date_storable; [reflexivity | lia |].
    unfold storable_day, PG.min_date, JS.msPerDay, JS.msPerMinute. lia.
Qed.

Lemma date_fields_rendered_witness :
  field "date" (body (fst (post_exercise 330 JS.iso_date_parse "659200808"
                             (JS.JStr "run") (JS.JNum 30) (JS.JStr "2024-01-01")
                             jan_9_noon_west_ms later sample_store)))
    = Some (jstring "Mon Jan 01 2024").
Proof.
  apply (proj2 (proj2 (date_fields_rendered 330 JS.iso_date_parse
                         ltac:(lia)))).
  - lia.
  - reflexivity.
  - reflexivity.
Defined.

(** C7 as stated fails west of Greenwich: five hours behind UTC, the date
    ["2024-01-01"] comes back as ["Sun Dec 31 2023"]. *)
Lemma date_rendered_west_counterexample :
  status (fst (post_exercise utc_minus_5 JS.iso_date_parse "659200808"
                 (JS.JStr "run") (JS.JNum 30) (JS.JStr "2024-01-01")
                 jan_9_noon_west_ms later sample_store)) = 200 /\
  field "date" (body (fst (post_exercise utc_minus_5 JS.iso_date_parse "659200808"
                             (JS.JStr "run") (JS.JNum 30) (JS.JStr "2024-01-01")
                             jan_9_noon_west_ms later sample_store)))
    = Some (jstring "Sun Dec 31 2023") /\
  jstring "Sun Dec 31 2023" <> jstring "Mon Jan 01 2024".
Proof.
  split; [reflexivity|]. split; [reflexivity | discriminate].
Qed.

(* ================================================================= *)
(** ** Creating and listing users *)

Lemma select_users_by_username_valid name t :
  PG.valid_text name = true ->
  PG.select_users_by_username name t
  = Some (filter (fun r => String.eqb (PG.u_username r) name) (PG.users t)).
Proof. unfold PG.select_users_by_username. now intros ->. Qed.

Lemma select_users_by_username_some name t rows :
  PG.select_users_by_username name t = Some rows ->
  PG.valid_text name = true /\
  rows = filter (fun r => String.eqb (PG.u_username r) name) (PG.users t).
Proof.
  unfold PG.select_users_by_username.
  destruct (PG.valid_text name); [|discriminate].
  now intros [= <-].
Qed.

(** Under the [UNIQUE] constraint a user name selects at most one row. *)
Lemma select_users_by_username_unique name t r rest :
  NoDup (map PG.u_username (PG.users t)) ->
  PG.select_users_by_username name t = Some (r :: rest) ->
  rest = [] /\ PG.u_username r = name.
Proof.
  intros Hnd Hsel. apply select_users_by_username_some in Hsel.
  destruct Hsel as [_ Hsel]. symmetry in Hsel. revert Hsel.
  induction (PG.users t) as [|x l IH]; simpl; [discriminate|].
  inversion Hnd as [|? ? Hnotin Hnd']; subst.
  destruct (String.eqb_spec (PG.u_username x) name) as [Heq|Hne].
  - intros [= <- <-]. split; [|exact Heq].
    destruct (filter _ l) as [|y rest'] eqn:E; [reflexivity|].
    exfalso. apply Hnotin.
    assert (Hy : In y (filter (fun r => String.eqb (PG.u_username r) name) l))
      by (rewrite E; now left).
    apply filter_In in Hy. destruct Hy as [Hy Hname].
    apply String.eqb_eq in Hname. rewrite Heq, <- Hname.
    now apply in_map.
  - now apply IH.
Qed.

(** Create-user for a name that is in the table: the row is returned and
    nothing is written. *)
Lemma post_users_existing username e s r rest :
  JS.truthy username = true ->
  PG.select_users_by_username (JS.ToString username) (db s) = Some (r :: rest) ->
  post_users username e s =
  (Response 200 (user_json r),
   Store (db s) (sent s ++ [select_by_username_text])).
Proof.
  intros Ht Hsel. unfold post_users. rewrite Ht. cbn [negb].
  run_handler. rewrite (text_param_truthy _ Ht), Hsel. reflexivity.
Qed.

(** Create-user for a new name of at most 255 characters, when the fresh id
    is not in use: a row is added and returned. *)
Lemma post_users_new username e s :
  JS.truthy username = true ->
  (String.length (JS.ToString username) <= 255)%nat ->
  PG.select_users_by_username (JS.ToString username) (db s) = Some [] ->
  PG.has_user_id (generateObjectId e) (db s) = false ->
  let row := PG.UserRow (generateObjectId e) (JS.ToString username) in
  post_users username e s =
  (Response 200 (user_json row),
   Store (PG.Tables (PG.users (db s) ++ [row]) (PG.exercises (db s)))
         (sent s ++ [select_by_username_text] ++ [insert_user_text])).
Proof.
  intros Ht Hlen Hsel Hid row. unfold post_users. rewrite Ht. cbn [negb].
  run_handler. rewrite (text_param_truthy _ Ht), Hsel.
  apply select_users_by_username_some in Hsel. destruct Hsel as [Hv Hsel].
  run_handler. unfold PG.insert_user.
  rewrite generateObjectId_valid_text, Hv. cbn [andb].
  rewrite varchar255_generateObjectId, (varchar255_short _ Hlen), Hid.
  unfold PG.has_username.
  rewrite (filter_nil_existsb _ _ (eq_sym Hsel)). cbn [orb fst snd].
  now rewrite <- app_assoc.
Qed.

(** C2, as the code has it: for a non-empty user name of at most 255
    characters without a NUL character that is either registered already or
    gets a fresh id that no user has, two create-user calls both succeed
    with the same response, and so with the same id; the second call writes
    nothing, and the users table then holds exactly one row with that
    name. *)
Theorem create_user_idempotent username e1 e2 s :
  NoDup (map PG.u_username (PG.users (db s))) ->
  JS.truthy username = true ->
  (String.length (JS.ToString username) <= 255)%nat ->
  PG.valid_text (JS.ToString username) = true ->
  PG.has_username (JS.ToString username) (db s) = true \/
  PG.has_user_id (generateObjectId e1) (db s) = false ->
  let first := post_users username e1 s in
  let second := post_users username e2 (snd first) in
  status (fst first) = 200 /\
  fst second = fst first /\
  db (snd second) = db (snd first) /\
  exists id,
    body (fst first) = jobject [("username", jstring (JS.ToString username));
                                ("_id", jstring id)] /\
    filter (fun r => String.eqb (PG.u_username r) (JS.ToString username))
           (PG.users (db (snd second)))
      = [PG.UserRow id (JS.ToString username)].
Proof.
  intros Hnd Ht Hlen Hv Hcase first second.
  pose proof (select_users_by_username_valid _ (db s) Hv) as Hsel0.
  destruct (filter (fun r => String.eqb (PG.u_username r) (JS.ToString username))
              (PG.users (db s))) as [|r rest] eqn:Hsel.
  - assert (Hid : PG.has_user_id (generateObjectId e1) (db s) = false).
    { destruct Hcase as [H|H]; [|exact H].
      unfold PG.has_username in H.
      rewrite (filter_nil_existsb _ _ Hsel) in H. discriminate. }
    pose proof (post_users_new username e1 s Ht Hlen Hsel0 Hid) as H1.
    cbv zeta in H1.
    set (row := PG.UserRow (generateObjectId e1) (JS.ToString username)) in *.
    assert (Hsel' : filter (fun r => String.eqb (PG.u_username r)
                                       (JS.ToString username))
                      (PG.users (db (snd first))) = [row]).
    { unfold first. rewrite H1. cbn [snd db PG.users].
      rewrite filter_app, Hsel. cbn [filter app row PG.u_username].
      now rewrite String.eqb_refl. }
    assert (Hsel1 : PG.select_users_by_username (JS.ToString username)
                      (db (snd first)) = Some [row])
      by (rewrite select_users_by_username_valid by exact Hv; now f_equal).
    pose proof (post_users_existing username e2 (snd first) row [] Ht Hsel1) as H2.
    unfold second. rewrite H2. unfold first in *. rewrite H1 in *.
    cbn [fst snd db status body] in *.
    repeat split. exists (generateObjectId e1). split; [reflexivity | exact Hsel'].
  - destruct (select_users_by_username_unique _ _ _ _ Hnd Hsel0) as [-> Hname].
    pose proof (post_users_existing username e1 s r [] Ht Hsel0) as H1.
    assert (Hsel1 : PG.select_users_by_username (JS.ToString username)
                      (db (snd first)) = Some [r]).
    { unfold first. rewrite H1. exact Hsel0. }
    pose proof (post_users_existing username e2 (snd first) r [] Ht Hsel1) as H2.
    unfold second. rewrite H2. unfold first in *. rewrite H1 in *.
    cbn [fst snd db status body] in *.
    repeat split. exists (PG.u_id r).
    destruct r as [id name]. cbn in Hname. subst name.
    split; [reflexivity | exact Hsel].
Qed.

Lemma create_user_idempotent_witness :
  let first := post_users (JS.JStr "bob") later sample_store in
  let second := post_users (JS.JStr "bob") later (snd first) in
  status (fst first) = 200 /\
  fst second = fst first /\
  db (snd second) = db (snd first) /\
  exists id,
    body (fst first) = jobject [("username", jstring "bob"); ("_id", jstring id)] /\
    filter (fun r => String.eqb (PG.u_username r) "bob")
           (PG.users (db (snd second)))
      = [PG.UserRow id "bob"].
Proof.
  apply (create_user_idempotent (JS.JStr "bob") later later sample_store).
  - repeat constructor. intros [].
  - reflexivity.
  - vm_compute. lia.
  - reflexivity.
  - right. reflexivity.
Defined.

(** C2 as stated fails for a user name of 256 characters: the [INSERT]
    exceeds [VARCHAR(255)], both calls answer 500 without an id, and no row
    with that name exists afterwards. *)
Lemma create_user_long_name_counterexample :
  let first := post_users (JS.JStr long_name) (Entropy jan_1_2024_ms one_half)
                 empty_store in
  let second := post_users (JS.JStr long_name) later (snd first) in
  String.length long_name = 256%nat /\
  status (fst first) = 500 /\
  status (fst second) = 500 /\
  field "_id" (body (fst first)) = None /\
  field "_id" (body (fst second)) = None /\
  filter (fun r => String.eqb (PG.u_username r) long_name)
         (PG.users (db (snd second))) = [].
Proof. vm_compute. repeat split. Qed.

(** What a successful [INSERT INTO users] has done. *)
Lemma insert_user_some id name t rows t' :
  PG.insert_user id name t = Some (rows, t') ->
  exists row,
    rows = [row] /\
    t' = PG.Tables (PG.users t ++ [row]) (PG.exercises t) /\
    PG.has_username (PG.u_username row) t = false /\
    (forall n, name = Some n -> (String.length n <= 255)%nat ->
               PG.u_username row = n).
Proof.
  intros Hins.
  destruct (insert_user_inv _ _ _ _ _ Hins)
    as (i & n0 & n & _ & -> & Hn & _ & _ & _ & Hu & -> & ->).
  exists (PG.UserRow i n).
  repeat split; [exact Hu|].
  intros n1 [= <-] Hlen. rewrite (varchar255_short _ Hlen) in Hn.
  now injection Hn as <-.
Qed.

(** Create-user keeps user names unique. *)
Lemma post_users_keeps_unique username e s :
  NoDup (map PG.u_username (PG.users (db s))) ->
  NoDup (map PG.u_username (PG.users (db (snd (post_users username e s))))).
Proof.
  intros Hnd. unfold post_users.
  destruct (negb (JS.truthy username)); [exact Hnd|].
  run_handler.
  destruct (match text_param username with
            | Some n => PG.select_users_by_username n (db s)
            | None => Some []
            end) as [[|r rest]|]; try exact Hnd.
  run_handler.
  destruct (PG.insert_user _ _ _) as [[rows t']|] eqn:Hins; [|exact Hnd].
  destruct (insert_user_some _ _ _ _ _ Hins) as (row & -> & -> & Hfresh & _).
  cbn [fst snd db PG.users]. rewrite map_app. cbn [map].
  apply NoDup_app; [exact Hnd | repeat constructor; intros [] |].
  intros x Hx [<- | []].
  apply in_map_iff in Hx. destruct Hx as (r & Hr & Hin).
  unfold PG.has_username in Hfresh.
  assert (Ht : existsb (fun r0 => String.eqb (PG.u_username r0) (PG.u_username row))
                 (PG.users (db s)) = true).
  { apply existsb_exists. exists r. split; [exact Hin | now apply String.eqb_eq]. }
  congruence.
Qed.

(** C8, as the code has it: a successful create-user response is a JSON
    object with exactly the two fields [username] and [_id], those of a row
    of the users table, whose name is the one requested (when it has at most
    255 characters); and the list of [GET /api/users] has one such object
    for every row of the table, whatever the collation. *)
Theorem user_objects username e collate s :
  (status (fst (post_users username e s)) = 200 ->
   exists row,
     In row (PG.users (db (snd (post_users username e s)))) /\
     body (fst (post_users username e s))
       = jobject [("username", jstring (PG.u_username row));
                  ("_id", jstring (PG.u_id row))] /\
     ((String.length (JS.ToString username) <= 255)%nat ->
      PG.u_username row = JS.ToString username)) /\
  (exists rows,
     fst (get_users collate s)
       = Response 200
           (jarray (map (fun row => jobject [("username", jstring (PG.u_username row));
                                             ("_id", jstring (PG.u_id row))])
                        rows)) /\
     Permutation rows (PG.users (db s))).
Proof.
  split.
  - unfold post_users.
    destruct (JS.truthy username) eqn:Ht; cbn [negb]; [|discriminate].
    run_handler. rewrite (text_param_truthy _ Ht).
    destruct (PG.select_users_by_username (JS.ToString username) (db s))
      as [[|r rest]|] eqn:Hsel.
    + run_handler.
      destruct (PG.insert_user _ _ _) as [[rows t']|] eqn:Hins; [|discriminate].
      destruct (insert_user_some _ _ _ _ _ Hins) as (row & -> & -> & _ & Hname).
      intros _. cbn [fst snd db PG.users body res_json]. exists row.
      split; [apply in_or_app; right; now left|].
      split; [reflexivity|]. intros Hlen. now apply Hname.
    + intros _. cbn [fst snd db body res_json]. exists r.
      apply select_users_by_username_some in Hsel. destruct Hsel as [_ Hsel].
      assert (Hin : In r (filter (fun r => String.eqb (PG.u_username r)
                                             (JS.ToString username))
                            (PG.users (db s))))
        by (rewrite <- Hsel; now left).
      apply filter_In in Hin. destruct Hin as [Hin Heq].
      split; [exact Hin|]. split; [reflexivity|].
      intros _. now apply String.eqb_eq.
    + discriminate.
  - exists (PG.select_users_ordered collate (db s)). split; [reflexivity|].
    apply order_by_perm.
Qed.

Lemma user_objects_witness :
  exists row,
    In row (PG.users (db (snd (post_users (JS.JStr "bob") later sample_store)))) /\
    body (fst (post_users (JS.JStr "bob") later sample_store))
      = jobject [("username", jstring (PG.u_username row));
                 ("_id", jstring (PG.u_id row))] /\
    (((String.length "bob" <= 255)%nat) -> PG.u_username row = "bob").
Proof.
  apply (proj1 (user_objects (JS.JStr "bob") later String.leb sample_store)).
  reflexivity.
Defined.

(** C8 as stated fails on the field name: the response of create-user has
    the fields [username] and [_id], and none called [id]. *)
Lemma user_fields_counterexample :
  status (fst (post_users (JS.JStr "alice") (Entropy jan_1_2024_ms one_half)
                 empty_store)) = 200 /\
  field_names (body (fst (post_users (JS.JStr "alice")
                            (Entropy jan_1_2024_ms one_half) empty_store)))
    = ["username"; "_id"] /\
  field "id" (body (fst (post_users (JS.JStr "alice")
                           (Entropy jan_1_2024_ms one_half) empty_store)))
    = None.
Proof. vm_compute. repeat split. Qed.

(* ================================================================= *)
(** ** The identifier generator *)

(** C1 fails on the code: the random fragment is cut to 16 characters but
    never padded.  At midnight UTC of 1 January 2024 with [Math.random()]
    returning 0.5 the identifier has 9 characters; with a random value of
    full precision it has 22. *)
Theorem generateObjectId_short :
  JS.in_unit_interval one_half /\
  generateObjectId (Entropy jan_1_2024_ms one_half) = "659200808" /\
  String.length (generateObjectId (Entropy jan_1_2024_ms one_half)) = 9%nat /\
  JS.in_unit_interval all_bits /\
  generateObjectId (Entropy jan_1_2024_ms all_bits) = "65920080fffffffffffff8" /\
  String.length (generateObjectId (Entropy jan_1_2024_ms all_bits)) = 22%nat.
Proof. vm_compute. repeat split. Qed.

(* ================================================================= *)
(** ** What each route writes *)

(** Create-user leaves the tables alone or appends one row to [users]. *)
Lemma post_users_db username e s :
  db (snd (post_users username e s)) = db s \/
  exists i n,
    (String.length i <= 255)%nat /\ (String.length n <= 255)%nat /\
    PG.valid_text i = true /\ PG.valid_text n = true /\
    PG.has_user_id i (db s) = false /\ PG.has_username n (db s) = false /\
    status (fst (post_users username e s)) = 200 /\
    db (snd (post_users username e s))
      = PG.Tables (PG.users (db s) ++ [PG.UserRow i n]) (PG.exercises (db s)).
Proof.
  unfold post_users.
  destruct (negb (JS.truthy username)); [now left|].
  run_handler.
  destruct (match text_param username with
            | Some n => PG.select_users_by_username n (db s)
            | None => Some []
            end) as [[|r rest]|]; try (now left).
  run_handler.
  destruct (PG.insert_user _ _ _) as [[rows t']|] eqn:Hins; [|now left].
  destruct (insert_user_inv _ _ _ _ _ Hins)
    as (i & n0 & n & Hi & _ & Hn & Hvi & Hvn & Hfi & Hfn & -> & ->).
  right. exists i, n. cbn [fst snd db status res_json].
  repeat split; eauto using varchar255_length, varchar255_valid_text.
Qed.

(** Add-exercise leaves the tables alone, with a response other than 200,
    or answers 200 and appends one row to [exercises]. *)
Lemma post_exercise_db utc_offset Date_parse userId description duration date
    now e s :
  (status (fst (post_exercise utc_offset Date_parse userId description
                  duration date now e s)) <> 200 /\
   db (snd (post_exercise utc_offset Date_parse userId description
              duration date now e s)) = db s) \/
  exists row,
    status (fst (post_exercise utc_offset Date_parse userId description
                   duration date now e s)) = 200 /\
    (String.length (PG.e_id row) <= 255)%nat /\
    (PG.valid_text (PG.e_id row) = true /\
     PG.valid_text (PG.e_user_id row) = true /\
     PG.valid_text (PG.e_description row) = true) /\
    PG.has_exercise_id (PG.e_id row) (db s) = false /\
    PG.has_user_id (PG.e_user_id row) (db s) = true /\
    PG.varchar255 userId = Some (PG.e_user_id row) /\
    text_param description = Some (PG.e_description row) /\
    integer_param (JS.parseInt duration) = Some (PG.e_duration row) /\
    date_param utc_offset
      (if JS.truthy date then new_Date Date_parse date else JS.TimeClip now)
      = Some (PG.e_date row) /\
    db (snd (post_exercise utc_offset Date_parse userId description
               duration date now e s))
      = PG.Tables (PG.users (db s)) (PG.exercises (db s) ++ [row]).
Proof.
  unfold post_exercise.
  destruct (negb (JS.truthy description) || negb (JS.truthy duration));
    [left; split; [discriminate | reflexivity]|].
  run_handler.
  destruct (PG.select_users_by_id userId (db s)) as [[|user rest]|];
    try (left; split; [discriminate | reflexivity]).
  run_handler.
  destruct (PG.insert_exercise _ _ _ _ _ _) as [[rows t']|] eqn:Hins;
    [|left; split; [discriminate | reflexivity]].
  destruct (insert_exercise_inv _ _ _ _ _ _ _ _ Hins)
    as (i & u & d & n & day & Hi & Hu & Hd & Hn & Hday & Hvi & Hvu & Hvd
        & Hfi & Hfu & -> & ->).
  right. exists (PG.ExerciseRow i u d n day).
  cbn [fst snd db status res_json PG.e_id PG.e_user_id PG.e_description
       PG.e_duration PG.e_date].
  repeat split; eauto using varchar255_length, varchar255_valid_text.
Qed.

Lemma get_users_db collate s : db (snd (get_users collate s)) = db s.
Proof. reflexivity. Qed.

Lemma get_reset_db s : db (snd (get_reset s)) = PG.Tables [] [].
Proof. reflexivity. Qed.

(* ================================================================= *)
(** ** The constraints of the schema are kept *)

(** Every route keeps the constraints. *)
Lemma handle_keeps_schema utc_offset Date_parse collate r s :
  schema_ok (db s) ->
  schema_ok (db (snd (handle utc_offset Date_parse collate r s))).
Proof.
  intros [Hpk Hun Hepk Hcol Hfk Hecol Htext Hetext].
  destruct r as [username e| |userId description duration date now e
                |userId from to limit|]; cbn [handle].
  - destruct (post_users_db username e s)
      as [-> | (i & n & Hi & Hn & Hvi & Hvn & Hfi & Hfn & _ & ->)];
      [now constructor|].
    destruct (db s) as [us ex]. cbn [PG.users PG.exercises] in *.
    constructor; cbn [PG.users PG.exercises].
    + apply (NoDup_map_snoc PG.u_id); [exact Hpk|].
      exact (existsb_false_not_in PG.u_id String.eqb String.eqb_eq i us Hfi).
    + apply (NoDup_map_snoc PG.u_username); [exact Hun|].
      exact (existsb_false_not_in PG.u_username String.eqb String.eqb_eq n us Hfn).
    + exact Hepk.
    + apply Forall_app. split; [exact Hcol|].
      constructor; [split; assumption | constructor].
    + eapply Forall_impl; [|exact Hfk].
      intros x Hx. exact (has_user_id_more _ _ _ _ _ Hx).
    + exact Hecol.
    + apply Forall_app. split; [exact Htext|].
      constructor; [split; assumption | constructor].
    + exact Hetext.
  - now constructor.
  - destruct (post_exercise_db utc_offset Date_parse userId description
                duration date now e s)
      as [[_ ->] | (row & _ & Hlen & Hv & Hfi & Hfu & _ & _ & Hn & Hday & ->)];
      [now constructor|].
    destruct (db s) as [us ex]. cbn [PG.users PG.exercises] in *.
    constructor; cbn [PG.users PG.exercises]; try assumption.
    + apply (NoDup_map_snoc PG.e_id); [exact Hepk|].
      exact (existsb_false_not_in PG.e_id String.eqb String.eqb_eq _ ex Hfi).
    + apply Forall_app. split; [exact Hfk|].
      constructor; [exact Hfu | constructor].
    + apply Forall_app. split; [exact Hecol|].
      constructor; [|constructor].
      split; [exact Hlen|]. split; [|eapply date_param_min; eauto].
      unfold integer_param in Hn.
      destruct (integer_text (JS.parseInt duration)); [|discriminate].
      now apply integer_range in Hn.
    + apply Forall_app. split; [exact Hetext|].
      constructor; [exact Hv | constructor].
  - rewrite get_logs_db. now constructor.
  - rewrite get_reset_db. apply schema_ok_empty.
Qed.

(** X1: in every state the server reaches from empty tables, through any
    sequence of requests, the constraints of the schema hold: user ids, user
    names and exercise ids are unique, every exercise refers to a user in
    the table, and every column holds a value of its type. *)
Theorem reachable_schema_ok utc_offset Date_parse collate s :
  reachable utc_offset Date_parse collate s -> schema_ok (db s).
Proof.
  induction 1 as [|s r _ IH].
  - apply schema_ok_empty.
  - now apply handle_keeps_schema.
Qed.

Lemma reachable_schema_ok_witness :
  schema_ok
    (db (snd (handle 0 JS.iso_date_parse String.leb
                (PostExercise "659200808" (JS.JStr "run") (JS.JNum 30)
                   (JS.JStr "2024-01-01") jan_1_2024_ms later)
                (snd (handle 0 JS.iso_date_parse String.leb
                        (PostUsers (JS.JStr "alice")
                           (Entropy jan_1_2024_ms one_half))
                        empty_store))))).
Proof.
  apply (reachable_schema_ok 0 JS.iso_date_parse String.leb).
  apply reachable_step. apply reachable_step. apply reachable_start.
Defined.

(** X2: no route but the reset removes or changes a stored row.  The two
    reading routes leave both tables as they are; create-user leaves the
    exercises alone and appends at most one user; add-exercise leaves the
    users alone and appends at most one exercise, and appends none unless it
    answers 200; the reset leaves both tables empty. *)
Theorem routes_append_only utc_offset Date_parse collate r s :
  let s' := snd (handle utc_offset Date_parse collate r s) in
  match r with
  | GetUsers | GetLogs _ _ _ _ => db s' = db s
  | PostUsers _ _ =>
      PG.exercises (db s') = PG.exercises (db s) /\
      exists rest, PG.users (db s') = (PG.users (db s) ++ rest)%list /\
                   (List.length rest <= 1)%nat
  | PostExercise _ _ _ _ _ _ =>
      PG.users (db s') = PG.users (db s) /\
      exists rest, PG.exercises (db s') = (PG.exercises (db s) ++ rest)%list /\
                   (List.length rest <= 1)%nat /\
                   (status (fst (handle utc_offset Date_parse collate r s)) <> 200 ->
                    rest = [])
  | GetReset => db s' = PG.Tables [] []
  end.
Proof.
  destruct r as [username e| |userId description duration date now e
                |userId from to limit|]; cbn [handle]; cbv zeta.
  - destruct (post_users_db username e s)
      as [-> | (i & n & _ & _ & _ & _ & _ & _ & _ & ->)].
    + split; [reflexivity|]. exists [].
      split; [now rewrite app_nil_r | cbn; lia].
    + cbn [PG.users PG.exercises]. split; [reflexivity|].
      exists [PG.UserRow i n]. split; [reflexivity | cbn; lia].
  - reflexivity.
  - destruct (post_exercise_db utc_offset Date_parse userId description
                duration date now e s)
      as [[_ ->] | (row & H200 & _ & _ & _ & _ & _ & _ & _ & _ & ->)].
    + split; [reflexivity|]. exists [].
      split; [now rewrite app_nil_r|]. split; [cbn; lia | reflexivity].
    + cbn [PG.users PG.exercises]. split; [reflexivity|].
      exists [row]. split; [reflexivity|]. split; [cbn; lia|].
      intros Hne. now rewrite H200 in Hne.
  - apply get_logs_db.
  - apply get_reset_db.
Qed.

(** ** Creating and listing users: errors and round trips *)

(** X3: create-user without a user name (absent, empty, [null], [false] or
    0) answers 400 with the message of line 76 and leaves the store as it
    was: no statement is sent. *)
Theorem post_users_requires_username username e s :
  JS.truthy username = false ->
  post_users username e s
  = (Response 400 (error_body "Username is required"), s).
Proof. intros H. unfold post_users. now rewrite H. Qed.

Lemma post_users_requires_username_witness :
  post_users (JS.JStr "") later sample_store
  = (Response 400 (error_body "Username is required"), sample_store).
Proof. apply post_users_requires_username. reflexivity. Defined.

(** X4: create-user for a name that is a valid text and not in the table,
    when the identifier the generator returns is already the id of a user,
    answers 500 with the message "Server error" and leaves both tables
    unchanged; the look-up and the failed insert are the two statements
    sent. *)
Theorem post_users_id_collision username e s :
  JS.truthy username = true ->
  PG.valid_text (JS.ToString username) = true ->
  PG.has_username (JS.ToString username) (db s) = false ->
  PG.has_user_id (generateObjectId e) (db s) = true ->
  post_users username e s
  = (Response 500 (error_body "Server error"),
     Store (db s) (sent s ++ [select_by_username_text; insert_user_text])).
Proof.
  intros Ht Hv Hname Hid. unfold post_users. rewrite Ht. cbn [negb].
  run_handler. rewrite (text_param_truthy _ Ht).
  rewrite (select_users_by_username_valid _ _ Hv).
  destruct (filter _ (PG.users (db s))) as [|r rest] eqn:Hsel.
  - run_handler. unfold PG.insert_user.
    rewrite generateObjectId_valid_text, Hv. cbn [andb].
    rewrite varchar255_generateObjectId.
    destruct (PG.varchar255 (JS.ToString username));
      rewrite ?Hid; cbn [orb fst snd db sent]; now rewrite <- app_assoc.
  - exfalso. unfold PG.has_username in Hname.
    assert (Hin : In r (filter (fun r => String.eqb (PG.u_username r)
                                           (JS.ToString username))
                          (PG.users (db s))))
      by (rewrite Hsel; now left).
    apply filter_In in Hin. destruct Hin as [Hin Heq].
    assert (Ht' : existsb (fun r0 => String.eqb (PG.u_username r0)
                                      (JS.ToString username))
                    (PG.users (db s)) = true)
      by (apply existsb_exists; eauto).
    congruence.
Qed.

Lemma post_users_id_collision_witness :
  post_users (JS.JStr "bob") (Entropy jan_1_2024_ms one_half) sample_store
  = (Response 500 (error_body "Server error"),
     Store (db sample_store)
           (sent sample_store ++ [select_by_username_text; insert_user_text])).
Proof. apply post_users_id_collision; reflexivity. Defined.

(** X23: create-user for a name with a NUL character answers 500 with the
    message "Server error": the database refuses the parameter of the
    look-up, so that statement is the only one sent, no insert follows and
    no table changes. *)
Theorem post_users_invalid_name username e s :
  JS.truthy username = true ->
  PG.valid_text (JS.ToString username) = false ->
  post_users username e s
  = (Response 500 (error_body "Server error"),
     Store (db s) (sent s ++ [select_by_username_text])).
Proof.
  intros Ht Hv. unfold post_users. rewrite Ht. cbn [negb].
  run_handler. rewrite (text_param_truthy _ Ht).
  unfold PG.select_users_by_username. now rewrite Hv.
Qed.

Lemma post_users_invalid_name_witness :
  post_users (JS.JStr (String "a" (String zero "b"))) later sample_store
  = (Response 500 (error_body "Server error"),
     Store (db sample_store) (sent sample_store ++ [select_by_username_text])).
Proof. apply post_users_invalid_name; reflexivity. Defined.


(** What a successful create-user returns. *)
Lemma post_users_ok username e s :
  status (fst (post_users username e s)) = 200 ->
  exists row,
    In row (PG.users (db (snd (post_users username e s)))) /\
    body (fst (post_users username e s)) = user_json row /\
    (PG.select_users_by_username (JS.ToString username) (db s) = Some [] ->
     PG.has_user_id (PG.u_id row) (db s) = false /\
     PG.varchar255 (JS.ToString username) = Some (PG.u_username row)) /\
    (PG.select_users_by_username (JS.ToString username) (db s) <> Some [] ->
     In row (PG.users (db s)) /\ PG.u_username row = JS.ToString username).
Proof.
  unfold post_users.
  destruct (JS.truthy username) eqn:Ht; cbn [negb]; [|discriminate].
  run_handler. rewrite (text_param_truthy _ Ht).
  destruct (PG.select_users_by_username (JS.ToString username) (db s))
    as [[|r rest]|] eqn:Hsel.
  - run_handler.
    destruct (PG.insert_user _ _ _) as [[rows t']|] eqn:Hins; [|discriminate].
    destruct (insert_user_inv _ _ _ _ _ Hins)
      as (i & n0 & n & _ & [= <-] & Hn & _ & _ & Hfi & _ & -> & ->).
    intros _. cbn [fst snd db PG.users body res_json]. exists (PG.UserRow i n).
    split; [apply in_or_app; right; now left|].
    split; [reflexivity|]. split; [now intros _ | congruence].
  - intros _. cbn [fst snd db body res_json]. exists r.
    apply select_users_by_username_some in Hsel. destruct Hsel as [_ Hsel].
    assert (Hin : In r (filter (fun r => String.eqb (PG.u_username r)
                                           (JS.ToString username))
                          (PG.users (db s))))
      by (rewrite <- Hsel; now left).
    apply filter_In in Hin. destruct Hin as [Hin Heq].
    apply String.eqb_eq in Heq.
    split; [exact Hin|]. split; [reflexivity|].
    split; [discriminate | now intros _].
  - discriminate.
Qed.

(** X5: a user that create-user has answered 200 for is listed: the object
    of the response is an element of the array that [GET /api/users] returns
    on the resulting store. *)
Theorem created_user_is_listed username e collate s :
  status (fst (post_users username e s)) = 200 ->
  exists l,
    fst (get_users collate (snd (post_users username e s)))
      = Response 200 (jarray l) /\
    In (body (fst (post_users username e s))) l.
Proof.
  intros H. destruct (post_users_ok _ _ _ H) as (row & Hin & -> & _).
  exists (map user_json (PG.select_users_ordered collate
                           (db (snd (post_users username e s))))).
  split; [reflexivity|].
  apply in_map. eapply Permutation_in; [|exact Hin].
  symmetry. apply order_by_perm.
Qed.

Lemma created_user_is_listed_witness :
  exists l,
    fst (get_users String.leb (snd (post_users (JS.JStr "bob") later sample_store)))
      = Response 200 (jarray l) /\
    In (body (fst (post_users (JS.JStr "bob") later sample_store))) l.
Proof. apply created_user_is_listed. reflexivity. Defined.

Lemma ascii_compare_trans a b c :
  Ascii.compare a b <> Gt -> Ascii.compare b c <> Gt -> Ascii.compare a c <> Gt.
Proof.
  unfold Ascii.compare.
  destruct (N.compare_spec (N_of_ascii a) (N_of_ascii b)),
           (N.compare_spec (N_of_ascii b) (N_of_ascii c)),
           (N.compare_spec (N_of_ascii a) (N_of_ascii c));
    try congruence; lia.
Qed.

Lemma string_leb_trans a b c :
  String.leb a b = true -> String.leb b c = true -> String.leb a c = true.
Proof.
  unfold String.leb. revert b c.
  induction a as [|x a IH]; intros [|y b] [|z c]; simpl; try congruence.
  unfold Ascii.compare.
  destruct (N.compare_spec (N_of_ascii x) (N_of_ascii y)) as [Hxy|Hxy|Hxy],
           (N.compare_spec (N_of_ascii y) (N_of_ascii z)) as [Hyz|Hyz|Hyz],
           (N.compare_spec (N_of_ascii x) (N_of_ascii z)) as [Hxz|Hxz|Hxz];
    try congruence; try lia.
  apply IH.
Qed.

(** X6: [GET /api/users] always answers 200 with one [{username, _id}]
    object for every row of the users table and changes no table; its one
    statement is the [SELECT] of line 116.  The objects come in ascending
    order of the user name under the collation of the database, whichever
    total and transitive order that is. *)
Theorem get_users_lists_all_sorted collate s :
  (forall a b, collate a b = true \/ collate b a = true) ->
  (forall a b c, collate a b = true -> collate b c = true ->
                 collate a c = true) ->
  exists rows,
    get_users collate s
    = (Response 200
         (jarray (map (fun row => jobject
                         [("username", jstring (PG.u_username row));
                          ("_id", jstring (PG.u_id row))])
                      rows)),
       Store (db s)
             (sent s ++ ["SELECT username, _id FROM users ORDER BY username"])) /\
    Permutation rows (PG.users (db s)) /\
    StronglySorted (by_username collate) rows.
Proof.
  intros Htotal Htrans.
  exists (PG.select_users_ordered collate (db s)).
  split; [reflexivity|]. split; [apply order_by_perm|].
  apply (order_by_sorted
           (fun a b => collate (PG.u_username a) (PG.u_username b))).
  - intros a b. apply Htotal.
  - intros a b c. apply Htrans.
Qed.

Lemma get_users_lists_all_sorted_witness :
  exists rows,
    get_users String.leb sample_store
    = (Response 200
         (jarray (map (fun row => jobject
                         [("username", jstring (PG.u_username row));
                          ("_id", jstring (PG.u_id row))])
                      rows)),
       Store (db sample_store)
             (sent sample_store
              ++ ["SELECT username, _id FROM users ORDER BY username"])) /\
    Permutation rows (PG.users (db sample_store)) /\
    StronglySorted (by_username String.leb) rows.
Proof.
  apply (get_users_lists_all_sorted String.leb sample_store).
  - intros a b. apply String.leb_total.
  - intros a b c. apply string_leb_trans.
Defined.

Lemma NoDup_map_injective {A B} (f : A -> B) (l : list A) (a b : A) :
  NoDup (map f l) -> In a l -> In b l -> f a = f b -> a = b.
Proof.
  induction l as [|x l IH]; simpl; [tauto|].
  intros Hnd Ha Hb Hf. inversion Hnd as [|? ? Hnotin Hnd']; subst.
  destruct Ha as [<-|Ha], Hb as [<-|Hb]; auto.
  - exfalso. apply Hnotin. rewrite Hf. now apply in_map.
  - exfalso. apply Hnotin. rewrite <- Hf. now apply in_map.
Qed.

(** X7: two user names that differ get different identifiers.  When the
    tables satisfy the schema and create-user answers 200 for a name of at
    most 255 characters and then for a different name, the [_id] fields of
    the two responses differ. *)
Theorem distinct_names_distinct_ids username1 e1 username2 e2 s :
  schema_ok (db s) ->
  (String.length (JS.ToString username1) <= 255)%nat ->
  JS.ToString username1 <> JS.ToString username2 ->
  let first := post_users username1 e1 s in
  let second := post_users username2 e2 (snd first) in
  status (fst first) = 200 ->
  status (fst second) = 200 ->
  field "_id" (body (fst first)) <> field "_id" (body (fst second)).
Proof.
  intros Hok Hlen Hne first second H1 H2.
  assert (Hok1 : schema_ok (db (snd first)))
    by (apply (handle_keeps_schema 0 (fun _ => None) String.leb
                 (PostUsers username1 e1) s Hok)).
  destruct (post_users_ok _ _ _ H1) as (row1 & Hin1 & Hb1 & Hnew1 & Hold1).
  destruct (post_users_ok _ _ _ H2) as (row2 & Hin2 & Hb2 & Hnew2 & Hold2).
  fold first in Hin1, Hb1. fold first in Hin2, Hb2, Hnew2, Hold2.
  fold second in Hin2, Hb2.
  rewrite Hb1, Hb2. cbn [user_json field assoc String.eqb Ascii.eqb Bool.eqb].
  intros [= Hid].
  assert (Hname1 : PG.u_username row1 = JS.ToString username1).
  { destruct (PG.select_users_by_username (JS.ToString username1) (db s))
      as [[|r rest]|] eqn:E.
    - destruct (Hnew1 eq_refl) as [_ Hv].
      rewrite (varchar255_short _ Hlen) in Hv. now injection Hv.
    - apply Hold1. discriminate.
    - apply Hold1. discriminate. }
  destruct (PG.select_users_by_username (JS.ToString username2) (db (snd first)))
    as [[|r rest]|] eqn:E.
  - destruct (Hnew2 eq_refl) as [Hfresh _].
    unfold PG.has_user_id in Hfresh.
    apply (existsb_false_not_in PG.u_id String.eqb String.eqb_eq) in Hfresh.
    apply Hfresh. rewrite <- Hid. now apply in_map.
  - destruct Hold2 as [Hin2' Hname2]; [discriminate|].
    assert (row1 = row2)
      by (eapply (NoDup_map_injective PG.u_id); eauto using users_pk).
    subst row2. congruence.
  - destruct Hold2 as [Hin2' Hname2]; [discriminate|].
    assert (row1 = row2)
      by (eapply (NoDup_map_injective PG.u_id); eauto using users_pk).
    subst row2. congruence.
Qed.

Lemma distinct_names_distinct_ids_witness :
  field "_id" (body (fst (post_users (JS.JStr "alice")
                            (Entropy jan_1_2024_ms one_half) empty_store)))
  <> field "_id"
       (body (fst (post_users (JS.JStr "bob") later
                     (snd (post_users (JS.JStr "alice")
                             (Entropy jan_1_2024_ms one_half) empty_store))))).
Proof.
  apply (distinct_names_distinct_ids (JS.JStr "alice")
           (Entropy jan_1_2024_ms one_half) (JS.JStr "bob") later empty_store).
  - apply schema_ok_empty.
  - vm_compute. lia.
  - discriminate.
  - reflexivity.
  - reflexivity.
Defined.

(* ================================================================= *)
(** ** Adding exercises: the stored row, errors and round trips *)

(** X8: without a [date] in the body (absent, empty or otherwise falsy) a
    successful add-exercise stores the server's local calendar day at the
    clock reading, and answers with the date string of that day. *)
Theorem post_exercise_default_date utc_offset Date_parse userId
    description duration date now e s :
  -1440 < utc_offset < 1440 ->
  JS.truthy date = false ->
  status (fst (post_exercise utc_offset Date_parse userId description
                 duration date now e s)) = 200 ->
  let today := JS.local_day utc_offset now in
  (exists row,
     PG.exercises (db (snd (post_exercise utc_offset Date_parse userId
                              description duration date now e s)))
       = (PG.exercises (db s) ++ [row])%list /\
     PG.e_date row = today) /\
  field "date" (body (fst (post_exercise utc_offset Date_parse userId
                             description duration date now e s)))
    = Some (jstring (JS.date_string_of_day today)).
Proof.
  intros Htz Hdate H today.
  destruct (post_exercise_inv _ _ _ _ _ _ _ _ _ H)
    as (user & rest & u & n & day & _ & _ & _ & _ & _ & _ & _ & Hday & _ & ->).
  rewrite Hdate in Hday.
  destruct (JS.TimeClip now) as [t|] eqn:Hclip; [|discriminate].
  pose proof (TimeClip_some _ _ Hclip) as Hvalid.
  assert (t = now).
  { unfold JS.TimeClip in Hclip.
    destruct (Z.abs now <=? 8640000000000000); now inversion Hclip. }
  subst t.
  pose proof (date_param_storable _ _ _ Hvalid Hday) as Hst.
  assert (day = today).
  { cbn [date_param] in Hday. fold today in Hday.
    destruct (PG.min_date <=? today); now inversion Hday. }
  subst day. cbn [fst snd db body PG.exercises]. split.
  - eexists. split; reflexivity.
  - cbn [field assoc String.eqb Ascii.eqb Bool.eqb].
    now rewrite render_date_storable.
Qed.

Lemma post_exercise_default_date_witness :
  let today := JS.local_day utc_minus_5 jan_9_noon_west_ms in
  (exists row,
     PG.exercises (db (snd (post_exercise utc_minus_5 JS.iso_date_parse
                              "659200808" (JS.JStr "walk") (JS.JNum 20)
                              JS.JUndefined jan_9_noon_west_ms later
                              sample_store)))
       = (PG.exercises (db sample_store) ++ [row])%list /\
     PG.e_date row = today) /\
  field "date" (body (fst (post_exercise utc_minus_5 JS.iso_date_parse
                             "659200808" (JS.JStr "walk") (JS.JNum 20)
                             JS.JUndefined jan_9_noon_west_ms later
                             sample_store)))
    = Some (jstring (JS.date_string_of_day today)).
Proof.
  apply post_exercise_default_date.
  - unfold utc_minus_5. lia.
  - reflexivity.
  - reflexivity.
Defined.

(** X9: a successful add-exercise response has exactly the fields [_id],
    [username], [date], [duration] and [description], in this order; the
    user name is that of a user with the id of the path, the description is
    the text sent, and the duration is the number that [parseInt] reads
    from the field sent (so ["45 minutes"] is stored and returned as 45),
    a 32-bit integer. *)
Theorem post_exercise_response utc_offset Date_parse userId
    description duration date now e s :
  status (fst (post_exercise utc_offset Date_parse userId description
                 duration date now e s)) = 200 ->
  let b := body (fst (post_exercise utc_offset Date_parse userId description
                        duration date now e s)) in
  field_names b = ["_id"; "username"; "date"; "duration"; "description"] /\
  (exists user,
     In user (PG.users (db s)) /\ PG.u_id user = userId /\
     field "username" b = Some (jstring (PG.u_username user))) /\
  field "description" b = Some (jstring (JS.ToString description)) /\
  exists n,
    JS.parseInt duration = JS.Finite n /\ - 2 ^ 31 <= n < 2 ^ 31 /\
    field "duration" b = Some (jnumber n).
Proof.
  intros H b. subst b.
  destruct (post_exercise_inv _ _ _ _ _ _ _ _ _ H)
    as (user & rest & u & n & day & _ & _ & Hsel & _ & _ & Hparse & Hrange
        & _ & _ & ->).
  cbn [fst body]. split; [reflexivity|].
  destruct (select_users_by_id_In _ _ _ _ Hsel) as (Hin & Hid & _).
  split; [exists user; repeat split; assumption|].
  split; [reflexivity|].
  exists n. repeat split; try assumption; lia.
Qed.

Lemma post_exercise_response_witness :
  let b := body (fst (post_exercise 0 JS.iso_date_parse "659200808"
                        (JS.JStr "run") (JS.JStr "45 minutes")
                        (JS.JStr "2024-01-01") jan_1_2024_ms later
                        sample_store)) in
  field_names b = ["_id"; "username"; "date"; "duration"; "description"] /\
  (exists user,
     In user (PG.users (db sample_store)) /\ PG.u_id user = "659200808" /\
     field "username" b = Some (jstring (PG.u_username user))) /\
  field "description" b = Some (jstring "run") /\
  exists n,
    JS.parseInt (JS.JStr "45 minutes") = JS.Finite n /\
    - 2 ^ 31 <= n < 2 ^ 31 /\
    field "duration" b = Some (jnumber n).
Proof.
  apply (post_exercise_response 0 JS.iso_date_parse "659200808"
           (JS.JStr "run") (JS.JStr "45 minutes") (JS.JStr "2024-01-01")
           jan_1_2024_ms later sample_store).
  reflexivity.
Defined.

(** X10: for a registered user and a body with description and duration,
    add-exercise answers 500 "Server error" and stores nothing when the
    number that [parseInt] reads from the duration is no 32-bit integer
    (NaN and the infinities included), or when a date is sent that is no
    valid date. *)
Theorem post_exercise_rejects utc_offset Date_parse userId
    description duration date now e s :
  registered userId (db s) ->
  JS.truthy description = true ->
  JS.truthy duration = true ->
  (forall n, JS.parseInt duration = JS.Finite n -> ~ (- 2 ^ 31 <= n < 2 ^ 31)) \/
  (JS.truthy date = true /\ new_Date Date_parse date = None) ->
  fst (post_exercise utc_offset Date_parse userId description duration date now e s)
    = Response 500 (error_body "Server error") /\
  db (snd (post_exercise utc_offset Date_parse userId description duration date now e s))
    = db s.
Proof.
  intros Hreg Hd Hn Hbad.
  unfold post_exercise. rewrite Hd, Hn. cbn [negb orb].
  run_handler.
  destruct (PG.valid_text userId) eqn:Hv;
    [|rewrite (select_users_by_id_invalid _ _ Hv); split; reflexivity].
  destruct (select_users_by_id_some _ _ Hv Hreg) as (user & rest & Hsel).
  rewrite Hsel. run_handler.
  assert (Hins : PG.insert_exercise (generateObjectId e) userId
                   (text_param description)
                   (integer_param (JS.parseInt duration))
                   (date_param utc_offset
                      (if JS.truthy date then new_Date Date_parse date
                       else JS.TimeClip now)) (db s) = None).
  { destruct (PG.insert_exercise _ _ _ _ _ _) as [[rows t']|] eqn:Hins;
      [|reflexivity].
    exfalso.
    destruct (insert_exercise_inv _ _ _ _ _ _ _ _ Hins)
      as (i & u & d & n & day & _ & _ & _ & Hint & Hday & _).
    destruct Hbad as [Hbad | [Htd Hnd]].
    - rewrite integer_param_rejects in Hint; [discriminate|].
      intros z Hz. specialize (Hbad z Hz). lia.
    - rewrite Htd, Hnd in Hday. discriminate. }
  rewrite Hins. split; reflexivity.
Qed.

Lemma post_exercise_rejects_witness :
  fst (post_exercise 0 JS.iso_date_parse "659200808"
         (JS.JStr "run") (JS.JStr "half an hour") (JS.JStr "2024-01-01")
         jan_1_2024_ms later sample_store)
    = Response 500 (error_body "Server error") /\
  db (snd (post_exercise 0 JS.iso_date_parse "659200808"
             (JS.JStr "run") (JS.JStr "half an hour") (JS.JStr "2024-01-01")
             jan_1_2024_ms later sample_store))
    = db sample_store.
Proof.
  apply post_exercise_rejects.
  - exact sample_registered.
  - reflexivity.
  - reflexivity.
  - left. intros n Hn. discriminate Hn.
Defined.

(** X11: add-exercise succeeds whenever its checks pass.  For a user in the
    table whose id has at most 255 characters, an id and a description
    without a NUL character, a description and a duration present, a
    duration that reads as a 32-bit integer [n], a date that is sent as the
    day [day], and a fresh identifier that no exercise has, the response is
    200 with the five fields, and exactly the row
    [(id, userId, description, n, day)] is appended to [exercises]. *)
Theorem post_exercise_succeeds utc_offset Date_parse userId
    description duration date now e s n day :
  registered userId (db s) ->
  (String.length userId <= 255)%nat ->
  PG.valid_text userId = true ->
  PG.valid_text (JS.ToString description) = true ->
  JS.truthy description = true ->
  JS.truthy duration = true ->
  JS.parseInt duration = JS.Finite n ->
  - 2 ^ 31 <= n < 2 ^ 31 ->
  date_param utc_offset
    (if JS.truthy date then new_Date Date_parse date else JS.TimeClip now)
    = Some day ->
  PG.has_exercise_id (generateObjectId e) (db s) = false ->
  exists user,
    In user (PG.users (db s)) /\ PG.u_id user = userId /\
    fst (post_exercise utc_offset Date_parse userId description duration date now e s)
      = Response 200
          (jobject [("_id", jstring userId);
                    ("username", jstring (PG.u_username user));
                    ("date", jstring (render_date utc_offset day));
                    ("duration", jnumber n);
                    ("description", jstring (JS.ToString description))]) /\
    db (snd (post_exercise utc_offset Date_parse userId description duration date now e s))
      = PG.Tables (PG.users (db s))
          (PG.exercises (db s)
           ++ [PG.ExerciseRow (generateObjectId e) userId
                 (JS.ToString description) n day]).
Proof.
  intros Hreg Hlen Hv Hvd Hd Hn Hparse Hrange Hday Hfresh.
  destruct (select_users_by_id_some _ _ Hv Hreg) as (user & rest & Hsel).
  destruct (select_users_by_id_In _ _ _ _ Hsel) as (Hin & Hid & _).
  exists user. split; [exact Hin|]. split; [exact Hid|].
  unfold post_exercise. rewrite Hd, Hn. cbn [negb orb].
  run_handler. rewrite Hsel. run_handler.
  unfold PG.insert_exercise.
  rewrite varchar255_generateObjectId, (varchar255_short _ Hlen),
    (text_param_truthy _ Hd), Hparse, Hday.
  rewrite (integer_param_in_range _ Hrange).
  rewrite generateObjectId_valid_text, Hv, Hvd. cbn [andb]. rewrite Hfresh.
  assert (Hu : PG.has_user_id userId (db s) = true).
  { unfold PG.has_user_id. apply existsb_exists. exists user.
    split; [exact Hin | now apply String.eqb_eq]. }
  rewrite Hu. cbn [orb negb fst snd db]. rewrite Hid.
  split; reflexivity.
Qed.

Lemma post_exercise_succeeds_witness :
  exists user,
    In user (PG.users (db sample_store)) /\ PG.u_id user = "659200808" /\
    fst (post_exercise 0 JS.iso_date_parse "659200808"
           (JS.JStr "run") (JS.JNum 30) (JS.JStr "2024-01-01")
           jan_1_2024_ms later sample_store)
      = Response 200
          (jobject [("_id", jstring "659200808");
                    ("username", jstring (PG.u_username user));
                    ("date", jstring (render_date 0 19723));
                    ("duration", jnumber 30);
                    ("description", jstring "run")]) /\
    db (snd (post_exercise 0 JS.iso_date_parse "659200808"
               (JS.JStr "run") (JS.JNum 30) (JS.JStr "2024-01-01")
               jan_1_2024_ms later sample_store))
      = PG.Tables (PG.users (db sample_store))
          (PG.exercises (db sample_store)
           ++ [PG.ExerciseRow (generateObjectId later) "659200808" "run" 30 19723]).
Proof.
  apply (post_exercise_succeeds 0 JS.iso_date_parse "659200808"
           (JS.JStr "run") (JS.JNum 30) (JS.JStr "2024-01-01")
           jan_1_2024_ms later sample_store 30 19723).
  - exact sample_registered.
  - vm_compute. lia.
  - reflexivity.
  - reflexivity.
  - reflexivity.
  - reflexivity.
  - reflexivity.
  - lia.
  - reflexivity.
  - reflexivity.
Defined.

(* ================================================================= *)
(** ** The log: unknown users, bad queries, shape and round trips *)

(** X12: the log of a user id that is not in the users table is answered
    with 404 "User not found" when the id is a valid text, and with 500
    "Server error" when it holds a NUL character; only the look-up of the
    user is sent, the exercises are not queried, and no table changes,
    whatever the query string. *)
Theorem get_logs_unknown_user utc_offset Date_parse userId from to limit s :
  ~ registered userId (db s) ->
  get_logs utc_offset Date_parse userId from to limit s
  = (if PG.valid_text userId
     then Response 404 (error_body "User not found")
     else Response 500 (error_body "Server error"),
     Store (db s)
           (sent s ++ ["SELECT _id, username FROM users WHERE _id = $1"])).
Proof.
  intros Hno. unfold get_logs. run_handler.
  destruct (PG.valid_text userId) eqn:Hv.
  - now rewrite (select_users_by_id_none _ _ Hv Hno).
  - now rewrite (select_users_by_id_invalid _ _ Hv).
Qed.

Lemma get_logs_unknown_user_witness :
  get_logs 0 JS.iso_date_parse "0123456789abcdef01234567"
    (JS.JStr "2024-01-01") JS.JUndefined (JS.JStr "5") sample_store
  = (Response 404 (error_body "User not found"),
     Store (db sample_store)
           (sent sample_store
            ++ ["SELECT _id, username FROM users WHERE _id = $1"])).
Proof.
  apply (get_logs_unknown_user 0 JS.iso_date_parse "0123456789abcdef01234567").
  intros (u & [<- | []] & Heq). discriminate Heq.
Defined.

(** X13: for a registered user, a query string the statement cannot take
    is answered with 500 "Server error", not with a log: a [limit] that
    reads as no number, as a negative one or as one from [2^63] on, or a
    [from] or [to] that is no valid date. *)
Theorem get_logs_bad_query utc_offset Date_parse userId from to limit s :
  registered userId (db s) ->
  (JS.truthy limit = true /\
   forall k, JS.parseInt limit = JS.Finite k -> k < 0 \/ 2 ^ 63 <= k) \/
  (JS.truthy from = true /\ new_Date Date_parse from = None) \/
  (JS.truthy to = true /\ new_Date Date_parse to = None) ->
  fst (get_logs utc_offset Date_parse userId from to limit s)
  = Response 500 (error_body "Server error").
Proof.
  intros Hreg Hbad.
  destruct (PG.valid_text userId) eqn:Hv.
  2:{ unfold get_logs. run_handler.
      now rewrite (select_users_by_id_invalid _ _ Hv). }
  destruct (select_users_by_id_some _ _ Hv Hreg) as (user & rest & Hsel).
  rewrite (get_logs_found _ _ _ _ _ _ _ _ _ Hsel).
  destruct Hbad as [[Ht Hk] | [[Ht Hd] | [Ht Hd]]].
  - assert (Hl : row_limit limit = None).
    { unfold row_limit. rewrite Ht.
      now rewrite (limit_param_rejects _ Hk). }
    rewrite Hl.
    destruct (date_bound utc_offset Date_parse from);
      [destruct (date_bound utc_offset Date_parse to)|]; reflexivity.
  - unfold date_bound at 1. now rewrite Ht, Hd.
  - assert (Hb : date_bound utc_offset Date_parse to = None)
      by (unfold date_bound; now rewrite Ht, Hd).
    rewrite Hb. destruct (date_bound utc_offset Date_parse from); reflexivity.
Qed.

Lemma get_logs_bad_query_witness :
  fst (get_logs 0 JS.iso_date_parse "659200808"
         JS.JUndefined JS.JUndefined (JS.JStr "9223372036854775808")
         sample_store)
  = Response 500 (error_body "Server error").
Proof.
  apply get_logs_bad_query.
  - exact sample_registered.
  - left. split; [reflexivity|].
    intros k Hk. vm_compute in Hk. injection Hk as <-. right. reflexivity.
Defined.

(** X14: a limit caps the log and does no more.  For a registered user in
    tables that satisfy the schema, valid or absent date bounds, and a
    [limit] field that is supplied and reads as [k] with [0 <= k < 2^53],
    the count of the log is the smaller of [k] and the number of exercises
    of the user within the bounds; so ["0"] gives an empty log, and a limit
    of at least that number gives all of them. *)
Theorem get_logs_limit_caps utc_offset Date_parse userId from to limit lo hi k s :
  schema_ok (db s) ->
  registered userId (db s) ->
  date_bound utc_offset Date_parse from = Some lo ->
  date_bound utc_offset Date_parse to = Some hi ->
  JS.truthy limit = true ->
  JS.parseInt limit = JS.Finite k ->
  0 <= k < 2 ^ 53 ->
  status (fst (get_logs utc_offset Date_parse userId from to limit s)) = 200 /\
  field "count" (body (fst (get_logs utc_offset Date_parse userId from to limit s)))
  = Some (jnumber
            (Z.min k (Z.of_nat (List.length
                                  (filter (in_range lo hi)
                                          (exercises_of userId (db s))))))).
Proof.
  intros Hok Hreg Hlo Hhi Ht Hparse Hk.
  pose proof (registered_valid_text _ _ Hok Hreg) as Hv.
  destruct (select_users_by_id_some _ _ Hv Hreg) as (user & rest & Hsel).
  rewrite (get_logs_found _ _ _ _ _ _ _ _ _ Hsel), Hlo, Hhi.
  unfold row_limit. rewrite Ht, Hparse, (limit_param_small _ Hk).
  cbn [option_map status body].
  split; [reflexivity|].
  rewrite log_body_count. unfold listExercises, cap.
  rewrite take_firstn, length_firstn.
  rewrite (Permutation_length (order_by_perm by_date _)).
  do 2 f_equal. lia.
Qed.

Lemma get_logs_limit_caps_witness :
  status (fst (get_logs 0 JS.iso_date_parse "659200808"
                 JS.JUndefined JS.JUndefined (JS.JStr "0") sample_store)) = 200 /\
  field "count" (body (fst (get_logs 0 JS.iso_date_parse "659200808"
                              JS.JUndefined JS.JUndefined (JS.JStr "0")
                              sample_store)))
  = Some (jnumber
            (Z.min 0 (Z.of_nat (List.length
                                  (filter (in_range None None)
                                          (exercises_of "659200808"
                                             (db sample_store))))))).
Proof.
  apply (get_logs_limit_caps 0 JS.iso_date_parse "659200808"
           JS.JUndefined JS.JUndefined (JS.JStr "0") None None 0 sample_store).
  - exact sample_schema_ok.
  - exact sample_registered.
  - reflexivity.
  - reflexivity.
  - reflexivity.
  - reflexivity.
  - split; [lia | reflexivity].
Defined.

(** X15: a successful log response has exactly the fields [_id],
    [username], [count] and [log], in this order; [_id] is the id of the
    path, [count] is the number of entries of [log], and every entry has
    exactly the fields [description], [duration] and [date]. *)
Theorem get_logs_shape utc_offset Date_parse userId from to limit s :
  status (fst (get_logs utc_offset Date_parse userId from to limit s)) = 200 ->
  let b := body (fst (get_logs utc_offset Date_parse userId from to limit s)) in
  field_names b = ["_id"; "username"; "count"; "log"] /\
  field "_id" b = Some (jstring userId) /\
  exists entries,
    field "log" b = Some (jarray entries) /\
    field "count" b = Some (jnumber (Z.of_nat (List.length entries))) /\
    Forall (fun j => field_names j = ["description"; "duration"; "date"])
           entries.
Proof.
  intros H b. subst b. revert H.
  destruct (PG.select_users_by_id userId (db s)) as [[|user rest]|] eqn:Hsel.
  1,3: unfold get_logs; run_handler; rewrite Hsel; discriminate.
  - rewrite (get_logs_found _ _ _ _ _ _ _ _ _ Hsel).
    destruct (date_bound utc_offset Date_parse from) as [lo|];
      [destruct (date_bound utc_offset Date_parse to) as [hi|];
        [destruct (row_limit limit) as [lim|]|]|];
      cbn [status body]; try discriminate.
    intros _. split; [reflexivity|]. split.
    + destruct (select_users_by_id_In _ _ _ _ Hsel) as (_ & <- & _).
      reflexivity.
    + exists (map (log_entry utc_offset) (listExercises userId lo hi lim (db s))).
      split; [reflexivity|]. split; [reflexivity|].
      apply Forall_forall. intros j Hj.
      apply in_map_iff in Hj. destruct Hj as (r & <- & _). reflexivity.
Qed.

Lemma get_logs_shape_witness :
  let b := body (fst (get_logs 0 JS.iso_date_parse "659200808"
                        JS.JUndefined JS.JUndefined JS.JUndefined
                        sample_store)) in
  field_names b = ["_id"; "username"; "count"; "log"] /\
  field "_id" b = Some (jstring "659200808") /\
  exists entries,
    field "log" b = Some (jarray entries) /\
    field "count" b = Some (jnumber (Z.of_nat (List.length entries))) /\
    Forall (fun j => field_names j = ["description"; "duration"; "date"])
           entries.
Proof.
  apply (get_logs_shape 0 JS.iso_date_parse "659200808"
           JS.JUndefined JS.JUndefined JS.JUndefined sample_store).
  reflexivity.
Defined.

(** X16: the placeholders of the log statement are numbered without gaps.
    Whatever fields of the query string are supplied, the clauses appended
    hold the placeholders [$2], [$3], ... in this order, one for each
    parameter pushed after the user id, and the text sent is the base
    statement followed by the texts of the clauses. *)
Theorem logs_statement_placeholders Date_parse userId from to limit :
  let q := logs_statement Date_parse userId from to limit in
  let n := (supplied from + supplied to + supplied limit)%nat in
  List.length (params q) = S n /\
  placeholders (clauses q) = seq 2 n /\
  text q
  = "SELECT description, duration, date FROM exercises WHERE user_id = $1"
    ++ String.concat "" (map clause_text (clauses q)).
Proof.
  unfold logs_statement, supplied.
  destruct (JS.truthy from), (JS.truthy to), (JS.truthy limit);
    repeat split; reflexivity.
Qed.

(** X17: an exercise that add-exercise has answered 200 for is in the log
    of its user.  When the tables satisfy the schema, the log requested
    without query fields on the resulting store is answered with 200, has
    one entry more than the user had exercises, and has an entry with the
    description, duration and date of the add-exercise response. *)
Theorem added_exercise_is_logged utc_offset Date_parse userId
    description duration date now e s :
  schema_ok (db s) ->
  status (fst (post_exercise utc_offset Date_parse userId description
                 duration date now e s)) = 200 ->
  let added := post_exercise utc_offset Date_parse userId description
                 duration date now e s in
  let logs := get_logs utc_offset Date_parse userId
                JS.JUndefined JS.JUndefined JS.JUndefined (snd added) in
  status (fst logs) = 200 /\
  field "count" (body (fst logs))
    = Some (jnumber (Z.of_nat (List.length (exercises_of userId (db s))) + 1)) /\
  exists entries d n dt,
    field "log" (body (fst logs)) = Some (jarray entries) /\
    field "description" (body (fst added)) = Some d /\
    field "duration" (body (fst added)) = Some n /\
    field "date" (body (fst added)) = Some dt /\
    In (jobject [("description", d); ("duration", n); ("date", dt)]) entries.
Proof.
  intros Hok H added logs.
  destruct (post_exercise_inv _ _ _ _ _ _ _ _ _ H)
    as (user & rest & u & n & day & _ & _ & Hsel & Hu & _ & _ & _ & _ & _
        & Hrun).
  destruct (select_users_by_id_In _ _ _ _ Hsel) as (Hin & Hid & _).
  assert (Hlen : (String.length userId <= 255)%nat).
  { pose proof (users_columns _ Hok) as Hcol. rewrite Forall_forall in Hcol.
    destruct (Hcol _ Hin) as [Hl _]. now rewrite Hid in Hl. }
  rewrite (varchar255_short _ Hlen) in Hu. injection Hu as <-.
  set (row := PG.ExerciseRow (generateObjectId e) userId
                (JS.ToString description) n day) in *.
  subst logs. subst added. rewrite Hrun. cbn [fst snd body].
  assert (Hsel' : PG.select_users_by_id userId
                    (db (Store (PG.Tables (PG.users (db s))
                                  (PG.exercises (db s) ++ [row]))
                               (sent s ++
                                ["SELECT * FROM users WHERE _id = $1";
                                 "INSERT INTO exercises (_id, user_id, description, duration, date) VALUES ($1, $2, $3, $4, $5) RETURNING *"])))
                  = Some (user :: rest)) by exact Hsel.
  rewrite (get_logs_found _ _ _ _ _ _ _ _ _ Hsel').
  cbn [date_bound row_limit JS.truthy status body db].
  assert (Hex : exercises_of userId
                  (PG.Tables (PG.users (db s)) (PG.exercises (db s) ++ [row]))
                = (exercises_of userId (db s) ++ [row])%list).
  { unfold exercises_of. cbn [PG.exercises]. rewrite filter_app.
    cbn [filter row PG.e_user_id]. now rewrite String.eqb_refl. }
  assert (Hperm : Permutation
                    (listExercises userId None None None
                       (PG.Tables (PG.users (db s)) (PG.exercises (db s) ++ [row])))
                    (exercises_of userId (db s) ++ [row])).
  { rewrite listExercises_no_limit. cbn [in_range andb].
    now rewrite filter_true, Hex. }
  split; [reflexivity|]. split.
  - unfold log_body. cbn [field assoc String.eqb Ascii.eqb Bool.eqb].
    rewrite length_map, (Permutation_length Hperm), length_app.
    cbn [List.length]. do 2 f_equal. lia.
  - eexists _, _, _, _. split; [reflexivity|].
    split; [reflexivity|]. split; [reflexivity|]. split; [reflexivity|].
    change (jobject [("description", jstring (JS.ToString description));
                     ("duration", jnumber n);
                     ("date", jstring (render_date utc_offset day))])
      with (log_entry utc_offset row).
    apply in_map. eapply Permutation_in; [symmetry; exact Hperm|].
    apply in_or_app. right. now left.
Qed.

Lemma added_exercise_is_logged_witness :
  let added := post_exercise 0 JS.iso_date_parse "659200808" (JS.JStr "run")
                 (JS.JNum 30) (JS.JStr "2024-01-01") jan_1_2024_ms later
                 sample_store in
  let logs := get_logs 0 JS.iso_date_parse "659200808"
                JS.JUndefined JS.JUndefined JS.JUndefined (snd added) in
  status (fst logs) = 200 /\
  field "count" (body (fst logs))
    = Some (jnumber (Z.of_nat (List.length
                                 (exercises_of "659200808" (db sample_store)))
                     + 1)) /\
  exists entries d n dt,
    field "log" (body (fst logs)) = Some (jarray entries) /\
    field "description" (body (fst added)) = Some d /\
    field "duration" (body (fst added)) = Some n /\
    field "date" (body (fst added)) = Some dt /\
    In (jobject [("description", d); ("duration", n); ("date", dt)]) entries.
Proof.
  apply (added_exercise_is_logged 0 JS.iso_date_parse "659200808"
           (JS.JStr "run") (JS.JNum 30) (JS.JStr "2024-01-01")
           jan_1_2024_ms later sample_store).
  - exact sample_schema_ok.
  - reflexivity.
Defined.

(** X18: no stored exercise is lost from the log.  When the tables satisfy
    the schema, every row of [exercises] appears as an entry of the log of
    the user it refers to, requested without query fields, and that request
    is answered with 200. *)
Theorem every_exercise_is_logged utc_offset Date_parse x s :
  schema_ok (db s) ->
  In x (PG.exercises (db s)) ->
  let logs := get_logs utc_offset Date_parse (PG.e_user_id x)
                JS.JUndefined JS.JUndefined JS.JUndefined s in
  status (fst logs) = 200 /\
  exists entries,
    field "log" (body (fst logs)) = Some (jarray entries) /\
    In (log_entry utc_offset x) entries.
Proof.
  intros Hok Hx logs. subst logs.
  assert (Hreg : registered (PG.e_user_id x) (db s)).
  { pose proof (exercises_fk _ Hok) as Hfk. rewrite Forall_forall in Hfk.
    specialize (Hfk _ Hx). unfold PG.has_user_id in Hfk.
    apply existsb_exists in Hfk. destruct Hfk as (u & Hu & Heq).
    exists u. split; [exact Hu | now apply String.eqb_eq]. }
  pose proof (registered_valid_text _ _ Hok Hreg) as Hv.
  destruct (select_users_by_id_some _ _ Hv Hreg) as (user & rest & Hsel).
  rewrite (get_logs_found _ _ _ _ _ _ _ _ _ Hsel).
  cbn [date_bound row_limit JS.truthy status body].
  split; [reflexivity|].
  exists (map (log_entry utc_offset)
              (listExercises (PG.e_user_id x) None None None (db s))).
  split; [reflexivity|].
  apply in_map. eapply Permutation_in.
  - symmetry. apply listExercises_no_limit.
  - cbn [in_range andb]. rewrite filter_true.
    apply filter_In. split; [exact Hx | apply String.eqb_refl].
Qed.

Lemma every_exercise_is_logged_witness :
  let logs := get_logs 0 JS.iso_date_parse (PG.e_user_id swim_jan_15)
                JS.JUndefined JS.JUndefined JS.JUndefined sample_store in
  status (fst logs) = 200 /\
  exists entries,
    field "log" (body (fst logs)) = Some (jarray entries) /\
    In (log_entry 0 swim_jan_15) entries.
Proof.
  apply (every_exercise_is_logged 0 JS.iso_date_parse swim_jan_15 sample_store).
  - exact sample_schema_ok.
  - right. right. now left.
Defined.

(* ================================================================= *)
(** ** The reset *)

(** X19: the reset answers 200 with its message and leaves both tables
    empty, whatever they held; on the store it leaves, the list of users is
    empty, and every user id is unknown: for an id that is a valid text the
    log and add-exercise (with a description and a duration) answer 404,
    for an id with a NUL character they answer 500. *)
Theorem get_reset_empties utc_offset Date_parse collate s :
  let s' := snd (get_reset s) in
  fst (get_reset s)
    = Response 200 (jobject [("message", jstring "Database reset successfully")]) /\
  db s' = PG.Tables [] [] /\
  fst (get_users collate s') = Response 200 (jarray []) /\
  (forall userId from to limit,
     fst (get_logs utc_offset Date_parse userId from to limit s')
     = if PG.valid_text userId
       then Response 404 (error_body "User not found")
       else Response 500 (error_body "Server error")) /\
  (forall userId description duration date now e,
     JS.truthy description = true ->
     JS.truthy duration = true ->
     fst (post_exercise utc_offset Date_parse userId description duration
            date now e s')
     = if PG.valid_text userId
       then Response 404 (error_body "User not found")
       else Response 500 (error_body "Server error")).
Proof.
  cbv zeta. split; [reflexivity|]. split; [reflexivity|].
  split; [reflexivity|]. split.
  - intros userId from to limit. unfold get_logs. run_handler.
    unfold PG.select_users_by_id.
    destruct (PG.valid_text userId); reflexivity.
  - intros userId description duration date now e Hd Hn.
    unfold post_exercise. rewrite Hd, Hn. cbn [negb orb]. run_handler.
    unfold PG.select_users_by_id.
    destruct (PG.valid_text userId); reflexivity.
Qed.

(* ================================================================= *)
(** ** The identifier generator: shape and distinctness *)

(** X20: at a time from the epoch on whose seconds have at most 24
    hexadecimal digits, with a random value in the unit interval, the
    identifier is the seconds of the clock in hexadecimal followed by at
    most 16 further characters; it has at most 24 characters, all of them
    lowercase hexadecimal digits. *)
Theorem generateObjectId_shape (e : entropy) :
  0 <= id_now e / 1000 < 16 ^ 24 ->
  JS.in_unit_interval (id_rnd e) ->
  (exists rest,
     generateObjectId e = JS.int_toString 16 (id_now e / 1000) ++ rest /\
     (String.length rest <= 16)%nat) /\
  (String.length (generateObjectId e) <= 24)%nat /\
  JS.all_chars JS.is_hex_digit (generateObjectId e) = true.
Proof.
  intros Hnow Hrnd. split; [|split].
  - unfold generateObjectId, JS.substr.
    assert (Hlen : (String.length (JS.int_toString 16 (id_now e / 1000)) <= 24)%nat).
    { unfold JS.int_toString.
      destruct (Z.ltb_spec (id_now e / 1000) 0); [lia|].
      apply nat_toString_16_length; [lia|].
      change (16 ^ N.of_nat 24)%N with (Z.to_N (16 ^ 24)). lia. }
    rewrite (substring_app_prefix _ _ 24 Hlen).
    eexists. split; [reflexivity|].
    etransitivity; [apply substring_length_le_string|].
    rewrite Nat.sub_0_r. apply substring_length_le.
  - apply generateObjectId_length.
  - apply generateObjectId_hex; [|exact Hrnd].
    destruct (Z.le_gt_cases 0 (id_now e)) as [H|H]; [exact H|].
    assert (id_now e / 1000 < 0) by (apply Z.div_lt_upper_bound; lia). lia.
Qed.

Lemma generateObjectId_shape_witness :
  (exists rest,
     generateObjectId later = JS.int_toString 16 (id_now later / 1000) ++ rest /\
     (String.length rest <= 16)%nat) /\
  (String.length (generateObjectId later) <= 24)%nat /\
  JS.all_chars JS.is_hex_digit (generateObjectId later) = true.
Proof.
  apply generateObjectId_shape.
  - vm_compute. split; [discriminate | reflexivity].
  - vm_compute. reflexivity.
Defined.

Lemma generateObjectId_too_short_witness :
  (String.length (generateObjectId (Entropy jan_1_2024_ms all_bits)) < 24)%nat.
Proof.
  apply generateObjectId_too_short.
  - vm_compute. split; [discriminate | reflexivity].
  - vm_compute. reflexivity.
  - vm_compute. lia.
Defined.

Lemma digit_char_hex_value (d : N) :
  (d < 16)%N -> JS.digit_value 16 (JS.digit_char d) = Some d.
Proof.
  intros H.
  assert (Hd : (d = 0 \/ d = 1 \/ d = 2 \/ d = 3 \/ d = 4 \/ d = 5 \/ d = 6 \/
                d = 7 \/ d = 8 \/ d = 9 \/ d = 10 \/ d = 11 \/ d = 12 \/
                d = 13 \/ d = 14 \/ d = 15)%N) by lia.
  repeat (destruct Hd as [-> | Hd]; [reflexivity|]).
  subst d. reflexivity.
Qed.

(** Reading the hexadecimal digits of a number gives the number back. *)
Lemma leading_hex_digits_int_digits fuel n acc :
  (n < 16 ^ N.of_nat (S fuel))%N ->
  JS.leading_digits 16 (JS.int_digits (S fuel) 16 n acc) None
  = JS.leading_digits 16 acc (Some n).
Proof.
  revert n acc; induction fuel as [|fuel IH]; intros n acc Hn;
    rewrite int_digits_S;
    assert (Hm : (n mod 16 < 16)%N) by (apply N.mod_lt; lia);
    pose proof (N.div_mod n 16 ltac:(lia)) as Hdm;
    pose proof (digit_char_hex_value _ Hm) as Hv;
    destruct (N.eqb_spec (n / 16) 0) as [Hq|Hq].
  - cbn [JS.leading_digits]. rewrite Hv. do 2 f_equal. lia.
  - exfalso. apply Hq. apply N.div_small. exact Hn.
  - cbn [JS.leading_digits]. rewrite Hv. do 2 f_equal. lia.
  - rewrite IH.
    + cbn [JS.leading_digits]. rewrite Hv. do 2 f_equal. lia.
    + apply N.Div0.div_lt_upper_bound.
      replace (N.of_nat (S (S fuel))) with (N.succ (N.of_nat (S fuel))) in Hn
        by lia.
      now rewrite N.pow_succ_r' in Hn.
Qed.

Lemma lt_pow16_size (n : N) : (n < 16 ^ N.of_nat (S (N.to_nat (N.size n))))%N.
Proof.
  rewrite Nat2N.inj_succ, N2Nat.id.
  apply N.lt_le_trans with (2 ^ N.size n)%N; [apply N.size_gt|].
  rewrite N.pow_succ_r'.
  apply N.le_trans with (16 ^ N.size n)%N.
  - apply N.pow_le_mono_l. lia.
  - pose proof (N.pow_nonzero 16 (N.size n) ltac:(lia)). lia.
Qed.

Lemma nat_toString_16_injective (a b : N) :
  JS.nat_toString 16 a = JS.nat_toString 16 b -> a = b.
Proof.
  intros H.
  pose proof (leading_hex_digits_int_digits _ _ "" (lt_pow16_size a)) as Ha.
  pose proof (leading_hex_digits_int_digits _ _ "" (lt_pow16_size b)) as Hb.
  unfold JS.nat_toString in H. rewrite H, Hb in Ha.
  cbn [JS.leading_digits] in Ha. congruence.
Qed.

(** A number from [16^k] up to [16^(k+1)] has exactly [k + 1] hexadecimal
    digits. *)
Lemma int_digits_length_exact fuel n acc (k : nat) :
  (16 ^ N.of_nat k <= n < 16 ^ N.of_nat (S k))%N ->
  (k < fuel)%nat ->
  String.length (JS.int_digits fuel 16 n acc) = (String.length acc + S k)%nat.
Proof.
  revert n acc k; induction fuel as [|fuel IH]; intros n acc k [Hlo Hhi] Hk;
    [lia|].
  rewrite int_digits_S.
  rewrite Nat2N.inj_succ, N.pow_succ_r' in Hhi.
  destruct (N.eqb_spec (n / 16) 0) as [Hq|Hq].
  - assert (Hn : (n < 16)%N).
    { pose proof (N.div_mod n 16 ltac:(lia)).
      pose proof (N.mod_lt n 16 ltac:(lia)). lia. }
    destruct k as [|k].
    + cbn [String.length]. lia.
    + exfalso. rewrite Nat2N.inj_succ, N.pow_succ_r' in Hlo.
      pose proof (N.pow_nonzero 16 (N.of_nat k) ltac:(lia)). nia.
  - destruct k as [|k].
    + exfalso. apply Hq. apply N.div_small.
      change (16 ^ N.of_nat 0)%N with 1%N in Hhi. lia.
    + rewrite (IH (n / 16)%N _ k).
      * cbn [String.length]. lia.
      * rewrite Nat2N.inj_succ, N.pow_succ_r' in Hlo. split.
        -- apply N.div_le_lower_bound; [lia | exact Hlo].
        -- apply N.Div0.div_lt_upper_bound. exact Hhi.
      * lia.
Qed.

Lemma nat_toString_16_length_exact (n : N) (k : nat) :
  (16 ^ N.of_nat k <= n < 16 ^ N.of_nat (S k))%N ->
  String.length (JS.nat_toString 16 n) = S k.
Proof.
  intros H. unfold JS.nat_toString.
  rewrite (int_digits_length_exact _ n "" k H); [reflexivity|].
  assert (Hs : (N.of_nat k < N.size n)%N).
  { destruct (N.lt_ge_cases (N.of_nat k) (N.size n)) as [Hlt|Hge]; [exact Hlt|].
    exfalso. pose proof (N.size_gt n) as Hgt.
    assert (2 ^ N.size n <= 2 ^ N.of_nat k)%N
      by (apply N.pow_le_mono_r; [lia | exact Hge]).
    assert (2 ^ N.of_nat k <= 16 ^ N.of_nat k)%N
      by (apply N.pow_le_mono_l; lia).
    lia. }
  lia.
Qed.

Lemma append_eq_length (a b c d : string) :
  String.length a = String.length c -> a ++ b = c ++ d -> a = c.
Proof.
  revert c; induction a as [|x a IH]; intros [|y c] Hlen H;
    simpl in *; try discriminate; [reflexivity|].
  injection H as -> H. f_equal. apply (IH c); [lia | exact H].
Qed.

(** X21: identifiers made in different seconds are different.  For two
    clock readings whose seconds have eight hexadecimal digits (from 1978
    into 2106) and differ, the two identifiers differ, whatever the random
    values. *)
Theorem ids_differ_across_seconds (e1 e2 : entropy) :
  16 ^ 7 <= id_now e1 / 1000 < 16 ^ 8 ->
  16 ^ 7 <= id_now e2 / 1000 < 16 ^ 8 ->
  id_now e1 / 1000 <> id_now e2 / 1000 ->
  generateObjectId e1 <> generateObjectId e2.
Proof.
  intros H1 H2 Hne Heq.
  assert (Hts : forall e, 16 ^ 7 <= id_now e / 1000 < 16 ^ 8 ->
            JS.int_toString 16 (id_now e / 1000)
              = JS.nat_toString 16 (Z.to_N (id_now e / 1000)) /\
            String.length (JS.nat_toString 16 (Z.to_N (id_now e / 1000))) = 8%nat).
  { intros e He. split.
    - unfold JS.int_toString.
      destruct (Z.ltb_spec (id_now e / 1000) 0); [lia | reflexivity].
    - apply (nat_toString_16_length_exact _ 7).
      change (16 ^ N.of_nat 7)%N with (Z.to_N (16 ^ 7)).
      change (16 ^ N.of_nat 8)%N with (Z.to_N (16 ^ 8)). lia. }
  destruct (Hts e1 H1) as [Ht1 Hl1], (Hts e2 H2) as [Ht2 Hl2].
  unfold generateObjectId, JS.substr in Heq. rewrite Ht1, Ht2 in Heq.
  rewrite !substring_app_prefix in Heq by lia.
  apply append_eq_length in Heq; [|congruence].
  apply nat_toString_16_injective in Heq. apply Hne. lia.
Qed.

Lemma ids_differ_across_seconds_witness :
  generateObjectId (Entropy jan_1_2024_ms one_half)
  <> generateObjectId (Entropy jan_9_noon_west_ms one_half).
Proof.
  apply ids_differ_across_seconds.
  - vm_compute. split; [discriminate | reflexivity].
  - vm_compute. split; [discriminate | reflexivity].
  - vm_compute. discriminate.
Defined.

(* ================================================================= *)
(** ** Stored dates are always rendered as dates *)

Lemma handle_keeps_storable utc_offset Date_parse collate r s :
  Forall (fun x => storable_day utc_offset (PG.e_date x)) (PG.exercises (db s)) ->
  Forall (fun x => storable_day utc_offset (PG.e_date x))
    (PG.exercises (db (snd (handle utc_offset Date_parse collate r s)))).
Proof.
  intros Hall.
  destruct r as [username e| |userId description duration date now e
                |userId from to limit|]; cbn [handle].
  - destruct (post_users_db username e s)
      as [-> | (i & n & _ & _ & _ & _ & _ & _ & _ & ->)]; exact Hall.
  - exact Hall.
  - now apply post_exercise_keeps_storable.
  - now rewrite get_logs_db.
  - rewrite get_reset_db. constructor.
Qed.

(** X22: the server never answers a log with an entry dated "Invalid Date".
    In every state reached from empty tables, on a server less than a day
    from UTC, every stored exercise is rendered in the log as the date
    string (weekday, month, day, year) of the very day that is stored. *)
Theorem reachable_dates_render utc_offset Date_parse collate s :
  -1440 < utc_offset < 1440 ->
  reachable utc_offset Date_parse collate s ->
  forall x, In x (PG.exercises (db s)) ->
    field "date" (log_entry utc_offset x)
    = Some (jstring (JS.date_string_of_day (PG.e_date x))).
Proof.
  intros Htz Hreach.
  assert (Hall : Forall (fun x => storable_day utc_offset (PG.e_date x))
                   (PG.exercises (db s))).
  { induction Hreach as [|s r _ IH]; [constructor|].
    now apply handle_keeps_storable. }
  intros x Hx. rewrite Forall_forall in Hall.
  cbn [log_entry field assoc String.eqb Ascii.eqb Bool.eqb].
  now rewrite render_date_storable by auto.
Qed.

Lemma reachable_dates_render_witness :
  field "date"
    (log_entry utc_minus_5
       (PG.ExerciseRow (generateObjectId later) "659200808" "walk" 20 19731))
  = Some (jstring (JS.date_string_of_day 19731)).
Proof.
  apply (reachable_dates_render utc_minus_5 JS.iso_date_parse String.leb
           (snd (handle utc_minus_5 JS.iso_date_parse String.leb
                   (PostExercise "659200808" (JS.JStr "walk") (JS.JNum 20)
                      JS.JUndefined jan_9_noon_west_ms later)
                   (snd (handle utc_minus_5 JS.iso_date_parse String.leb
                           (PostUsers (JS.JStr "alice")
                              (Entropy jan_1_2024_ms one_half))
                           empty_store))))).
  - unfold utc_minus_5. lia.
  - apply reachable_step. apply reachable_step. apply reachable_start.
  - left. reflexivity.
Defined.

